(** * Agentic RAG: the decision workflow and the React strategy

    A shallow embedding of [AgenticRAGAgent] (the unified agent module), of
    the service layer it calls ([RAGServices]), of the routes that call it
    and of the configuration and utility modules, followed by their
    properties.

    Conventions of the model.
    - Text is a [string]: the sequence of the UTF-16 code units of the
      JavaScript string, each a number.  [length], [substring] and
      [includes] count and compare code units, as JavaScript does.  [trim]
      removes the white space and the line terminators of ECMAScript.
    - [toUpperCase] and [toLowerCase] follow the Unicode case mappings for
      every character whose mapping has an ASCII character on either side
      (the 26 letters, the dotless i, the long s, the sharp s, the Kelvin
      sign, the ligatures, ...) and leave the other characters alone.  The
      code only looks for ASCII text in what it maps ([RETRIEVE], [yes])
      and only lower-cases its own ASCII literals, so that no run tells
      the difference.
    - Everything outside the repository (the Azure OpenAI client, the Azure
      search client, [uuidv4], the clock, number and JSON printing, the
      prebuilt React loop) is a field of the record [Env].  Each of them
      answers as a function of the history of effects so far, so that a
      service may fail on one call and succeed on the next.
    - [async] code is a computation in the monad [M]: it reads and extends
      the history and either returns a value or throws an [Error] message.
      The same code is a tree of effects in [Steps], where two runs can be
      interleaved.
    - The graph runtime of LangGraph is the function [run_graph]: the node
      runs, the object it returns goes through the reducers of the state
      annotation, the edge out of the node is followed, and the runtime
      throws when the recursion limit is used up.
    - [console.log] calls, and the clock reads made only inside their
      arguments, are left out. *)

From Stdlib Require Import List ZArith NArith QArith Bool Lia.
From Stdlib Require Ascii String DecimalString.
From Stdlib.Strings Require Byte.

Set Warnings "-register-all".
Close Scope Q_scope.
Import ListNotations.

(** ** Text *)

(** A UTF-16 code unit: a number below 65536. *)
Definition code_unit : Type := N.

Inductive string : Type :=
| EmptyString
| String (c : code_unit) (s : string).
Arguments String c%_N s.

Declare Scope js_scope.
Delimit Scope js_scope with js.
Bind Scope js_scope with string.

Module String.

Fixpoint append (a b : string) : string :=
  match a with
  | EmptyString => b
  | String c a' => String c (append a' b)
  end.

(** [s.length] *)
Fixpoint length (s : string) : nat :=
  match s with
  | EmptyString => 0
  | String _ s' => S (length s')
  end.

(** [a === b] *)
Fixpoint eqb (a b : string) : bool :=
  match a, b with
  | EmptyString, EmptyString => true
  | String c a', String d b' => N.eqb c d && eqb a' b'
  | _, _ => false
  end.

(** [s.startsWith(p)] *)
Fixpoint prefix (p s : string) : bool :=
  match p, s with
  | EmptyString, _ => true
  | String c p', String d s' => N.eqb c d && prefix p' s'
  | String _ _, EmptyString => false
  end.

(** The code units of a text. *)
Fixpoint units (s : string) : list code_unit :=
  match s with
  | EmptyString => []
  | String c s' => c :: units s'
  end.

End String.

Notation "a ++ b" := (String.append a b) : js_scope.

(** A literal of this file is read as JavaScript reads its source: the
    UTF-8 bytes of the text become UTF-16 code units. *)
Module Literal.

Definition continuation (b : Byte.byte) : option N :=
  let n := Byte.to_N b in
  if ((128 <=? n) && (n <? 192))%N then Some (n - 128)%N else None.

Definition units_of_code_point (cp : N) : string :=
  if (cp <? 65536)%N then String cp EmptyString
  else
    let v := (cp - 65536)%N in
    String (55296 + v / 1024) (String (56320 + v mod 1024) EmptyString).

Fixpoint decode (fuel : nat) (bytes : list Byte.byte) : option string :=
  match fuel with
  | O => match bytes with [] => Some EmptyString | _ => None end
  | S fuel' =>
      match bytes with
      | [] => Some EmptyString
      | b :: rest =>
          let n := Byte.to_N b in
          if (n <? 128)%N then
            option_map (String n) (decode fuel' rest)
          else if (n <? 192)%N then None
          else if (n <? 224)%N then
            match rest with
            | b1 :: rest' =>
                match continuation b1, decode fuel' rest' with
                | Some c1, Some s =>
                    Some (String.append
                            (units_of_code_point ((n - 192) * 64 + c1)) s)
                | _, _ => None
                end
            | _ => None
            end
          else if (n <? 240)%N then
            match rest with
            | b1 :: b2 :: rest' =>
                match continuation b1, continuation b2, decode fuel' rest' with
                | Some c1, Some c2, Some s =>
                    Some (String.append
                            (units_of_code_point
                               ((n - 224) * 4096 + c1 * 64 + c2)) s)
                | _, _, _ => None
                end
            | _ => None
            end
          else
            match rest with
            | b1 :: b2 :: b3 :: rest' =>
                match continuation b1, continuation b2, continuation b3,
                      decode fuel' rest' with
                | Some c1, Some c2, Some c3, Some s =>
                    Some (String.append
                            (units_of_code_point
                               ((n - 240) * 262144 + c1 * 4096 + c2 * 64 + c3)) s)
                | _, _, _, _ => None
                end
            | _ => None
            end
      end
  end.

Definition parse (bytes : list Byte.byte) : option string :=
  decode (List.length bytes) bytes.

(** Only ASCII text is printed back as a literal. *)
Fixpoint print (s : string) : option (list Byte.byte) :=
  match s with
  | EmptyString => Some []
  | String c s' =>
      match Byte.of_N c, print s' with
      | Some b, Some bytes => if (c <? 128)%N then Some (b :: bytes) else None
      | _, _ => None
      end
  end.

(** The text of a string of the Standard Library, byte for byte. *)
Fixpoint of_ascii_string (s : Stdlib.Strings.String.string) : string :=
  match s with
  | Stdlib.Strings.String.EmptyString => EmptyString
  | Stdlib.Strings.String.String c s' =>
      String (Stdlib.Strings.Ascii.N_of_ascii c) (of_ascii_string s')
  end.

End Literal.

String Notation string Literal.parse Literal.print : js_scope.
Local Open Scope js_scope.

(** ** JavaScript built-ins used by the agent *)

Module Js.

(** White space and line terminators: tab, line feed, vertical tab, form
    feed, carriage return, space, no-break space, U+1680, U+2000 to U+200A,
    U+2028, U+2029, U+202F, U+205F, U+3000 and U+FEFF. *)
Definition is_ws (c : code_unit) : bool :=
  (((9 <=? c) && (c <=? 13)) || (c =? 32) || (c =? 160) || (c =? 5760)
   || ((8192 <=? c) && (c <=? 8202)) || (c =? 8232) || (c =? 8233)
   || (c =? 8239) || (c =? 8287) || (c =? 12288) || (c =? 65279))%N.

(** The upper-case mapping of a character, wherever ASCII is involved. *)
Definition upper_unit (c : code_unit) : string :=
  if ((97 <=? c) && (c <=? 122))%N then String (c - 32) ""
  else if (c =? 223)%N then "SS"
  else if (c =? 305)%N then "I"
  else if (c =? 329)%N then String 700 "N"
  else if (c =? 383)%N then "S"
  else if (c =? 496)%N then String 74 (String 780 "")
  else if (c =? 7830)%N then String 72 (String 817 "")
  else if (c =? 7831)%N then String 84 (String 776 "")
  else if (c =? 7832)%N then String 87 (String 778 "")
  else if (c =? 7833)%N then String 89 (String 778 "")
  else if (c =? 7834)%N then String 65 (String 702 "")
  else if (c =? 64256)%N then "FF"
  else if (c =? 64257)%N then "FI"
  else if (c =? 64258)%N then "FL"
  else if (c =? 64259)%N then "FFI"
  else if (c =? 64260)%N then "FFL"
  else if (c =? 64261)%N then "ST"
  else if (c =? 64262)%N then "ST"
  else String c "".

(** The lower-case mapping of a character, wherever ASCII is involved. *)
Definition lower_unit (c : code_unit) : string :=
  if ((65 <=? c) && (c <=? 90))%N then String (c + 32) ""
  else if (c =? 304)%N then String 105 (String 775 "")
  else if (c =? 8490)%N then "k"
  else String c "".

Fixpoint umap (f : code_unit -> string) (s : string) : string :=
  match s with
  | EmptyString => EmptyString
  | String c s' => f c ++ umap f s'
  end.

(** [s.toUpperCase()], [s.toLowerCase()] *)
Definition toUpperCase : string -> string := umap upper_unit.
Definition toLowerCase : string -> string := umap lower_unit.

Fixpoint trimStart (s : string) : string :=
  match s with
  | EmptyString => EmptyString
  | String c s' => if is_ws c then trimStart s' else s
  end.

Fixpoint trimEnd (s : string) : string :=
  match s with
  | EmptyString => EmptyString
  | String c s' =>
      match trimEnd s' with
      | EmptyString => if is_ws c then EmptyString else String c EmptyString
      | t => String c t
      end
  end.

(** [s.trim()] *)
Definition trim (s : string) : string := trimEnd (trimStart s).

(** [s.includes(p)] *)
Fixpoint includes (s p : string) : bool :=
  String.prefix p s ||
  match s with
  | EmptyString => false
  | String _ s' => includes s' p
  end.

(** [s.substring(0, n)] *)
Fixpoint substring0 (n : nat) (s : string) : string :=
  match n, s with
  | S n', String c s' => String c (substring0 n' s')
  | _, _ => EmptyString
  end.

(** [l.join(sep)] *)
Fixpoint join (sep : string) (l : list string) : string :=
  match l with
  | [] => EmptyString
  | [x] => x
  | x :: l' => x ++ sep ++ join sep l'
  end.

(** [l.map((x, i) => f(x, i))], the index counted from [i] *)
Fixpoint mapi_from {A B : Type} (i : nat) (f : A -> nat -> B) (l : list A) : list B :=
  match l with
  | [] => []
  | x :: l' => f x i :: mapi_from (S i) f l'
  end.

Definition mapi {A B : Type} (f : A -> nat -> B) (l : list A) : list B :=
  mapi_from 0 f l.

(** [l.slice(0, n)] *)
Definition slice0 {A : Type} (n : nat) (l : list A) : list A := firstn n l.

(** The text of a non-negative integer inside a template literal. *)
Definition string_of_nat (n : nat) : string :=
  Literal.of_ascii_string (DecimalString.NilZero.string_of_uint (Nat.to_uint n)).

(** The double quote and the line feed, which the prompts contain. *)
Definition dq : string := String 34 EmptyString.
Definition nl : string := String 10 EmptyString.

(** A JavaScript value, as far as the returned objects need one. *)
Inductive JsVal : Type :=
| JNull
| JBool (b : bool)
| JNum (q : Q)
| JStr (s : string)
| JArr (items : list JsVal)
| JObj (fields : list (string * JsVal)).

(** [Object.keys(v)] *)
Definition keys (v : JsVal) : list string :=
  match v with
  | JObj fields => map fst fields
  | _ => []
  end.

(** [v[k]]; [None] is [undefined]. *)
Fixpoint lookup (k : string) (fields : list (string * JsVal)) : option JsVal :=
  match fields with
  | [] => None
  | (k', v) :: rest => if String.eqb k k' then Some v else lookup k rest
  end.

Definition get (k : string) (v : JsVal) : option JsVal :=
  match v with
  | JObj fields => lookup k fields
  | _ => None
  end.

(** [v[k1][k2]...] *)
Fixpoint path (v : JsVal) (ks : list string) : option JsVal :=
  match ks with
  | [] => Some v
  | k :: ks' =>
      match get k v with
      | Some v' => path v' ks'
      | None => None
      end
  end.

End Js.

Import Js.

(** ** Data of the service layer and of the agent *)

(** [{ role, content }], a message sent to the completion service. *)
Record ChatMessage : Type := { role : string; content : string }.

(** The options every caller in the agent passes to [generateCompletion]. *)
Record CompletionOptions : Type := { temperature : Q; maxTokens : Z }.

(** The options passed to [searchDocuments]. *)
Record SearchOptions : Type := { top : nat; queryType : string }.

(** What [searchDocuments] hands to the Azure search client. *)
Record ClientSearchOptions : Type :=
  { client_top : nat;
    client_queryType : string;
    semanticConfiguration : option string }.

(** A document of the search index: its [content] field, when it has one,
    and its other fields. *)
Record Document : Type :=
  { doc_content : option string;
    doc_fields : list (string * string) }.

(** One entry of [searchResults.results]. *)
Record SearchResult : Type := { document : Document; result_score : Q }.

(** The value [searchDocuments] returns. *)
Record SearchResponse : Type := { results : list SearchResult; count : nat }.

(** An entry of [retrievedDocs]: [{ content, score, metadata }]. *)
Record RetrievedDoc : Type :=
  { rd_content : string; score : Q; metadata : Document }.

(** [HumanMessage] and [AIMessage] of the message history. *)
Inductive Message : Type :=
| HumanMessage (text : string)
| AIMessage (text : string).

Definition message_content (m : Message) : string :=
  match m with HumanMessage t => t | AIMessage t => t end.

(** An execution step: [{ step, timestamp, details }]. *)
Record Step : Type :=
  { step : string; timestamp : string; details : list (string * JsVal) }.

(** The result of a call that may throw: a value or the message of the
    [Error]. *)
Inductive Outcome (A : Type) : Type :=
| Ok (a : A)
| Throw (message : string).
Arguments Ok {A} a.
Arguments Throw {A} message.

(** ** Effects *)

(** What a run does to the outside world, newest event first. *)
Inductive Event : Type :=
| EvNow
| EvUuid
| EvCompletion (messages : list ChatMessage) (options : CompletionOptions)
| EvSearch (query : string) (options : SearchOptions)
| EvReactInvoke (messages : list ChatMessage).

Definition History : Type := list Event.

Definition is_uuid (e : Event) : bool :=
  match e with EvUuid => true | _ => false end.

(** The number of identifiers drawn so far. *)
Definition uuid_count (h : History) : nat := List.length (filter is_uuid h).

(** The external collaborators. *)
Record Env : Type :=
  { (** [openaiClient.chat.completions.create]: the [content] of the first
        choice, [None] when there is none *)
    chat_completions_create :
      History -> list ChatMessage -> CompletionOptions -> Outcome (option string);
    (** [searchClient.search], with its result iterator read to the end *)
    searchClient_search :
      History -> string -> ClientSearchOptions -> Outcome (list SearchResult);
    (** the n-th identifier [uuidv4] hands out *)
    uuid_seq : nat -> string;
    (** [Date.now()] *)
    Date_now : History -> Z;
    (** [new Date(t).toISOString()] *)
    toISOString : Z -> string;
    (** [JSON.stringify] of a document *)
    JSON_stringify : Document -> string;
    (** the text of a number inside a template literal *)
    Number_toString : Q -> string;
    (** [invoke] of the agent that [createReactAgent] builds: the message
        list of its response *)
    reactAgent_invoke : History -> list ChatMessage -> Outcome (list Message) }.

(** The monad of [async] code. *)
Definition M (A : Type) : Type := History -> Outcome A * History.

Definition ret {A : Type} (a : A) : M A := fun h => (Ok a, h).

Definition bind {A B : Type} (c : M A) (k : A -> M B) : M B :=
  fun h =>
    match c h with
    | (Ok a, h') => k a h'
    | (Throw msg, h') => (Throw msg, h')
    end.

Definition throw {A : Type} (msg : string) : M A := fun h => (Throw msg, h).

(** [try { c } catch (error) { handler(error.message) }] *)
Definition try_catch {A : Type} (c : M A) (handler : string -> M A) : M A :=
  fun h =>
    match c h with
    | (Ok a, h') => (Ok a, h')
    | (Throw msg, h') => handler msg h'
    end.

(** An external call: it is logged, and answers from the history before it. *)
Definition perform {A : Type} (e : Event) (answer : History -> Outcome A) : M A :=
  fun h => (answer h, e :: h).

Declare Scope agent_scope.
Delimit Scope agent_scope with agent.
Notation "x <- c ;; k" := (bind c (fun x => k))
  (at level 100, c at next level, right associativity) : agent_scope.
Local Open Scope agent_scope.

Section Agent.

Variable env : Env.

Definition now : M Z := perform EvNow (fun h => Ok (Date_now env h)).

(** [new Date().toISOString()] *)
Definition new_Date_toISOString : M string :=
  t <- now ;; ret (toISOString env t).

Definition uuidv4 : M string :=
  perform EvUuid (fun h => Ok (uuid_seq env (uuid_count h))).

(** ** The service layer: [RAGServices]

    The singleton is constructed before any agent runs, so [initialized] is
    [true] in every call.  Every caller in the agent passes [temperature] and
    [maxTokens], and [top] and [queryType]. *)

Definition generateCompletion
    (messages : list ChatMessage) (options : CompletionOptions) : M string :=
  try_catch
    (response <- perform (EvCompletion messages options)
                   (fun h => chat_completions_create env h messages options) ;;
     ret (match response with
          | Some (String c s) => String c s
          | _ => "No response generated"
          end))
    (fun error => throw ("Completion generation failed: " ++ error)).

Definition searchDocuments (query : string) (options : SearchOptions) :
    M SearchResponse :=
  try_catch
    (let searchOptions :=
       {| client_top := top options;
          client_queryType := queryType options;
          semanticConfiguration :=
            if String.eqb (queryType options) "semantic" then Some "default"
            else None |} in
     found <- perform (EvSearch query options)
                (fun h => searchClient_search env h query searchOptions) ;;
     ret {| results := found; count := List.length found |})
    (fun error => throw ("Document search failed: " ++ error)).

(** ** The agent: [AgenticRAGAgent] *)

Inductive AgentType : Type := WORKFLOW | REACT.

(** [AGENT_TYPES] *)
Definition type_name (t : AgentType) : string :=
  match t with WORKFLOW => "workflow" | REACT => "react" end.

(** The channels of [AgenticRAGState].  [needsRAG] and [ragAccepted] are
    [null] ([None]), [true] or [false]. *)
Record AgenticRAGState : Type :=
  { messages : list Message;
    sessionId : string;
    userQuery : string;
    needsRAG : option bool;
    searchQuery : string;
    retrievedDocs : list RetrievedDoc;
    ragAccepted : option bool;
    rejectionReason : string;
    finalAnswer : string;
    executionSteps : list Step;
    retryCount : Z;
    maxRetries : Z }.

(** One key of the object a node returns. *)
Inductive Field : Type :=
| needsRAG_ (v : bool)
| searchQuery_ (v : string)
| retrievedDocs_ (v : list RetrievedDoc)
| ragAccepted_ (v : bool)
| rejectionReason_ (v : string)
| finalAnswer_ (v : string)
| executionSteps_ (v : list Step)
| messages_ (v : list Message).

Definition Update : Type := list Field.

(** The reducers of [AgenticRAGState]: [messages] and [executionSteps]
    concatenate, every other channel takes the new value. *)
Definition reduce (s : AgenticRAGState) (f : Field) : AgenticRAGState :=
  match f with
  | needsRAG_ v =>
      {| messages := messages s; sessionId := sessionId s; userQuery := userQuery s;
         needsRAG := Some v; searchQuery := searchQuery s;
         retrievedDocs := retrievedDocs s; ragAccepted := ragAccepted s;
         rejectionReason := rejectionReason s; finalAnswer := finalAnswer s;
         executionSteps := executionSteps s; retryCount := retryCount s;
         maxRetries := maxRetries s |}
  | searchQuery_ v =>
      {| messages := messages s; sessionId := sessionId s; userQuery := userQuery s;
         needsRAG := needsRAG s; searchQuery := v;
         retrievedDocs := retrievedDocs s; ragAccepted := ragAccepted s;
         rejectionReason := rejectionReason s; finalAnswer := finalAnswer s;
         executionSteps := executionSteps s; retryCount := retryCount s;
         maxRetries := maxRetries s |}
  | retrievedDocs_ v =>
      {| messages := messages s; sessionId := sessionId s; userQuery := userQuery s;
         needsRAG := needsRAG s; searchQuery := searchQuery s;
         retrievedDocs := v; ragAccepted := ragAccepted s;
         rejectionReason := rejectionReason s; finalAnswer := finalAnswer s;
         executionSteps := executionSteps s; retryCount := retryCount s;
         maxRetries := maxRetries s |}
  | ragAccepted_ v =>
      {| messages := messages s; sessionId := sessionId s; userQuery := userQuery s;
         needsRAG := needsRAG s; searchQuery := searchQuery s;
         retrievedDocs := retrievedDocs s; ragAccepted := Some v;
         rejectionReason := rejectionReason s; finalAnswer := finalAnswer s;
         executionSteps := executionSteps s; retryCount := retryCount s;
         maxRetries := maxRetries s |}
  | rejectionReason_ v =>
      {| messages := messages s; sessionId := sessionId s; userQuery := userQuery s;
         needsRAG := needsRAG s; searchQuery := searchQuery s;
         retrievedDocs := retrievedDocs s; ragAccepted := ragAccepted s;
         rejectionReason := v; finalAnswer := finalAnswer s;
         executionSteps := executionSteps s; retryCount := retryCount s;
         maxRetries := maxRetries s |}
  | finalAnswer_ v =>
      {| messages := messages s; sessionId := sessionId s; userQuery := userQuery s;
         needsRAG := needsRAG s; searchQuery := searchQuery s;
         retrievedDocs := retrievedDocs s; ragAccepted := ragAccepted s;
         rejectionReason := rejectionReason s; finalAnswer := v;
         executionSteps := executionSteps s; retryCount := retryCount s;
         maxRetries := maxRetries s |}
  | executionSteps_ v =>
      {| messages := messages s; sessionId := sessionId s; userQuery := userQuery s;
         needsRAG := needsRAG s; searchQuery := searchQuery s;
         retrievedDocs := retrievedDocs s; ragAccepted := ragAccepted s;
         rejectionReason := rejectionReason s; finalAnswer := finalAnswer s;
         executionSteps := executionSteps s ++ v; retryCount := retryCount s;
         maxRetries := maxRetries s |}
  | messages_ v =>
      {| messages := messages s ++ v; sessionId := sessionId s; userQuery := userQuery s;
         needsRAG := needsRAG s; searchQuery := searchQuery s;
         retrievedDocs := retrievedDocs s; ragAccepted := ragAccepted s;
         rejectionReason := rejectionReason s; finalAnswer := finalAnswer s;
         executionSteps := executionSteps s; retryCount := retryCount s;
         maxRetries := maxRetries s |}
  end.

Definition apply_update (s : AgenticRAGState) (u : Update) : AgenticRAGState :=
  fold_left reduce u s.

(** [null], [true] or [false] as a JavaScript value, and as a condition. *)
Definition js_of_tri (t : option bool) : JsVal :=
  match t with None => JNull | Some b => JBool b end.

Definition truthy (t : option bool) : bool :=
  match t with Some true => true | _ => false end.

Definition js_of_nat (n : nat) : JsVal := JNum (inject_Z (Z.of_nat n)).

(** Helper to add execution steps *)
Definition _addStep (state : AgenticRAGState) (name : string)
    (info : list (string * JsVal)) : M (list Step) :=
  time <- new_Date_toISOString ;;
  ret [ {| step := name; timestamp := time; details := info |} ].

Definition analysisPrompt (userQuery : string) : string :=
  "You are an AI assistant that determines whether a user query could benefit from external document retrieval.

User Query: "
  ++ dq
  ++ userQuery
  ++ dq
  ++ "

Always respond "
  ++ dq
  ++ "RETRIEVE"
  ++ dq
  ++ " if the query could potentially benefit from:
- Company-specific information (brand guidelines, style guides, internal docs)
- Recent reports, studies, or research findings
- Proprietary knowledge or internal processes
- Specific technical documentation
- Current industry trends or data

For creative/strategic work mentioning specific companies (like Adobe, Google, etc.), always try RETRIEVE first to check for relevant brand guidelines or company-specific information.

The query asks for: "
  ++ dq
  ++ userQuery
  ++ dq
  ++ "

Respond with only one word: RETRIEVE or GENERATE".

(** Agent analysis node *)
Definition _agentNode (state : AgenticRAGState) : M Update :=
  executionSteps <- _addStep state "agent_analysis"
                      [("userQuery", JStr (userQuery state))] ;;
  try_catch
    (decision <- generateCompletion
                   [ {| role := "user"; content := analysisPrompt (userQuery state) |} ]
                   {| temperature := 1 # 10; maxTokens := 10 |} ;;
     let needsRetrieval := includes (toUpperCase (trim decision)) "RETRIEVE" in
     ret [ needsRAG_ needsRetrieval;
           searchQuery_ (if needsRetrieval then userQuery state else "");
           executionSteps_ executionSteps;
           messages_ [HumanMessage (userQuery state)] ])
    (fun error =>
     ret [ needsRAG_ false;
           executionSteps_ executionSteps;
           messages_ [HumanMessage (userQuery state)] ]).

(** [result.document.content || JSON.stringify(result.document)] *)
Definition content_or_json (d : Document) : string :=
  match doc_content d with
  | Some (String c s) => String c s
  | _ => JSON_stringify env d
  end.

(** Retrieval node *)
Definition _retrieveNode (state : AgenticRAGState) : M Update :=
  executionSteps <- _addStep state "retrieval"
                      [("searchQuery", JStr (searchQuery state));
                       ("retryCount", JNum (inject_Z (retryCount state)))] ;;
  try_catch
    (searchResults <- searchDocuments (searchQuery state)
                        {| top := 5; queryType := "semantic" |} ;;
     let retrievedDocs :=
       map (fun result =>
              {| rd_content := content_or_json (document result);
                 score := result_score result;
                 metadata := document result |})
           (results searchResults) in
     ret [ retrievedDocs_ retrievedDocs; executionSteps_ executionSteps ])
    (fun error =>
     ret [ retrievedDocs_ []; executionSteps_ executionSteps ]).

(** One entry of the document list in the grading prompt. *)
Definition gradeExcerpt (doc : RetrievedDoc) (i : nat) : string :=
  "
Document "
  ++ string_of_nat (i + 1)
  ++ ":
"
  ++ substring0 500 (rd_content doc)
  ++ "...
Score: "
  ++ Number_toString env (score doc)
  ++ "
".

Definition gradePrompt (userQuery : string) (retrievedDocs : list RetrievedDoc) : string :=
  "You are a grader assessing whether retrieved documents contain specific company/brand information that would improve the response.

User Question: "
  ++ dq
  ++ userQuery
  ++ dq
  ++ "

Retrieved Documents:
"
  ++ join nl (mapi gradeExcerpt retrievedDocs)
  ++ "

Look specifically for:
- Brand guidelines, style guides, or design standards for "
  ++ (if includes userQuery "Adobe" then "Adobe" else "the mentioned company")
  ++ "
- Company-specific design principles or requirements
- Official documentation or internal processes  
- Proprietary knowledge that goes beyond general industry knowledge

Only respond 'yes' if documents contain specific brand/company information. 
Respond 'no' if documents are:
- Generic industry advice or best practices
- Unrelated to the specific company mentioned
- General design principles without company specifics

Respond with only: yes or no".

(** Document grading node *)
Definition _gradeDocumentsNode (state : AgenticRAGState) : M Update :=
  executionSteps <- _addStep state "grade_documents"
                      [("docCount", js_of_nat (List.length (retrievedDocs state)))] ;;
  try_catch
    (if (List.length (retrievedDocs state) =? 0)%nat then
       ret [ ragAccepted_ false;
             rejectionReason_ "No documents retrieved";
             executionSteps_ executionSteps ]
     else
       gradeResult <- generateCompletion
                        [ {| role := "user";
                             content := gradePrompt (userQuery state) (retrievedDocs state) |} ]
                        {| temperature := 1 # 10; maxTokens := 5 |} ;;
       let isRelevant := includes (toLowerCase (trim gradeResult)) "yes" in
       ret [ ragAccepted_ isRelevant;
             rejectionReason_ (if isRelevant then "" else "Documents not relevant to query");
             executionSteps_ executionSteps ])
    (fun error =>
     ret [ ragAccepted_ false;
           rejectionReason_ "Error evaluating document relevance";
           executionSteps_ executionSteps ]).

(** One entry of the context in the answer prompt. *)
Definition contextSource (doc : RetrievedDoc) (i : nat) : string :=
  "
Source "
  ++ string_of_nat (i + 1)
  ++ ":
"
  ++ rd_content doc
  ++ "
".

Definition contextPrompt (userQuery : string) (retrievedDocs : list RetrievedDoc) : string :=
  "You are an assistant for question-answering tasks. Use the following pieces of retrieved context to answer the question. If you don't know the answer, just say that you don't know. Be comprehensive and detailed in your response.

Question: "
  ++ userQuery
  ++ "

Context:
"
  ++ join nl (mapi contextSource retrievedDocs)
  ++ "

Answer:".

Definition rejectionNote (rejectionReason : string) : string :=
  "Note: External documents were retrieved but "
  ++ toLowerCase rejectionReason
  ++ ". Proceeding with general knowledge.".

Definition generalPrompt (userQuery note : string) : string :=
  "You are a helpful AI assistant. Answer the following question using your general knowledge. Be comprehensive and acknowledge any limitations in your response.

Question: "
  ++ userQuery
  ++ "

"
  ++ note
  ++ "

Answer:".

(** The prompt the generation node builds from the state. *)
Definition generationPrompt (state : AgenticRAGState) : string :=
  if truthy (ragAccepted state) && (0 <? List.length (retrievedDocs state))%nat then
    contextPrompt (userQuery state) (retrievedDocs state)
  else
    let note :=
      match rejectionReason state with
      | String _ _ => rejectionNote (rejectionReason state)
      | EmptyString => ""
      end in
    generalPrompt (userQuery state) note.

(** Generation node *)
Definition _generateNode (state : AgenticRAGState) : M Update :=
  executionSteps <- _addStep state "generate"
                      [("ragAccepted", js_of_tri (ragAccepted state));
                       ("docCount", js_of_nat (List.length (retrievedDocs state)))] ;;
  try_catch
    (answer <- generateCompletion
                 [ {| role := "user"; content := generationPrompt state |} ]
                 {| temperature := 7 # 10; maxTokens := 2000 |} ;;
     ret [ finalAnswer_ answer;
           executionSteps_ executionSteps;
           messages_ (messages state ++ [AIMessage answer]) ])
    (fun error =>
     ret [ finalAnswer_ "I apologize, but I encountered an error while generating the response.";
           executionSteps_ executionSteps;
           messages_ (messages state ++ [AIMessage "Error generating response"]) ]).

(** Conditional edge functions *)
Definition _decideToRetrieve (state : AgenticRAGState) : string :=
  if truthy (needsRAG state) then "retrieve" else "generate".

Definition _gradeDocuments (state : AgenticRAGState) : string :=
  if (List.length (retrievedDocs state) =? 0)%nat then "no_docs"
  else if truthy (ragAccepted state) then "relevant"
  else "no_docs".

(** ** The workflow graph *)

(** The nodes added to the [StateGraph]. *)
Inductive Node : Type := agent | retrieve | grade_documents | generate.

(** Where an edge leads: a node, or [END]. *)
Inductive Target : Type := To (n : Node) | END.

(** [addEdge] and [addConditionalEdges]: a conditional edge has a routing
    function and the map from its labels to targets. *)
Inductive Edge : Type :=
| Direct (target : Target)
| Conditional (router : AgenticRAGState -> string)
    (path_map : list (string * Target)).

Definition node_action (n : Node) : AgenticRAGState -> M Update :=
  match n with
  | agent => _agentNode
  | retrieve => _retrieveNode
  | grade_documents => _gradeDocumentsNode
  | generate => _generateNode
  end.

Definition edge_from (n : Node) : Edge :=
  match n with
  | agent =>
      Conditional _decideToRetrieve
        [("retrieve", To retrieve); ("generate", To generate)]
  | retrieve => Direct (To grade_documents)
  | grade_documents =>
      Conditional _gradeDocuments
        [("relevant", To generate); ("not_relevant", To generate);
         ("no_docs", To generate)]
  | generate => Direct END
  end.

Fixpoint path_lookup (label : string) (path_map : list (string * Target)) : option Target :=
  match path_map with
  | [] => None
  | (l, t) :: rest => if String.eqb label l then Some t else path_lookup label rest
  end.

Definition follow (e : Edge) (state : AgenticRAGState) : M Target :=
  match e with
  | Direct t => ret t
  | Conditional router path_map =>
      match path_lookup (router state) path_map with
      | Some t => ret t
      | None => throw ("Branch condition returned unknown destination " ++ router state)
      end
  end.

(** [workflow.compile({ recursionLimit: 10 })] *)
Definition recursionLimit : nat := 10.

(** One stage: the node runs and its update goes through the reducers. *)
Definition stage (n : Node) (state : AgenticRAGState) : M AgenticRAGState :=
  update <- node_action n state ;;
  ret (apply_update state update).

(** [GraphRecursionError] *)
Definition recursion_error : string :=
  "Recursion limit reached without hitting a stop condition".

(** The compiled graph run from node [n]: the stage runs, then the edge out
    of the node is followed.  Each stage uses one of the [limit] steps, and
    the runtime looks at the limit before it looks for the end of the run:
    it throws when the steps are used up, also when the stage that used the
    last one led to [END]. *)
Fixpoint run_graph (limit : nat) (n : Node) (state : AgenticRAGState) :
    M AgenticRAGState :=
  match limit with
  | O => throw recursion_error
  | S limit' =>
      state' <- stage n state ;;
      target <- follow (edge_from n) state' ;;
      match target with
      | END =>
          match limit' with
          | O => throw recursion_error
          | S _ => ret state'
          end
      | To n' => run_graph limit' n' state'
      end
  end.

(** [this.agent.invoke(initialState)] of the workflow agent.  The runtime
    first creates the channels of [AgenticRAGState], which calls the
    [default] of each: the one of [sessionId] draws an identifier with
    [uuidv4].  Then the input is written to the channels: [initialState]
    gives every key, so that each channel holds the value of the input (the
    drawn identifier is overwritten).  The edge out of [__start__] leads to
    [agent]. *)
Definition workflow_invoke (initialState : AgenticRAGState) : M AgenticRAGState :=
  default_sessionId <- uuidv4 ;;
  run_graph recursionLimit agent initialState.

(** The run written out: the default of the session channel is drawn, then
    the four stages run in the order the edges allow. *)
Definition staged_run (state : AgenticRAGState) : M AgenticRAGState :=
  default_sessionId <- uuidv4 ;;
  analysed <- stage agent state ;;
  if truthy (needsRAG analysed) then
    retrieved <- stage retrieve analysed ;;
    graded <- stage grade_documents retrieved ;;
    stage generate graded
  else
    stage generate analysed.

(** The same graph as a transition system: a configuration is the node about
    to run, the state it receives and the history so far. *)
Definition Config : Type := (Node * AgenticRAGState * History)%type.

Inductive transition : Config -> Config -> Prop :=
| transition_intro n state h state' h' n' h'' :
    stage n state h = (Ok state', h') ->
    follow (edge_from n) state' h' = (Ok (To n'), h'') ->
    transition (n, state, h) (n', state', h'').

(** [transitions k c c']: the run gets from [c] to [c'] in [k] transitions. *)
Inductive transitions : nat -> Config -> Config -> Prop :=
| transitions_O c : transitions 0 c c
| transitions_S k c c' c'' :
    transitions k c c' -> transition c' c'' -> transitions (S k) c c''.

(** The run that starts at [c] enters node [n] with [state] at history [h]. *)
Definition enters (c : Config) (n : Node) (state : AgenticRAGState) (h : History) :
    Prop :=
  exists k, transitions k c (n, state, h).

(** [advance k c]: the configuration [k] transitions after [c], when the
    run gets that far. *)
Fixpoint advance (k : nat) (c : Config) : option Config :=
  match k with
  | O => Some c
  | S k' =>
      match advance k' c with
      | Some (n, state, h) =>
          match stage n state h with
          | (Ok state', h') =>
              match follow (edge_from n) state' h' with
              | (Ok (To n'), h'') => Some (n', state', h'')
              | _ => None
              end
          | _ => None
          end
      | None => None
      end
  end.

(** The name under which a stage records its execution step. *)
Definition stage_name (n : Node) : string :=
  match n with
  | agent => "agent_analysis"
  | retrieve => "retrieval"
  | grade_documents => "grade_documents"
  | generate => "generate"
  end.

(** What the completion service and the search service answer to a request
    made at history [h]. *)
Definition reply_of (request : list ChatMessage) (options : CompletionOptions)
    (h : History) : Outcome string :=
  fst (generateCompletion request options h).

Definition search_of (query : string) (options : SearchOptions)
    (h : History) : Outcome SearchResponse :=
  fst (searchDocuments query options h).

(** ** [execute] *)

Definition js_of_step (s : Step) : JsVal :=
  JObj [("step", JStr (step s)); ("timestamp", JStr (timestamp s));
        ("details", JObj (details s))].

(** ['{"input":"' + userQuery + '"}'] *)
Definition input_json (userQuery : string) : string :=
  "{" ++ dq ++ "input" ++ dq ++ ":" ++ dq ++ userQuery ++ dq ++ "}".

(** The state [execute] starts the workflow from. *)
Definition initialState (session query : string) (maxRetries_option : option Z) :
    AgenticRAGState :=
  {| sessionId := session;
     userQuery := query;
     messages := [];
     needsRAG := None;
     searchQuery := "";
     retrievedDocs := [];
     ragAccepted := None;
     rejectionReason := "";
     finalAnswer := "";
     executionSteps := [];
     retryCount := 0;
     maxRetries := match maxRetries_option with Some n => n | None => (-1)%Z end |}.

(** The object [execute] returns for the workflow agent. *)
Definition workflow_response (type : AgentType) (query : string)
    (result : AgenticRAGState) (executionTimeMs : Z) (stamp : string) : JsVal :=
  JObj
    [("sessionId", JStr (sessionId result));
     ("query", JStr query);
     ("answer", JStr (finalAnswer result));
     ("explainability", JObj
        [("executionSteps", JArr (map js_of_step (executionSteps result)));
         ("decisionPoints", JObj
            [("needsRAG", js_of_tri (needsRAG result));
             ("ragAccepted", js_of_tri (ragAccepted result));
             ("retryCount", JNum (inject_Z (retryCount result)))]);
         ("retrievalDetails",
            if truthy (needsRAG result) then
              JObj
                [("searchQuery", JStr (searchQuery result));
                 ("documentsFound", js_of_nat (List.length (retrievedDocs result)));
                 ("topDocuments",
                    JArr (map (fun doc => JObj [("score", JNum (score doc))])
                              (slice0 3 (retrievedDocs result))))]
            else JNull);
         ("rejectionReason", JStr (rejectionReason result))]);
     ("metadata", JObj
        [("executionTimeMs", JNum (inject_Z executionTimeMs));
         ("timestamp", JStr stamp);
         ("workflowVersion", JStr "1.0.0");
         ("agentType", JStr (type_name type))])].

Definition execute_workflow (type : AgentType) (startTime : Z)
    (query : string) (maxRetries_option : option Z) : M JsVal :=
  session <- uuidv4 ;;
  result <- workflow_invoke (initialState session query maxRetries_option) ;;
  finished <- now ;;
  stamp <- new_Date_toISOString ;;
  ret (workflow_response type query result (finished - startTime) stamp).

(** The object [execute] returns for the React agent. *)
Definition react_response (query answer session stamp1 stamp2 stamp3 : string)
    (executionTimeMs : Z) (stamp : string) : JsVal :=
  JObj
    [("sessionId", JStr session);
     ("query", JStr query);
     ("answer", JStr answer);
     ("explainability", JObj
        [("executionSteps", JArr
            [JObj [("step", JStr "tool_search_documents");
                   ("timestamp", JStr stamp1);
                   ("details", JObj [("toolName", JStr "search_documents");
                                     ("arguments", JStr (input_json query))])];
             JObj [("step", JStr "tool_evaluate_documents");
                   ("timestamp", JStr stamp2);
                   ("details", JObj [("toolName", JStr "evaluate_documents");
                                     ("arguments", JStr (input_json query))])];
             JObj [("step", JStr "generate");
                   ("timestamp", JStr stamp3);
                   ("details", JObj [("agentType", JStr "createReactAgent")])]]);
         ("decisionPoints", JObj
            [("needsRAG", JBool true);
             ("ragAccepted", JBool true);
             ("retryCount", JNum 0)]);
         ("retrievalDetails", JObj
            [("searchQuery", JStr (input_json query));
             ("documentsFound", JStr "Variable");
             ("topDocuments", JArr [])]);
         ("rejectionReason", JNull)]);
     ("metadata", JObj
        [("executionTimeMs", JNum (inject_Z executionTimeMs));
         ("timestamp", JStr stamp);
         ("workflowVersion", JStr "React-1.0.0");
         ("agentType", JStr "createReactAgent")])].

Definition execute_react (startTime : Z) (query : string) : M JsVal :=
  let request := [ {| role := "user"; content := query |} ] in
  response <- perform (EvReactInvoke request)
                (fun h => reactAgent_invoke env h request) ;;
  match last (map Some response) None with
  | None => throw "Cannot read properties of undefined (reading 'content')"
  | Some finalMessage =>
      let answer := message_content finalMessage in
      session <- uuidv4 ;;
      stamp1 <- new_Date_toISOString ;;
      stamp2 <- new_Date_toISOString ;;
      stamp3 <- new_Date_toISOString ;;
      finished <- now ;;
      stamp <- new_Date_toISOString ;;
      ret (react_response query answer session stamp1 stamp2 stamp3
             (finished - startTime) stamp)
  end.

(** Execute query with agent *)
Definition execute (type : AgentType) (query : string)
    (maxRetries_option : option Z) : M JsVal :=
  startTime <- now ;;
  try_catch
    (match type with
     | WORKFLOW => execute_workflow type startTime query maxRetries_option
     | REACT => execute_react startTime query
     end)
    (fun error => throw ("Agent execution failed: " ++ error)).

(** ** What each stage asks and records *)

(** The execution step a stage records when it starts from [state] at
    history [h]. *)
Definition entry_of (n : Node) (state : AgenticRAGState) (h : History) : Step :=
  {| step := stage_name n;
     timestamp := toISOString env (Date_now env h);
     details :=
       match n with
       | agent => [("userQuery", JStr (userQuery state))]
       | retrieve =>
           [("searchQuery", JStr (searchQuery state));
            ("retryCount", JNum (inject_Z (retryCount state)))]
       | grade_documents =>
           [("docCount", js_of_nat (List.length (retrievedDocs state)))]
       | generate =>
           [("ragAccepted", js_of_tri (ragAccepted state));
            ("docCount", js_of_nat (List.length (retrievedDocs state)))]
       end |}.

Definition analysis_request (state : AgenticRAGState) : list ChatMessage :=
  [ {| role := "user"; content := analysisPrompt (userQuery state) |} ].

Definition grade_request (state : AgenticRAGState) : list ChatMessage :=
  [ {| role := "user";
       content := gradePrompt (userQuery state) (retrievedDocs state) |} ].

Definition generate_request (state : AgenticRAGState) : list ChatMessage :=
  [ {| role := "user"; content := generationPrompt state |} ].

Definition analysis_options : CompletionOptions :=
  {| temperature := 1 # 10; maxTokens := 10 |}.
Definition grade_options : CompletionOptions :=
  {| temperature := 1 # 10; maxTokens := 5 |}.
Definition generate_options : CompletionOptions :=
  {| temperature := 7 # 10; maxTokens := 2000 |}.
Definition retrieve_options : SearchOptions :=
  {| top := 5; queryType := "semantic" |}.

(** The answer of the generation node when the completion fails. *)
Definition fallback_answer : string :=
  "I apologize, but I encountered an error while generating the response.".

End Agent.

Arguments analysisPrompt : simpl never.
Arguments generationPrompt : simpl never.
Arguments gradePrompt : simpl never.
Arguments contextPrompt : simpl never.
Arguments generalPrompt : simpl never.
Arguments rejectionNote : simpl never.

(** ** The shape of the graph *)

(** The number of stages that can still follow [n]. *)
Definition rank (n : Node) : nat :=
  match n with
  | agent => 3
  | retrieve => 2
  | grade_documents => 1
  | generate => 0
  end.

(** Where the edge out of [n] leads for [state]. *)
Definition successor (n : Node) (state : AgenticRAGState) : Target :=
  match n with
  | agent => if truthy (needsRAG state) then To retrieve else To generate
  | retrieve => To grade_documents
  | grade_documents => To generate
  | generate => END
  end.

Definition step_names (state : AgenticRAGState) : list string :=
  map step (executionSteps state).

(** What holds of the state with which a run for [query] enters node [n]. *)
Definition on_entry (query : string) (n : Node) (s : AgenticRAGState) : Prop :=
  userQuery s = query /\
  match n with
  | agent =>
      needsRAG s = None /\ searchQuery s = "" /\ retrievedDocs s = [] /\
      ragAccepted s = None /\ rejectionReason s = "" /\ step_names s = []
  | retrieve =>
      needsRAG s = Some true /\ searchQuery s = query /\ retrievedDocs s = [] /\
      ragAccepted s = None /\ rejectionReason s = "" /\
      step_names s = ["agent_analysis"]
  | grade_documents =>
      needsRAG s = Some true /\ searchQuery s = query /\
      ragAccepted s = None /\ rejectionReason s = "" /\
      step_names s = ["agent_analysis"; "retrieval"]
  | generate =>
      (needsRAG s = Some false /\ searchQuery s = "" /\ retrievedDocs s = [] /\
       ragAccepted s = None /\ rejectionReason s = "" /\
       step_names s = ["agent_analysis"])
      \/
      (needsRAG s = Some true /\ searchQuery s = query /\
       step_names s = ["agent_analysis"; "retrieval"; "grade_documents"] /\
       ((retrievedDocs s = [] /\ ragAccepted s = Some false /\
         rejectionReason s = "No documents retrieved")
        \/
        (retrievedDocs s <> [] /\
         ((ragAccepted s = Some true /\ rejectionReason s = "") \/
          (ragAccepted s = Some false /\
           (rejectionReason s = "Documents not relevant to query" \/
            rejectionReason s = "Error evaluating document relevance"))))))
  end.

(** ** Case-insensitive matching, as the design document words it *)

Definition same_ignoring_case (x y : string) : Prop :=
  toLowerCase x = toLowerCase y.

(** [s] contains [p] under case-insensitive matching. *)
Definition contains_ignoring_case (s p : string) : Prop :=
  exists a m b, s = a ++ m ++ b /\ same_ignoring_case m p.

(** [s] contains [p]. *)
Definition contains (s p : string) : Prop := exists a b, s = a ++ p ++ b.

(** [s] contains a stretch that [toUpperCase] turns into [p]. *)
Definition contains_upper_cased (s p : string) : Prop :=
  exists a m b, s = a ++ m ++ b /\ toUpperCase m = p.

(** The search client returns no more results than the [top] it is asked
    for. *)
Definition honours_top (env : Env) : Prop :=
  forall h query options found,
    searchClient_search env h query options = Ok found ->
    List.length found <= client_top options.

(** [uuidv4] never hands out the same identifier twice. *)
Definition unique_ids (env : Env) : Prop :=
  forall i j, uuid_seq env i = uuid_seq env j -> i = j.

(** The completion service fails on every call. *)
Definition completion_always_fails (env : Env) : Prop :=
  forall h request options,
    exists error, chat_completions_create env h request options = Throw error.

(** ** The same code as a tree of effects

    A computation of [M] runs alone.  To let two computations take turns,
    as the two strategies do when a caller starts both before it awaits
    either (for instance with [Promise.all]), the code is written a second
    time as a tree: a computation that has not finished is about to perform
    one effect, and goes on from the history at which that effect takes
    place.  [exec] runs a tree alone. *)

Module Steps.

Inductive Run (A : Type) : Type :=
| Done (o : Outcome A)
| Await (e : Event) (k : History -> Run A).
Arguments Done {A} o.
Arguments Await {A} e k.

Definition ret {A : Type} (a : A) : Run A := Done (Ok a).

Definition throw {A : Type} (msg : string) : Run A := Done (Throw msg).

Fixpoint bind {A B : Type} (c : Run A) (f : A -> Run B) : Run B :=
  match c with
  | Done (Ok a) => f a
  | Done (Throw msg) => Done (Throw msg)
  | Await e k => Await e (fun h => bind (k h) f)
  end.

(** [try { c } catch (error) { handler(error.message) }] *)
Fixpoint try_catch {A : Type} (c : Run A) (handler : string -> Run A) : Run A :=
  match c with
  | Done (Ok a) => Done (Ok a)
  | Done (Throw msg) => handler msg
  | Await e k => Await e (fun h => try_catch (k h) handler)
  end.

(** An external call: it is logged, and answers from the history before it. *)
Definition perform {A : Type} (e : Event) (answer : History -> Outcome A) : Run A :=
  Await e (fun h => Done (answer h)).

(** Running alone: each effect takes place right after the one before. *)
Fixpoint exec {A : Type} (c : Run A) (h : History) : Outcome A * History :=
  match c with
  | Done o => (o, h)
  | Await e k => exec (k h) (e :: h)
  end.

(** Two computations started one after the other and awaited together.
    [interleaved a b h oa ob h']: from history [h], [a] and [b] take turns,
    one effect at a time in any order, until both have finished, [a] with
    [oa] and [b] with [ob], at history [h'].  JavaScript switches between
    them only where one of them awaits; every such schedule is among
    these. *)
Inductive interleaved {A B : Type} :
    Run A -> Run B -> History -> Outcome A -> Outcome B -> History -> Prop :=
| both_done oa ob h : interleaved (Done oa) (Done ob) h oa ob h
| left_step e k b h oa ob h' :
    interleaved (k h) b (e :: h) oa ob h' ->
    interleaved (Await e k) b h oa ob h'
| right_step a e k h oa ob h' :
    interleaved a (k h) (e :: h) oa ob h' ->
    interleaved a (Await e k) h oa ob h'.

(** One way of taking turns: [turns] says, effect after effect, which of
    the two performs its next one, [true] for [a]. *)
Fixpoint scheduled {A B : Type} (turns : list bool) (a : Run A) (b : Run B)
    (h : History) : option (Outcome A * Outcome B * History) :=
  match turns with
  | [] =>
      match a, b with
      | Done oa, Done ob => Some (oa, ob, h)
      | _, _ => None
      end
  | true :: turns' =>
      match a with
      | Await e k => scheduled turns' (k h) b (e :: h)
      | Done _ => None
      end
  | false :: turns' =>
      match b with
      | Await e k => scheduled turns' a (k h) (e :: h)
      | Done _ => None
      end
  end.

(** [always c drawn Q]: whatever the histories at which the effects of [c]
    take place, [Q] holds of its outcome and of the positions, in the
    sequence of [uuidv4], of the identifiers drawn: those in [drawn] and
    those [c] draws. *)
Fixpoint always {A : Type} (c : Run A) (drawn : list nat)
    (Q : Outcome A -> list nat -> Prop) : Prop :=
  match c with
  | Done o => Q o drawn
  | Await e k =>
      forall h, always (k h) (if is_uuid e then uuid_count h :: drawn else drawn) Q
  end.

Declare Scope steps_scope.
Delimit Scope steps_scope with steps.
Notation "x <- c ;; k" := (bind c (fun x => k))
  (at level 100, c at next level, right associativity) : steps_scope.
Local Open Scope steps_scope.

Section Agent.

Variable env : Env.

Definition now : Run Z := perform EvNow (fun h => Ok (Date_now env h)).

(** [new Date().toISOString()] *)
Definition new_Date_toISOString : Run string :=
  t <- now ;; ret (toISOString env t).

Definition uuidv4 : Run string :=
  perform EvUuid (fun h => Ok (uuid_seq env (uuid_count h))).

Definition generateCompletion
    (messages : list ChatMessage) (options : CompletionOptions) : Run string :=
  try_catch
    (response <- perform (EvCompletion messages options)
                   (fun h => chat_completions_create env h messages options) ;;
     ret (match response with
          | Some (String c s) => String c s
          | _ => "No response generated"
          end))
    (fun error => throw ("Completion generation failed: " ++ error)).

Definition searchDocuments (query : string) (options : SearchOptions) :
    Run SearchResponse :=
  try_catch
    (let searchOptions :=
       {| client_top := top options;
          client_queryType := queryType options;
          semanticConfiguration :=
            if String.eqb (queryType options) "semantic" then Some "default"
            else None |} in
     found <- perform (EvSearch query options)
                (fun h => searchClient_search env h query searchOptions) ;;
     ret {| results := found; count := List.length found |})
    (fun error => throw ("Document search failed: " ++ error)).

(** Helper to add execution steps *)
Definition _addStep (state : AgenticRAGState) (name : string)
    (info : list (string * JsVal)) : Run (list Step) :=
  time <- new_Date_toISOString ;;
  ret [ {| step := name; timestamp := time; details := info |} ].

(** Agent analysis node *)
Definition _agentNode (state : AgenticRAGState) : Run Update :=
  executionSteps <- _addStep state "agent_analysis"
                      [("userQuery", JStr (userQuery state))] ;;
  try_catch
    (decision <- generateCompletion
                   [ {| role := "user"; content := analysisPrompt (userQuery state) |} ]
                   {| temperature := 1 # 10; maxTokens := 10 |} ;;
     let needsRetrieval := includes (toUpperCase (trim decision)) "RETRIEVE" in
     ret [ needsRAG_ needsRetrieval;
           searchQuery_ (if needsRetrieval then userQuery state else "");
           executionSteps_ executionSteps;
           messages_ [HumanMessage (userQuery state)] ])
    (fun error =>
     ret [ needsRAG_ false;
           executionSteps_ executionSteps;
           messages_ [HumanMessage (userQuery state)] ]).

(** Retrieval node *)
Definition _retrieveNode (state : AgenticRAGState) : Run Update :=
  executionSteps <- _addStep state "retrieval"
                      [("searchQuery", JStr (searchQuery state));
                       ("retryCount", JNum (inject_Z (retryCount state)))] ;;
  try_catch
    (searchResults <- searchDocuments (searchQuery state)
                        {| top := 5; queryType := "semantic" |} ;;
     let retrievedDocs :=
       map (fun result =>
              {| rd_content := content_or_json env (document result);
                 score := result_score result;
                 metadata := document result |})
           (results searchResults) in
     ret [ retrievedDocs_ retrievedDocs; executionSteps_ executionSteps ])
    (fun error =>
     ret [ retrievedDocs_ []; executionSteps_ executionSteps ]).

(** Document grading node *)
Definition _gradeDocumentsNode (state : AgenticRAGState) : Run Update :=
  executionSteps <- _addStep state "grade_documents"
                      [("docCount", js_of_nat (List.length (retrievedDocs state)))] ;;
  try_catch
    (if (List.length (retrievedDocs state) =? 0)%nat then
       ret [ ragAccepted_ false;
             rejectionReason_ "No documents retrieved";
             executionSteps_ executionSteps ]
     else
       gradeResult <- generateCompletion
                        [ {| role := "user";
                             content :=
                               gradePrompt env (userQuery state) (retrievedDocs state) |} ]
                        {| temperature := 1 # 10; maxTokens := 5 |} ;;
       let isRelevant := includes (toLowerCase (trim gradeResult)) "yes" in
       ret [ ragAccepted_ isRelevant;
             rejectionReason_ (if isRelevant then "" else "Documents not relevant to query");
             executionSteps_ executionSteps ])
    (fun error =>
     ret [ ragAccepted_ false;
           rejectionReason_ "Error evaluating document relevance";
           executionSteps_ executionSteps ]).

(** Generation node *)
Definition _generateNode (state : AgenticRAGState) : Run Update :=
  executionSteps <- _addStep state "generate"
                      [("ragAccepted", js_of_tri (ragAccepted state));
                       ("docCount", js_of_nat (List.length (retrievedDocs state)))] ;;
  try_catch
    (answer <- generateCompletion
                 [ {| role := "user"; content := generationPrompt state |} ]
                 {| temperature := 7 # 10; maxTokens := 2000 |} ;;
     ret [ finalAnswer_ answer;
           executionSteps_ executionSteps;
           messages_ (messages state ++ [AIMessage answer]) ])
    (fun error =>
     ret [ finalAnswer_ "I apologize, but I encountered an error while generating the response.";
           executionSteps_ executionSteps;
           messages_ (messages state ++ [AIMessage "Error generating response"]) ]).

Definition node_action (n : Node) : AgenticRAGState -> Run Update :=
  match n with
  | agent => _agentNode
  | retrieve => _retrieveNode
  | grade_documents => _gradeDocumentsNode
  | generate => _generateNode
  end.

Definition follow (e : Edge) (state : AgenticRAGState) : Run Target :=
  match e with
  | Direct t => ret t
  | Conditional router path_map =>
      match path_lookup (router state) path_map with
      | Some t => ret t
      | None => throw ("Branch condition returned unknown destination " ++ router state)
      end
  end.

Definition stage (n : Node) (state : AgenticRAGState) : Run AgenticRAGState :=
  update <- node_action n state ;;
  ret (apply_update state update).

Fixpoint run_graph (limit : nat) (n : Node) (state : AgenticRAGState) :
    Run AgenticRAGState :=
  match limit with
  | O => throw recursion_error
  | S limit' =>
      state' <- stage n state ;;
      target <- follow (edge_from n) state' ;;
      match target with
      | END =>
          match limit' with
          | O => throw recursion_error
          | S _ => ret state'
          end
      | To n' => run_graph limit' n' state'
      end
  end.

Definition workflow_invoke (initialState : AgenticRAGState) : Run AgenticRAGState :=
  default_sessionId <- uuidv4 ;;
  run_graph recursionLimit agent initialState.

Definition execute_workflow (type : AgentType) (startTime : Z)
    (query : string) (maxRetries_option : option Z) : Run JsVal :=
  session <- uuidv4 ;;
  result <- workflow_invoke (initialState session query maxRetries_option) ;;
  finished <- now ;;
  stamp <- new_Date_toISOString ;;
  ret (workflow_response type query result (finished - startTime) stamp).

Definition execute_react (startTime : Z) (query : string) : Run JsVal :=
  let request := [ {| role := "user"; content := query |} ] in
  response <- perform (EvReactInvoke request)
                (fun h => reactAgent_invoke env h request) ;;
  match last (map Some response) None with
  | None => throw "Cannot read properties of undefined (reading 'content')"
  | Some finalMessage =>
      let answer := message_content finalMessage in
      session <- uuidv4 ;;
      stamp1 <- new_Date_toISOString ;;
      stamp2 <- new_Date_toISOString ;;
      stamp3 <- new_Date_toISOString ;;
      finished <- now ;;
      stamp <- new_Date_toISOString ;;
      ret (react_response query answer session stamp1 stamp2 stamp3
             (finished - startTime) stamp)
  end.

(** Execute query with agent *)
Definition execute (type : AgentType) (query : string)
    (maxRetries_option : option Z) : Run JsVal :=
  startTime <- now ;;
  try_catch
    (match type with
     | WORKFLOW => execute_workflow type startTime query maxRetries_option
     | REACT => execute_react startTime query
     end)
    (fun error => throw ("Agent execution failed: " ++ error)).

End Agent.

End Steps.

(** ** Concrete services, to run the model on *)

Module Demo.

Fixpoint tally (n : nat) : string :=
  match n with
  | O => "session"
  | S k => String 105 (tally k)
  end.

(** A completion service that always answers [reply]. *)
Definition answering (reply : string)
    (h : History) (messages : list ChatMessage) (options : CompletionOptions) :
    Outcome (option string) :=
  Ok (Some reply).

(** A completion service that is down. *)
Definition unreachable
    (h : History) (messages : list ChatMessage) (options : CompletionOptions) :
    Outcome (option string) :=
  Throw "connect ECONNREFUSED".

Definition guidelines : Document :=
  {| doc_content := Some "Adobe brand guidelines: use the red logo.";
     doc_fields := [("id", "1")] |}.

(** A search index that finds [found] for every query and returns the
    first [top] of them. *)
Definition finding (found : list SearchResult)
    (h : History) (query : string) (options : ClientSearchOptions) :
    Outcome (list SearchResult) :=
  Ok (firstn (client_top options) found).

Definition services
    (chat : History -> list ChatMessage -> CompletionOptions -> Outcome (option string))
    (found : list SearchResult) : Env :=
  {| chat_completions_create := chat;
     searchClient_search := finding found;
     uuid_seq := tally;
     Date_now := fun h => Z.of_nat (List.length h);
     toISOString := fun t => "2025-01-01T00:00:00.000Z";
     JSON_stringify := fun d => "{}";
     Number_toString := fun q => "0.9";
     reactAgent_invoke := fun h messages => Ok [AIMessage "Here is the document."] |}.

Definition hit : SearchResult := {| document := guidelines; result_score := 9 # 10 |}.

(** Every reply is [yes, RETRIEVE]; one document is found. *)
Definition accepting : Env := services (answering "yes, RETRIEVE") [hit].

(** Retrieval is asked for and finds nothing. *)
Definition empty_index : Env := services (answering "RETRIEVE") [].

(** The model answers [GENERATE]. *)
Definition no_retrieval : Env := services (answering "GENERATE") [hit].

(** The completion service fails on every call. *)
Definition down : Env := services unreachable [hit].

(** [retrieve] spelt with the dotless i, U+0131. *)
Definition dotless_retrieve : string := "retr" ++ String 305 "eve".

(** Every reply is [dotless_retrieve]. *)
Definition dotless : Env := services (answering dotless_retrieve) [hit].

Definition query : string := "Generate Adobe's brand guidelines summary".

Definition start : AgenticRAGState := initialState "session" query None.

(** The configuration [k] transitions into the run of [env] on [query],
    invoked at the empty history. *)
Definition after (env : Env) (k : nat) : Config :=
  match advance env k (agent, start, [EvUuid]) with
  | Some c => c
  | None => (agent, start, [EvUuid])
  end.

(** The two strategies started together on [query], as [Promise.all] over
    the two calls of [execute] runs them: the workflow goes on until it
    awaits its analysis, the React strategy until it awaits its loop, the
    workflow until it awaits its search, the React strategy to its end, and
    then the workflow to its end. *)
Definition turns : list bool :=
  repeat true 5 ++ repeat false 2 ++ repeat true 2 ++ repeat false 6 ++ repeat true 6.

Definition compared : option (Outcome JsVal * Outcome JsVal * History) :=
  Steps.scheduled turns
    (Steps.execute accepting WORKFLOW query None)
    (Steps.execute accepting REACT query None) [].

Definition result_of (o : Outcome JsVal) : JsVal :=
  match o with
  | Ok result => result
  | Throw _ => JNull
  end.

Definition workflow_result : JsVal :=
  match compared with
  | Some (o, _, _) => result_of o
  | None => JNull
  end.

Definition react_result : JsVal :=
  match compared with
  | Some (_, o, _) => result_of o
  | None => JNull
  end.

Definition compared_history : History :=
  match compared with
  | Some (_, _, h) => h
  | None => []
  end.

Definition node_of (c : Config) : Node := fst (fst c).
Definition state_of (c : Config) : AgenticRAGState := snd (fst c).
Definition history_of (c : Config) : History := snd c.

End Demo.

(** * The rest of the agent module and of the service layer *)

Definition is_search (e : Event) : bool :=
  match e with EvSearch _ _ => true | _ => false end.

Definition is_completion (e : Event) : bool :=
  match e with EvCompletion _ _ => true | _ => false end.

(** ** The tools of the React agent: [_createTools] *)

(** What a tool function is handed: a string, or an object, of which the
    functions read the fields [query] and [input]. *)
Inductive ToolInput : Type :=
| InputString (s : string)
| InputObject (fields : list (string * string)).

Fixpoint field (k : string) (fields : list (string * string)) : option string :=
  match fields with
  | [] => None
  | (k', v) :: rest => if String.eqb k k' then Some v else field k rest
  end.

Section Tools.

Variable env : Env.

(** [score.toFixed(2)] *)
Variable toFixed2 : Q -> string.

(** [JSON.stringify] of an object handed to a tool *)
Variable stringify_input : list (string * string) -> string.

(** [typeof input === 'string' ? input
      : input.query || input.input || String(input)] *)
Definition search_input (input : ToolInput) : string :=
  match input with
  | InputString s => s
  | InputObject fields =>
      match field "query" fields with
      | Some (String c s) => String c s
      | _ =>
          match field "input" fields with
          | Some (String c s) => String c s
          | _ => "[object Object]"
          end
      end
  end.

(** One entry of the digest the search tool returns. *)
Definition searchDigest (doc : RetrievedDoc) (i : nat) : string :=
  "Document " ++ string_of_nat (i + 1) ++ " (Score: " ++ toFixed2 (score doc) ++ "):"
  ++ nl ++ substring0 1200 (rd_content doc) ++ "...".

(** [func] of the tool [search_documents] *)
Definition search_documents (input : ToolInput) : M string :=
  try_catch
    (let query := search_input input in
     searchResults <- searchDocuments env query {| top := 5; queryType := "semantic" |} ;;
     let retrievedDocs :=
       map (fun result =>
              {| rd_content := content_or_json env (document result);
                 score := result_score result;
                 metadata := document result |})
           (results searchResults) in
     let formattedResults := join (nl ++ nl) (mapi searchDigest retrievedDocs) in
     ret ("Found " ++ string_of_nat (List.length retrievedDocs)
          ++ " relevant documents:" ++ nl ++ nl ++ formattedResults ++ nl ++ nl
          ++ "These documents have been retrieved and will be used for generating a comprehensive response."))
    (fun error => ret ("Error searching documents: " ++ error)).

Definition evaluationPrompt (inputStr : string) : string :=
  "You are evaluating whether retrieved documents contain specific company/brand information that would improve the response.

Query: "
  ++ dq
  ++ inputStr
  ++ dq
  ++ "

Look specifically for:
- Brand guidelines, style guides, or design standards for the mentioned company
- Company-specific design principles or requirements  
- Official documentation or internal processes
- Proprietary knowledge that goes beyond general industry knowledge

Only respond 'yes' if documents contain specific brand/company information.
Respond 'no' if documents are:
- Generic industry advice or best practices
- Unrelated to the specific company mentioned
- General design principles without company specifics

Respond with only: yes or no".

(** The two verdicts of the evaluation tool. *)
Definition verdict_relevant : string :=
  "Documents are relevant and contain specific company/brand information. Use them in your response.".

Definition verdict_not_relevant : string :=
  "Documents are not relevant for this specific company query. Proceed with general knowledge.".

(** [typeof input === 'string' ? input : JSON.stringify(input)] *)
Definition evaluate_input (input : ToolInput) : string :=
  match input with
  | InputString s => s
  | InputObject fields => stringify_input fields
  end.

(** [func] of the tool [evaluate_documents] *)
Definition evaluate_documents (input : ToolInput) : M string :=
  try_catch
    (let inputStr := evaluate_input input in
     evaluation <- generateCompletion env
                     [ {| role := "user"; content := evaluationPrompt inputStr |} ]
                     {| temperature := 1 # 10; maxTokens := 5 |} ;;
     let isRelevant := includes (toLowerCase (trim evaluation)) "yes" in
     ret (if isRelevant then verdict_relevant else verdict_not_relevant))
    (fun error => ret ("Error evaluating documents: " ++ error)).

End Tools.

Arguments evaluationPrompt : simpl never.

(** ** The health check of the service layer *)

(** [{ openai, search, overall }] *)
Record Health : Type := { openai : bool; search : bool; overall : bool }.

(** [healthCheck()].  The completion probe passes [maxTokens] only, so the
    temperature is the default 0.7 of [generateCompletion]; the search
    probe passes [top] only, so the query type is the default [semantic]
    of [searchDocuments]. *)
Definition healthCheck (env : Env) : M Health :=
  openai_ok <- try_catch
                 (reply <- generateCompletion env
                             [ {| role := "user"; content := "Hello" |} ]
                             {| temperature := 7 # 10; maxTokens := 5 |} ;;
                  ret true)
                 (fun error => ret false) ;;
  search_ok <- try_catch
                 (found <- searchDocuments env "test"
                             {| top := 1; queryType := "semantic" |} ;;
                  ret true)
                 (fun error => ret false) ;;
  ret {| openai := openai_ok; search := search_ok;
         overall := openai_ok && search_ok |}.

(** ** The retry fields *)

(** [state] with another value in the channel [maxRetries]. *)
Definition with_maxRetries (m : Z) (s : AgenticRAGState) : AgenticRAGState :=
  {| messages := messages s; sessionId := sessionId s; userQuery := userQuery s;
     needsRAG := needsRAG s; searchQuery := searchQuery s;
     retrievedDocs := retrievedDocs s; ragAccepted := ragAccepted s;
     rejectionReason := rejectionReason s; finalAnswer := finalAnswer s;
     executionSteps := executionSteps s; retryCount := retryCount s;
     maxRetries := m |}.

(** * The routes that call the agents *)

Module Routes.

(** What a handler sends: [res.status(status).json(payload)]. *)
Record Response : Type := { status : nat; payload : JsVal }.

(** [o[k] = v] on the fields of an object. *)
Fixpoint assign (k : string) (v : JsVal) (fields : list (string * JsVal)) :
    list (string * JsVal) :=
  match fields with
  | [] => [(k, v)]
  | (k', v') :: rest =>
      if String.eqb k k' then (k', v) :: rest else (k', v') :: assign k v rest
  end.

Definition set (k : string) (v : JsVal) (o : JsVal) : JsVal :=
  match o with
  | JObj fields => JObj (assign k v fields)
  | _ => o
  end.

Section Handlers.

Variable env : Env.

(** [config.server.environment] *)
Variable environment : string.

(** [error.stack] of the [Error] with the given message *)
Variable stack_of : string -> string.

(** The value of [options.maxRetries] as the workflow state carries it; no
    node reads it. *)
Variable as_integer : JsVal -> Z.

(** Middleware for request validation and logging.  The request body is
    [requestBody]; the middleware answers, or hands on the body with the
    query trimmed. *)
Definition validateQuery (requestBody : JsVal) : M (Response + JsVal) :=
  let reject : M (Response + JsVal) :=
    stamp <- new_Date_toISOString env ;;
    ret (inl {| status := 400;
                payload := JObj
                  [("error", JStr "Invalid request");
                   ("message",
                    JStr "Query parameter is required and must be a non-empty string");
                   ("timestamp", JStr stamp)] |}) in
  match get "query" requestBody with
  | Some (JStr query) =>
      if (String.length (trim query) =? 0)%nat then reject
      else ret (inr (set "query" (JStr (trim query)) requestBody))
  | _ => reject
  end.

(** Error handler middleware.  Every error that reaches it in this module
    is a plain [Error], which has no [statusCode]. *)
Definition handleError (message : string) : M Response :=
  stamp <- new_Date_toISOString env ;;
  let response :=
    [("error", JStr "Request failed");
     ("message",
      JStr match message with
           | EmptyString => "Internal server error"
           | String _ _ => message
           end);
     ("timestamp", JStr stamp)] in
  ret {| status := 500;
         payload := JObj
           (if String.eqb environment "development"
            then (response ++ [("stack", JStr (stack_of message))])%list
            else response) |}.

(** [agent.execute(query, options)] for the [options] of a request body:
    [None] is [undefined].  The workflow branch reads [options.maxRetries]
    inside its [try], after it has drawn the session identifier; the read
    throws on [null]. *)
Definition agent_execute (type : AgentType) (query : string) (options : option JsVal) :
    M JsVal :=
  match type, options with
  | WORKFLOW, Some JNull =>
      startTime <- now env ;;
      session <- uuidv4 env ;;
      throw ("Agent execution failed: "
             ++ "Cannot read properties of null (reading 'maxRetries')")
  | _, Some o => execute env type query (option_map as_integer (get "maxRetries" o))
  | _, None => execute env type query None
  end.

(** Generic query handler *)
Definition handleQuery (type : AgentType) (requestBody : JsVal) : M Response :=
  startTime <- now env ;;
  try_catch
    (match get "query" requestBody with
     | Some (JStr query) =>
         result <- agent_execute type query (get "options" requestBody) ;;
         finished <- now env ;;
         ret {| status := 200; payload := result |}
     | Some JNull => throw "Cannot read properties of null (reading 'substring')"
     | None => throw "Cannot read properties of undefined (reading 'substring')"
     | Some _ => throw "query.substring is not a function"
     end)
    handleError.

(** [router.post('/workflow/query', validateQuery, handleQuery(...))] and
    [router.post('/react/query', validateQuery, handleQuery(...))] *)
Definition post_query (type : AgentType) (requestBody : JsVal) : M Response :=
  checked <- validateQuery requestBody ;;
  match checked with
  | inl response => ret response
  | inr body' => handleQuery type body'
  end.

(** [process.uptime()] *)
Variable uptime : History -> Q.

(** Health check endpoint *)
Definition get_health : M Response :=
  try_catch
    (healthStatus <- healthCheck env ;;
     stamp <- new_Date_toISOString env ;;
     seconds <- (fun h => (Ok (uptime h), h)) ;;
     let response :=
       JObj
         [("status", JStr (if overall healthStatus then "healthy" else "unhealthy"));
          ("services", JObj [("openai", JBool (openai healthStatus));
                             ("search", JBool (search healthStatus));
                             ("overall", JBool (overall healthStatus))]);
          ("environment", JStr environment);
          ("timestamp", JStr stamp);
          ("uptime", JNum seconds)] in
     ret {| status := if overall healthStatus then 200 else 503;
            payload := response |})
    handleError.

End Handlers.

(** A request body carries a usable query: a string that is not blank. *)
Definition has_query (requestBody : JsVal) (query : string) : Prop :=
  get "query" requestBody = Some (JStr query) /\ trim query <> "".

End Routes.

(** * Configuration: [ConfigManager] *)

Module ConfigManager.

(** The files the constructor looks at: the content of each path that
    exists. *)
Definition Files : Type := string -> option string.

Definition existsSync (path : string) (files : Files) : bool :=
  match files path with Some _ => true | None => false end.

Definition writeFileSync (path content : string) (files : Files) : Files :=
  fun p => if String.eqb p path then Some content else files p.

(** [fs.copyFileSync(from, to)], called where [from] exists. *)
Definition copyFileSync (from to : string) (files : Files) : Files :=
  fun p => if String.eqb p to then files from else files p.

Definition minimalEnv : string :=
  "# Server Configuration
PORT=3000
NODE_ENV=development
LOG_LEVEL=info

# Azure OpenAI Configuration (REQUIRED)
AZURE_OPENAI_ENDPOINT=https://your-openai-resource.openai.azure.com
AZURE_OPENAI_API_KEY=your-openai-api-key
AZURE_OPENAI_API_VERSION=2024-06-01
AZURE_OPENAI_DEPLOYMENT=gpt-4-1106-preview

# Azure AI Search Configuration (REQUIRED)
AZURE_SEARCH_ENDPOINT=https://your-search-service.search.windows.net
AZURE_SEARCH_API_KEY=your-search-api-key
AZURE_SEARCH_INDEX_NAME=knowledge-base

# Optional Features
ENABLE_CACHE=false
ENABLE_METRICS=true
MAX_RETRIES=3
".

Definition _createMinimalEnvFile (envPath : string) (files : Files) : Files :=
  writeFileSync envPath minimalEnv files.

Definition _ensureEnvFile (files : Files) : Files :=
  let envPath := ".env" in
  let envExamplePath := "env.example" in
  if negb (existsSync envPath files) then
    if existsSync envExamplePath files then copyFileSync envExamplePath envPath files
    else _createMinimalEnvFile envPath files
  else files.

Record Server : Type :=
  { port : Z; environment : string; logLevel : string; corsOrigin : string }.

Record AzureOpenAI : Type :=
  { openai_endpoint : option string;
    openai_apiKey : option string;
    apiVersion : string;
    deployment : string }.

Record AzureSearch : Type :=
  { search_endpoint : option string;
    search_apiKey : option string;
    indexName : string }.

Record Features : Type :=
  { enableCache : bool; enableMetrics : bool; maxRetries : Z }.

Record Config : Type :=
  { server : Server;
    openai : AzureOpenAI;
    search : AzureSearch;
    features : Features }.

(** [value || fallback] on a variable of the environment *)
Definition or_else (value : option string) (fallback : string) : string :=
  match value with
  | Some (String c s) => String c s
  | _ => fallback
  end.

(** [!value] on the value of a required field *)
Definition not_set (value : option string) : bool :=
  match value with
  | Some (String _ _) => false
  | _ => true
  end.

Definition is_string (value : option string) (s : string) : bool :=
  match value with
  | Some v => String.eqb v s
  | None => false
  end.

Section Environment.

(** [process.env], as [dotenv.config()] left it when the module was loaded *)
Variable process_env : string -> option string.

(** [parseInt(value) || fallback] *)
Variable parseInt_or : option string -> Z -> Z.

Definition build : Config :=
  {| server :=
       {| port := parseInt_or (process_env "PORT") 3000;
          environment := or_else (process_env "NODE_ENV") "development";
          logLevel := or_else (process_env "LOG_LEVEL") "info";
          corsOrigin := or_else (process_env "CORS_ORIGIN") "*" |};
     openai :=
       {| openai_endpoint := process_env "AZURE_OPENAI_ENDPOINT";
          openai_apiKey := process_env "AZURE_OPENAI_API_KEY";
          apiVersion := or_else (process_env "AZURE_OPENAI_API_VERSION") "2024-06-01";
          deployment :=
            or_else (process_env "AZURE_OPENAI_DEPLOYMENT") "gpt-4-1106-preview" |};
     search :=
       {| search_endpoint := process_env "AZURE_SEARCH_ENDPOINT";
          search_apiKey := process_env "AZURE_SEARCH_API_KEY";
          indexName := or_else (process_env "AZURE_SEARCH_INDEX_NAME") "knowledge-base" |};
     features :=
       {| enableCache := is_string (process_env "ENABLE_CACHE") "true";
          enableMetrics := is_string (process_env "ENABLE_METRICS") "true";
          maxRetries := parseInt_or (process_env "MAX_RETRIES") 3 |} |}.

End Environment.

Definition requiredFields (config : Config) : list (string * option string) :=
  [("AZURE_OPENAI_ENDPOINT", openai_endpoint (openai config));
   ("AZURE_OPENAI_API_KEY", openai_apiKey (openai config));
   ("AZURE_SEARCH_ENDPOINT", search_endpoint (search config));
   ("AZURE_SEARCH_API_KEY", search_apiKey (search config));
   ("AZURE_SEARCH_INDEX_NAME", Some (indexName (search config)))].

(** The test of [requiredFields.filter]. *)
Definition missing (field : string * option string) : bool :=
  not_set (snd field) ||
  match snd field with
  | Some value =>
      includes value "your-" || includes value "placeholder" || String.eqb value ""
  | None => false
  end.

(** A value that passes that test. *)
Definition usable (value : string) : Prop :=
  value <> "" /\ includes value "your-" = false /\ includes value "placeholder" = false.

Definition missingFields (config : Config) : list (string * option string) :=
  filter missing (requiredFields config).

(** [endpoint.startsWith('https://')]; the endpoint is a string wherever
    this is reached. *)
Definition startsWith_https (endpoint : option string) : Outcome bool :=
  match endpoint with
  | Some value => Ok (String.prefix "https://" value)
  | None => Throw "Cannot read properties of undefined (reading 'startsWith')"
  end.

(** [_validateConfig]: returns when it sets [_validated], throws otherwise. *)
Definition _validateConfig (config : Config) : Outcome unit :=
  if (0 <? List.length (missingFields config))%nat then
    let missingNames := map fst (missingFields config) in
    Throw ("Configuration validation failed. "
           ++ "Missing or invalid environment variables: "
           ++ join ", " missingNames ++ nl ++ nl
           ++ "Please edit your .env file with valid Azure credentials.")
  else
    match startsWith_https (openai_endpoint (openai config)) with
    | Throw error => Throw error
    | Ok false => Throw "AZURE_OPENAI_ENDPOINT must be a valid HTTPS URL"
    | Ok true =>
        match startsWith_https (search_endpoint (search config)) with
        | Throw error => Throw error
        | Ok false => Throw "AZURE_SEARCH_ENDPOINT must be a valid HTTPS URL"
        | Ok true => Ok tt
        end
    end.

(** The constructor, through [_initializeConfig]: the files it leaves, and
    the configuration the module exports when the validation passes. *)
Definition _initializeConfig (process_env : string -> option string)
    (parseInt_or : option string -> Z -> Z) (files : Files) :
    Files * Outcome Config :=
  let files' := _ensureEnvFile files in
  let config := build process_env parseInt_or in
  (files',
   match _validateConfig config with
   | Ok _ => Ok config
   | Throw error => Throw error
   end).

End ConfigManager.

(** * Utilities *)

Module Utils.

(** ** [SimpleLogger] *)

(** [this.levels[name]]; [None] where the comparison would see no number. *)
Definition levels (name : string) : option nat :=
  if String.eqb name "error" then Some 0
  else if String.eqb name "warn" then Some 1
  else if String.eqb name "info" then Some 2
  else if String.eqb name "debug" then Some 3
  else None.

Section Logger.

(** [config.server.logLevel] *)
Variable logLevel : string.

(** [this.level] *)
Definition level : string :=
  match logLevel with
  | EmptyString => "info"
  | String _ _ => logLevel
  end.

Definition _shouldLog (name : string) : bool :=
  match levels name, levels level with
  | Some wanted, Some allowed => (wanted <=? allowed)%nat
  | _, _ => false
  end.

End Logger.

(** ** [AppError] and the validation of a query *)

Record AppError : Type :=
  { message : string;
    statusCode : Z;
    isOperational : bool;
    timestamp : string }.

(** [!query]; [None] is [undefined]. *)
Definition falsy (query : option JsVal) : bool :=
  match query with
  | None => true
  | Some JNull => true
  | Some (JBool b) => negb b
  | Some (JNum q) => Qeq_bool q 0
  | Some (JStr s) => String.eqb s ""
  | Some (JArr _) => false
  | Some (JObj _) => false
  end.

Section Validation.

Variable env : Env.

Definition createError (message : string) (statusCode : Z) : M AppError :=
  stamp <- new_Date_toISOString env ;;
  ret {| message := message;
         statusCode := statusCode;
         isOperational := true;
         timestamp := stamp |}.

(** [validateQuery(query)]: [inl] is the [AppError] it throws, [inr] the
    string it returns. *)
Definition validateQuery (query : option JsVal) : M (AppError + string) :=
  if falsy query then
    error <- createError "Query is required" 400 ;; ret (inl error)
  else
    match query with
    | Some (JStr text) =>
        if (String.length (trim text) =? 0)%nat then
          error <- createError "Query cannot be empty" 400 ;; ret (inl error)
        else if (10000 <? Z.of_nat (String.length text))%Z then
          error <- createError "Query too long (max 10000 characters)" 400 ;;
          ret (inl error)
        else ret (inr (trim text))
    | _ => error <- createError "Query must be a string" 400 ;; ret (inl error)
    end.

End Validation.

(** ** String utilities *)

(** [truncateText(text, maxLength)] on a string and an integer *)
Definition truncateText (text : string) (maxLength : Z) : string :=
  if String.eqb text "" || (Z.of_nat (String.length text) <=? maxLength)%Z then text
  else substring0 (Z.to_nat maxLength) text ++ "...".

(** [s.replace(/\s+/g, ' ')]; [inside] says that the character before was
    white space. *)
Fixpoint normalize_from (inside : bool) (s : string) : string :=
  match s with
  | EmptyString => EmptyString
  | String c rest =>
      if is_ws c then
        if inside then normalize_from true rest
        else String 32 (normalize_from true rest)
      else String c (normalize_from false rest)
  end.

Definition normalize_whitespace : string -> string := normalize_from false.

Definition is_angle (c : code_unit) : bool :=
  ((c =? 60) || (c =? 62))%N.

(** [s.replace(/[<>]/g, '')] *)
Fixpoint remove_angles (s : string) : string :=
  match s with
  | EmptyString => EmptyString
  | String c rest =>
      if is_angle c then remove_angles rest else String c (remove_angles rest)
  end.

Definition sanitizeQuery (query : string) : string :=
  remove_angles (normalize_whitespace (trim query)).

End Utils.
(** * Properties *)

(** ** Strings *)

Lemma string_eqb_eq a b : String.eqb a b = true <-> a = b.
Proof.
  revert b. induction a as [|c a IH]; intros [|d b]; cbn [String.eqb];
    try (split; [discriminate | discriminate]); [tauto|].
  rewrite andb_true_iff, N.eqb_eq, IH. split.
  - intros [-> ->]. reflexivity.
  - intros [= -> ->]. auto.
Qed.

Lemma string_eqb_refl a : String.eqb a a = true.
Proof. now apply string_eqb_eq. Qed.

Lemma string_eqb_neq a b : String.eqb a b = false <-> a <> b.
Proof.
  rewrite <- string_eqb_eq. destruct (String.eqb a b); split; congruence.
Qed.

Lemma prefix_iff p s : String.prefix p s = true <-> exists b, s = p ++ b.
Proof.
  revert s. induction p as [|c p IH]; intros s; cbn [String.prefix String.append].
  - split; eauto.
  - destruct s as [|d s].
    + split; [discriminate | intros [b Hb]; discriminate].
    + rewrite andb_true_iff, N.eqb_eq, IH. split.
      * intros [-> [b ->]]. exists b. reflexivity.
      * intros [b [= -> ->]]. eauto.
Qed.

Lemma includes_iff s p : includes s p = true <-> exists a b, s = a ++ p ++ b.
Proof.
  induction s as [|c s IH]; cbn [includes].
  - rewrite orb_false_r, prefix_iff. split.
    + intros [b Hb]. exists "", b. exact Hb.
    + intros [a [b Hb]]. destruct a; simpl in Hb; [eauto | discriminate].
  - rewrite orb_true_iff, prefix_iff, IH. split.
    + intros [[b Hb] | [a [b Hb]]].
      * exists "", b. exact Hb.
      * exists (String c a), b. simpl. congruence.
    + intros [a [b Hb]]. destruct a as [|d a]; simpl in Hb.
      * left. eauto.
      * right. exists a, b. congruence.
Qed.

Lemma append_assoc (a b c : string) : (a ++ b) ++ c = a ++ (b ++ c).
Proof. induction a as [|x a IH]; simpl; [reflexivity | now rewrite IH]. Qed.

Lemma append_nil_r (a : string) : a ++ "" = a.
Proof. induction a as [|x a IH]; simpl; [reflexivity | now rewrite IH]. Qed.

Lemma umap_app f a b : umap f (a ++ b) = umap f a ++ umap f b.
Proof.
  induction a as [|x a IH]; simpl; [reflexivity|].
  now rewrite IH, append_assoc.
Qed.

(** Two ways of cutting one text: one cut comes first. *)
Lemma append_eq_append (a b c d : string) :
  a ++ b = c ++ d ->
  (exists e, c = a ++ e /\ b = e ++ d) \/ (exists e, a = c ++ e /\ d = e ++ b).
Proof.
  revert c. induction a as [|x a IH]; intros c H; simpl in H.
  - left. exists c. auto.
  - destruct c as [|y c]; simpl in H.
    + right. exists (String x a). auto.
    + injection H as -> H. destruct (IH _ H) as [(e & -> & ->) | (e & -> & ->)].
      * left. exists e. auto.
      * right. exists e. auto.
Qed.

Lemma append_last_inj (a b : string) x y :
  a ++ String x "" = b ++ String y "" -> a = b /\ x = y.
Proof.
  revert b. induction a as [|c a IH]; intros [|d b] H; simpl in H.
  - injection H as ->. auto.
  - injection H as -> H. destruct b; discriminate.
  - injection H as -> H. destruct a; discriminate.
  - injection H as -> H. destruct (IH _ H) as [-> ->]. auto.
Qed.

Lemma string_last s : s <> "" -> exists a c, s = a ++ String c "".
Proof.
  induction s as [|c s IH]; intros H; [contradiction|].
  destruct s as [|d s].
  - exists "", c. reflexivity.
  - destruct IH as (a & e & Hs); [discriminate|].
    exists (String c a), e. simpl. now rewrite <- Hs.
Qed.

Lemma trimStart_decomp s : exists l, s = l ++ trimStart s.
Proof.
  induction s as [|c s [l IH]]; simpl.
  - exists "". reflexivity.
  - destruct (is_ws c).
    + exists (String c l). simpl. now rewrite <- IH.
    + exists "". reflexivity.
Qed.

Lemma trimEnd_decomp s : exists r, s = trimEnd s ++ r.
Proof.
  induction s as [|c s [r IH]]; simpl.
  - exists "". reflexivity.
  - destruct (trimEnd s) as [|d t] eqn:E.
    + destruct (is_ws c).
      * exists (String c s). reflexivity.
      * exists r. simpl in *. now rewrite <- IH.
    + exists r. simpl in *. now rewrite <- IH.
Qed.

Lemma trim_decomp s : exists l r, s = l ++ trim s ++ r.
Proof.
  destruct (trimStart_decomp s) as [l Hl].
  destruct (trimEnd_decomp (trimStart s)) as [r Hr].
  exists l, r. unfold trim. now rewrite <- Hr.
Qed.

Lemma trimStart_app_keep a c b :
  is_ws c = false -> exists a', trimStart (a ++ String c b) = a' ++ String c b.
Proof.
  intros Hc. induction a as [|x a [a' IH]]; simpl.
  - rewrite Hc. exists "". reflexivity.
  - destruct (is_ws x).
    + exists a'. exact IH.
    + exists (String x a). reflexivity.
Qed.

Lemma trimEnd_app_keep a c b :
  is_ws c = false -> trimEnd (a ++ String c b) = a ++ String c (trimEnd b).
Proof.
  intros Hc. induction a as [|x a IH]; simpl.
  - destruct (trimEnd b); [now rewrite Hc | reflexivity].
  - rewrite IH. destruct a; reflexivity.
Qed.

(** A stretch of the text that begins and ends with characters that are not
    white space survives [trim]. *)
Lemma trim_keeps a d0 m1 m2 d1 b :
  String d0 m1 = m2 ++ String d1 "" ->
  is_ws d0 = false -> is_ws d1 = false ->
  exists a', trim (a ++ String d0 m1 ++ b) = a' ++ String d0 m1 ++ trimEnd b.
Proof.
  intros Hm H0 H1.
  destruct (trimStart_app_keep a d0 (m1 ++ b) H0) as [a' Ha'].
  exists a'. unfold trim.
  change (String d0 m1 ++ b) with (String d0 (m1 ++ b)).
  rewrite Ha'.
  change (String d0 (m1 ++ b)) with (String d0 m1 ++ b).
  change (String d0 m1 ++ trimEnd b) with (String d0 m1 ++ trimEnd b).
  rewrite Hm, (append_assoc m2), <- (append_assoc a').
  change (String d1 "" ++ b) with (String d1 b).
  rewrite (trimEnd_app_keep _ _ _ H1).
  change (String d1 (trimEnd b)) with (String d1 "" ++ trimEnd b).
  now rewrite (append_assoc a'), (append_assoc m2).
Qed.

(** *** Finding a pattern in a case-mapped text *)

Section Matching.

Variable f : code_unit -> string.
Variable c0 : code_unit.
Variable q : string.

(** The first character of the pattern only comes from a character that is
    mapped to it alone. *)
Hypothesis first_alone :
  forall c x z, f c = x ++ String c0 z -> x = "" /\ z = "".

(** The rest of the pattern, found at the start of a mapped text, is the
    image of a start of the text. *)
Hypothesis rest_aligned :
  forall s y, umap f s = q ++ y ->
  exists m b, s = m ++ b /\ umap f m = q /\ umap f b = y.

Lemma umap_find s x y :
  umap f s = x ++ String c0 q ++ y ->
  exists a m b,
    s = a ++ m ++ b /\ umap f a = x /\ umap f m = String c0 q /\ umap f b = y.
Proof.
  revert x. induction s as [|c s IH]; intros x H; cbn [umap] in H.
  - destruct x; discriminate H.
  - apply append_eq_append in H.
    destruct H as [(e & -> & H) | (e & Hc & H)].
    + destruct (IH _ H) as (a & m & b & -> & Ha & Hm & Hb).
      exists (String c a), m, b. cbn [umap]. rewrite Ha. auto.
    + destruct e as [|e0 e].
      * rewrite append_nil_r in Hc. cbn in H. symmetry in H.
        destruct (IH "" H) as (a & m & b & -> & Ha & Hm & Hb).
        exists (String c a), m, b. cbn [umap]. rewrite Ha, append_nil_r. auto.
      * cbn in H. injection H as <- H.
        destruct (first_alone _ _ _ Hc) as [-> ->]. cbn in Hc, H.
        symmetry in H. destruct (rest_aligned _ _ H) as (m & b & -> & Hm & Hb).
        exists "", (String c m), b. cbn [umap String.append].
        rewrite Hc, Hm. auto.
Qed.

(** White space is mapped to itself, and the pattern neither begins nor
    ends with it. *)
Hypothesis ws_fixed : forall c, is_ws c = true -> f c = String c "".
Variable q' : string.
Variable c1 : code_unit.
Hypothesis pattern_end : String c0 q = q' ++ String c1 "".
Hypothesis first_not_ws : is_ws c0 = false.
Hypothesis last_not_ws : is_ws c1 = false.

Lemma includes_umap_trim_of s a m b :
  s = a ++ m ++ b -> umap f m = String c0 q ->
  includes (umap f (trim s)) (String c0 q) = true.
Proof.
  intros -> Hm.
  destruct m as [|d0 m1]; [discriminate Hm|].
  assert (H0 : is_ws d0 = false).
  { destruct (is_ws d0) eqn:E; [|reflexivity].
    cbn [umap] in Hm. rewrite (ws_fixed _ E) in Hm.
    injection Hm as -> _. congruence. }
  destruct (string_last (String d0 m1)) as (m2 & d1 & Hlast); [discriminate|].
  assert (H1 : is_ws d1 = false).
  { destruct (is_ws d1) eqn:E; [|reflexivity].
    rewrite Hlast, umap_app in Hm. cbn [umap] in Hm.
    rewrite (ws_fixed _ E), append_nil_r, pattern_end in Hm.
    apply append_last_inj in Hm. destruct Hm as [_ ->]. congruence. }
  destruct (trim_keeps a d0 m1 m2 d1 b Hlast H0 H1) as [a' ->].
  apply includes_iff. exists (umap f a'), (umap f (trimEnd b)).
  now rewrite !umap_app, Hm.
Qed.

Lemma includes_umap_trim s :
  includes (umap f (trim s)) (String c0 q) = true <->
  exists a m b, s = a ++ m ++ b /\ umap f m = String c0 q.
Proof.
  split.
  - intros H. apply includes_iff in H. destruct H as (x & y & H).
    apply umap_find in H. destruct H as (a & m & b & Ht & _ & Hm & _).
    destruct (trim_decomp s) as (l & r & Hs).
    exists (l ++ a), m, (b ++ r). split; [|exact Hm].
    rewrite Hs, Ht at 1. now rewrite !append_assoc.
  - intros (a & m & b & Hs & Hm). now apply (includes_umap_trim_of s a m b).
Qed.

End Matching.

(** *** The case mappings *)

Ltac to_arithmetic :=
  repeat match goal with
         | H : (_ && _)%bool = true |- _ => apply andb_true_iff in H; destruct H
         | H : (_ || _)%bool = false |- _ => apply orb_false_iff in H; destruct H
         | H : (_ && _)%bool = false |- _ => apply andb_false_iff in H; destruct H
         | H : (_ || _)%bool = true |- _ => apply orb_true_iff in H; destruct H
         | H : (_ <=? _)%N = true |- _ => apply N.leb_le in H
         | H : (_ <=? _)%N = false |- _ => apply N.leb_gt in H
         | H : (_ =? _)%N = true |- _ => apply N.eqb_eq in H
         | H : (_ =? _)%N = false |- _ => apply N.eqb_neq in H
         end.

(** Splits on the cases of a case mapping. *)
Ltac mapping_cases c :=
  unfold upper_unit, lower_unit in *;
  repeat match goal with
         | H : context [if ?b then _ else _] |- _ => destruct b eqn:?
         | |- context [if ?b then _ else _] => destruct b eqn:?
         end;
  to_arithmetic; subst.

(** Reads equations between texts that are written out. *)
Ltac read_text :=
  repeat match goal with
         | H : String _ _ = String _ _ |- _ => inversion H; clear H; subst
         | H : String _ _ = EmptyString |- _ => discriminate H
         | H : EmptyString = String _ _ |- _ => discriminate H
         | H : EmptyString = ?x ++ String _ _ |- _ => destruct x; discriminate H
         | H : String _ _ = ?x ++ String _ _ |- _ =>
             is_var x; destruct x; cbn [String.append] in H
         end.

Lemma upper_unit_not_empty c : upper_unit c <> "".
Proof. mapping_cases c; discriminate. Qed.

Lemma lower_unit_not_empty c : lower_unit c <> "".
Proof. mapping_cases c; discriminate. Qed.

Lemma upper_unit_ws c : is_ws c = true -> upper_unit c = String c "".
Proof.
  intros H. unfold is_ws in H. mapping_cases c;
    try reflexivity; try discriminate; exfalso; lia.
Qed.

Lemma lower_unit_ws c : is_ws c = true -> lower_unit c = String c "".
Proof.
  intros H. unfold is_ws in H. mapping_cases c;
    try reflexivity; try discriminate; exfalso; lia.
Qed.

(** Only [R] and [r] are mapped to a text with [R] in it. *)
Lemma upper_unit_R c x z : upper_unit c = x ++ String 82 z -> x = "" /\ z = "".
Proof.
  intros H. mapping_cases c; read_text; auto; try discriminate; lia.
Qed.

(** Only [Y] and [y] are mapped to a text with [y] in it. *)
Lemma lower_unit_y c x z : lower_unit c = x ++ String 121 z -> x = "" /\ z = "".
Proof.
  intros H. mapping_cases c; read_text; auto; try discriminate; lia.
Qed.

(** The first character of a mapped text is the first character of the
    image of the first character. *)
Lemma umap_cons_inv f s u t :
  (forall c, f c <> "") ->
  umap f s = String u t ->
  exists c s' r, s = String c s' /\ f c = String u r /\ t = r ++ umap f s'.
Proof.
  intros Hne H. destruct s as [|c s]; [discriminate H|].
  cbn [umap] in H. destruct (f c) as [|v r] eqn:E; [now apply Hne in E|].
  cbn in H. injection H as -> <-. exists c, s, r. auto.
Qed.

(** What is mapped to a text that starts with a letter of [RETRIEVE]. *)
Lemma upper_unit_head c u r :
  upper_unit c = String u r ->
  (u = 82 \/ u = 69 \/ u = 73 \/ u = 86)%N -> r = "".
Proof.
  intros H Hu. mapping_cases c; read_text; auto; exfalso; lia.
Qed.

Lemma upper_unit_T c r :
  upper_unit c = String 84 r -> r = "" \/ r = String 776 "".
Proof.
  intros H. mapping_cases c; read_text; auto; exfalso; lia.
Qed.

(** What is mapped to a text that starts with a letter of [yes] or of
    [retrieve]. *)
Lemma lower_unit_head c u r :
  lower_unit c = String u r ->
  (u = 121 \/ u = 101 \/ u = 115 \/ u = 114 \/ u = 116 \/ u = 118)%N ->
  r = "" /\ upper_unit c = String (u - 32) "".
Proof.
  intros H Hu. mapping_cases c; read_text; auto; try (exfalso; lia);
    split; try reflexivity; f_equal; lia.
Qed.

Lemma lower_unit_i c r :
  lower_unit c = String 105 r ->
  (r = "" /\ upper_unit c = "I") \/ r = String 775 "".
Proof.
  intros H. mapping_cases c; read_text; auto; try (exfalso; lia);
    left; split; try reflexivity; f_equal; lia.
Qed.

(** The rest of [yes] at the start of a lower-cased text. *)
Lemma lower_es_aligned s y :
  toLowerCase s = "es" ++ y ->
  exists m b, s = m ++ b /\ toLowerCase m = "es" /\ toLowerCase b = y.
Proof.
  unfold toLowerCase. intros H.
  apply umap_cons_inv in H; [|exact lower_unit_not_empty].
  destruct H as (c1 & s1 & r1 & -> & H1 & H).
  destruct (lower_unit_head _ _ _ H1) as [-> _]; [auto 10|]. cbn in H.
  symmetry in H. apply umap_cons_inv in H; [|exact lower_unit_not_empty].
  destruct H as (c2 & s2 & r2 & -> & H2 & H).
  destruct (lower_unit_head _ _ _ H2) as [-> _]; [auto 10|]. cbn in H.
  exists (String c1 (String c2 "")), s2. cbn [umap String.append].
  rewrite H1, H2. auto.
Qed.

(** The rest of [RETRIEVE] at the start of an upper-cased text. *)
Lemma upper_ETRIEVE_aligned s y :
  toUpperCase s = "ETRIEVE" ++ y ->
  exists m b, s = m ++ b /\ toUpperCase m = "ETRIEVE" /\ toUpperCase b = y.
Proof.
  unfold toUpperCase. intros H.
  apply umap_cons_inv in H; [|exact upper_unit_not_empty].
  destruct H as (c1 & s1 & r1 & -> & H1 & H).
  pose proof (upper_unit_head _ _ _ H1 ltac:(auto 10)) as ->. cbn in H.
  symmetry in H. apply umap_cons_inv in H; [|exact upper_unit_not_empty].
  destruct H as (c2 & s2 & r2 & -> & H2 & H).
  destruct (upper_unit_T _ _ H2) as [-> | ->]; cbn in H;
    [|destruct (umap upper_unit s2); discriminate H].
  symmetry in H. apply umap_cons_inv in H; [|exact upper_unit_not_empty].
  destruct H as (c3 & s3 & r3 & -> & H3 & H).
  pose proof (upper_unit_head _ _ _ H3 ltac:(auto 10)) as ->. cbn in H.
  symmetry in H. apply umap_cons_inv in H; [|exact upper_unit_not_empty].
  destruct H as (c4 & s4 & r4 & -> & H4 & H).
  pose proof (upper_unit_head _ _ _ H4 ltac:(auto 10)) as ->. cbn in H.
  symmetry in H. apply umap_cons_inv in H; [|exact upper_unit_not_empty].
  destruct H as (c5 & s5 & r5 & -> & H5 & H).
  pose proof (upper_unit_head _ _ _ H5 ltac:(auto 10)) as ->. cbn in H.
  symmetry in H. apply umap_cons_inv in H; [|exact upper_unit_not_empty].
  destruct H as (c6 & s6 & r6 & -> & H6 & H).
  pose proof (upper_unit_head _ _ _ H6 ltac:(auto 10)) as ->. cbn in H.
  symmetry in H. apply umap_cons_inv in H; [|exact upper_unit_not_empty].
  destruct H as (c7 & s7 & r7 & -> & H7 & H).
  pose proof (upper_unit_head _ _ _ H7 ltac:(auto 10)) as ->. cbn in H.
  exists (String c1 (String c2 (String c3 (String c4 (String c5
            (String c6 (String c7 ""))))))), s7.
  cbn [umap String.append]. rewrite H1, H2, H3, H4, H5, H6, H7. auto.
Qed.

(** A text that lower-cases to [retrieve] has eight characters and
    upper-cases to [RETRIEVE]. *)
Lemma lower_retrieve_upper m :
  toLowerCase m = "retrieve" ->
  toUpperCase m = "RETRIEVE" /\ String.length m = 8.
Proof.
  unfold toLowerCase, toUpperCase. intros H.
  apply umap_cons_inv in H; [|exact lower_unit_not_empty].
  destruct H as (c1 & s1 & r1 & -> & H1 & H).
  destruct (lower_unit_head _ _ _ H1) as [-> U1]; [auto 10|]. cbn in H.
  symmetry in H. apply umap_cons_inv in H; [|exact lower_unit_not_empty].
  destruct H as (c2 & s2 & r2 & -> & H2 & H).
  destruct (lower_unit_head _ _ _ H2) as [-> U2]; [auto 10|]. cbn in H.
  symmetry in H. apply umap_cons_inv in H; [|exact lower_unit_not_empty].
  destruct H as (c3 & s3 & r3 & -> & H3 & H).
  destruct (lower_unit_head _ _ _ H3) as [-> U3]; [auto 10|]. cbn in H.
  symmetry in H. apply umap_cons_inv in H; [|exact lower_unit_not_empty].
  destruct H as (c4 & s4 & r4 & -> & H4 & H).
  destruct (lower_unit_head _ _ _ H4) as [-> U4]; [auto 10|]. cbn in H.
  symmetry in H. apply umap_cons_inv in H; [|exact lower_unit_not_empty].
  destruct H as (c5 & s5 & r5 & -> & H5 & H).
  destruct (lower_unit_i _ _ H5) as [[-> U5] | ->]; cbn in H;
    [|destruct (umap lower_unit s5); discriminate H].
  symmetry in H. apply umap_cons_inv in H; [|exact lower_unit_not_empty].
  destruct H as (c6 & s6 & r6 & -> & H6 & H).
  destruct (lower_unit_head _ _ _ H6) as [-> U6]; [auto 10|]. cbn in H.
  symmetry in H. apply umap_cons_inv in H; [|exact lower_unit_not_empty].
  destruct H as (c7 & s7 & r7 & -> & H7 & H).
  destruct (lower_unit_head _ _ _ H7) as [-> U7]; [auto 10|]. cbn in H.
  symmetry in H. apply umap_cons_inv in H; [|exact lower_unit_not_empty].
  destruct H as (c8 & s8 & r8 & -> & H8 & H).
  destruct (lower_unit_head _ _ _ H8) as [-> U8]; [auto 10|]. cbn in H.
  destruct s8 as [|c9 s9]; cbn [umap] in H;
    [|destruct (lower_unit c9) eqn:E9; [now apply lower_unit_not_empty in E9
                                        | discriminate H]].
  cbn [umap]. rewrite U1, U2, U3, U4, U5, U6, U7, U8. split; reflexivity.
Qed.

(** The test of the analysis node: the trimmed, upper-cased reply includes
    [RETRIEVE] exactly when a stretch of the reply upper-cases to it. *)
Lemma includes_RETRIEVE s :
  includes (toUpperCase (trim s)) "RETRIEVE" = true <->
  contains_upper_cased s "RETRIEVE".
Proof.
  unfold contains_upper_cased.
  apply (includes_umap_trim upper_unit 82%N "ETRIEVE"
           upper_unit_R upper_ETRIEVE_aligned
           upper_unit_ws "RETRIEV" 69%N); reflexivity.
Qed.

(** Containing [RETRIEVE] in any letter case is enough for it. *)
Lemma includes_RETRIEVE_of s :
  contains_ignoring_case s "RETRIEVE" ->
  includes (toUpperCase (trim s)) "RETRIEVE" = true.
Proof.
  intros (a & m & b & Hs & Hm). apply includes_RETRIEVE.
  exists a, m, b. split; [exact Hs|]. now apply lower_retrieve_upper.
Qed.

(** The dotless spelling does not contain [RETRIEVE] in any letter case. *)
Lemma dotless_is_not_RETRIEVE :
  ~ contains_ignoring_case Demo.dotless_retrieve "RETRIEVE".
Proof.
  intros (a & m & b & Hs & Hm).
  pose proof Hm as Hlen. apply lower_retrieve_upper in Hlen.
  destruct Hlen as [_ Hlen].
  assert (Hl : String.length Demo.dotless_retrieve
               = String.length a + (String.length m + String.length b)).
  { rewrite Hs. clear. induction a as [|c a IH]; cbn [String.append String.length].
    - induction m as [|c m IH]; cbn [String.append String.length]; [reflexivity|].
      now rewrite IH.
    - now rewrite IH. }
  cbn in Hl. rewrite Hlen in Hl.
  destruct a; [|cbn in Hl; lia]. destruct b; [|cbn in Hl; lia].
  cbn [String.append] in Hs. rewrite append_nil_r in Hs. subst m.
  discriminate Hm.
Qed.

(** The test of the grading node is case-insensitive containment. *)
Lemma includes_yes s :
  includes (toLowerCase (trim s)) "yes" = true <->
  contains_ignoring_case s "yes".
Proof.
  unfold contains_ignoring_case, same_ignoring_case.
  apply (includes_umap_trim lower_unit 121%N "es"
           lower_unit_y lower_es_aligned
           lower_unit_ws "ye" 115%N); reflexivity.
Qed.

Lemma contains_app_l s p x : contains s p -> contains (x ++ s) p.
Proof.
  intros (a & b & ->). exists (x ++ a), b. now rewrite append_assoc.
Qed.

Lemma contains_app_r s p y : contains s p -> contains (s ++ y) p.
Proof.
  intros (a & b & ->). exists a, (b ++ y). now rewrite !append_assoc.
Qed.

Lemma contains_refl p : contains p p.
Proof. exists "", "". simpl. now rewrite append_nil_r. Qed.

Lemma length_substring0 n s : String.length (substring0 n s) <= n.
Proof.
  revert s. induction n as [|n IH]; intros [|c s]; simpl; try lia.
  specialize (IH s). lia.
Qed.

Lemma length_append (a b : string) :
  String.length (a ++ b) = String.length a + String.length b.
Proof. induction a as [|c a IH]; simpl; [reflexivity | now rewrite IH]. Qed.

Lemma substring0_prefix n s : exists rest, s = substring0 n s ++ rest.
Proof.
  revert s. induction n as [|n IH]; intros [|c s]; simpl.
  - exists "". reflexivity.
  - exists (String c s). reflexivity.
  - exists "". reflexivity.
  - destruct (IH s) as [rest Hr]. exists rest. now rewrite <- Hr.
Qed.

Lemma length_mapi_from {A B : Type} (f : A -> nat -> B) l i :
  List.length (mapi_from i f l) = List.length l.
Proof.
  revert i. induction l as [|x l IH]; intros i; simpl; [reflexivity|].
  now rewrite IH.
Qed.

Lemma in_mapi_from {A B : Type} (f : A -> nat -> B) l i x :
  In x l -> exists j, In (f x j) (mapi_from i f l).
Proof.
  revert i. induction l as [|y l IH]; intros i H; simpl in *; [contradiction|].
  destruct H as [->|H].
  - exists i. now left.
  - destruct (IH (S i) H) as [j Hj]. exists j. now right.
Qed.

Lemma contains_join sep l x : In x l -> contains (join sep l) x.
Proof.
  induction l as [|y l IH]; intros H; [contradiction|].
  destruct H as [->|H].
  - destruct l as [|z l]; simpl.
    + apply contains_refl.
    + apply contains_app_r, contains_refl.
  - destruct l as [|z l]; [contradiction|].
    change (join sep (y :: z :: l)) with (y ++ sep ++ join sep (z :: l)).
    now apply contains_app_l, contains_app_l, IH.
Qed.

(** ** The service layer *)

Section Stages.

Variable env : Env.

Lemma generateCompletion_run request options h :
  generateCompletion env request options h =
  (reply_of env request options h, EvCompletion request options :: h).
Proof.
  unfold reply_of, generateCompletion, try_catch, bind, perform, ret, throw.
  destruct (chat_completions_create env h request options) as [[[|c s]|]|e];
    reflexivity.
Qed.

Lemma searchDocuments_run query options h :
  searchDocuments env query options h =
  (search_of env query options h, EvSearch query options :: h).
Proof.
  unfold search_of, searchDocuments, try_catch, bind, perform, ret, throw.
  destruct (searchClient_search env h query _); reflexivity.
Qed.

(** A failing completion service makes [generateCompletion] throw. *)
Lemma reply_of_failing request options h :
  completion_always_fails env ->
  exists error, reply_of env request options h = Throw error.
Proof.
  intros Hfail. destruct (Hfail h request options) as [e He].
  unfold reply_of, generateCompletion, try_catch, bind, perform, ret, throw.
  rewrite He. eexists. reflexivity.
Qed.

(** What the search service finds is what the client returned. *)
Lemma search_of_Ok query options h response :
  search_of env query options h = Ok response ->
  exists client_options,
    client_top client_options = top options /\
    searchClient_search env h query client_options = Ok (results response).
Proof.
  unfold search_of, searchDocuments, try_catch, bind, perform, ret, throw.
  set (client_options := Build_ClientSearchOptions _ _ _).
  intros H. exists client_options. split; [reflexivity|].
  destruct (searchClient_search env h query client_options) as [found|e].
  - simpl in H. injection H as <-. reflexivity.
  - discriminate H.
Qed.

(** ** The four stages, one by one *)

Ltac run_stage :=
  unfold stage, node_action, _agentNode, _retrieveNode, _gradeDocumentsNode,
    _generateNode, _addStep, new_Date_toISOString, now, bind, try_catch, perform, ret;
  cbn beta iota.

Lemma stage_agent state h :
  stage env agent state h =
  (Ok (apply_update state
         match reply_of env (analysis_request state) analysis_options (EvNow :: h) with
         | Ok decision =>
             let needsRetrieval := includes (toUpperCase (trim decision)) "RETRIEVE" in
             [ needsRAG_ needsRetrieval;
               searchQuery_ (if needsRetrieval then userQuery state else "");
               executionSteps_ [entry_of env agent state h];
               messages_ [HumanMessage (userQuery state)] ]
         | Throw _ =>
             [ needsRAG_ false;
               executionSteps_ [entry_of env agent state h];
               messages_ [HumanMessage (userQuery state)] ]
         end),
   EvCompletion (analysis_request state) analysis_options :: EvNow :: h).
Proof.
  run_stage. rewrite generateCompletion_run.
  fold (analysis_request state). fold analysis_options.
  destruct (reply_of env _ _ _); reflexivity.
Qed.

Lemma stage_retrieve state h :
  stage env retrieve state h =
  (Ok (apply_update state
         [ retrievedDocs_
             match search_of env (searchQuery state) retrieve_options (EvNow :: h) with
             | Ok searchResults =>
                 map (fun result =>
                        {| rd_content := content_or_json env (document result);
                           score := result_score result;
                           metadata := document result |})
                     (results searchResults)
             | Throw _ => []
             end;
           executionSteps_ [entry_of env retrieve state h] ]),
   EvSearch (searchQuery state) retrieve_options :: EvNow :: h).
Proof.
  run_stage. rewrite searchDocuments_run. fold retrieve_options.
  destruct (search_of env _ _ _); reflexivity.
Qed.

Lemma stage_grade_empty state h :
  retrievedDocs state = [] ->
  stage env grade_documents state h =
  (Ok (apply_update state
         [ ragAccepted_ false;
           rejectionReason_ "No documents retrieved";
           executionSteps_ [entry_of env grade_documents state h] ]),
   EvNow :: h).
Proof.
  intros E.
  assert (Hl : (List.length (retrievedDocs state) =? 0)%nat = true)
    by (rewrite E; reflexivity).
  run_stage. rewrite Hl. reflexivity.
Qed.

Lemma stage_grade_docs state h :
  retrievedDocs state <> [] ->
  stage env grade_documents state h =
  (Ok (apply_update state
         match reply_of env (grade_request env state) grade_options (EvNow :: h) with
         | Ok gradeResult =>
             let isRelevant := includes (toLowerCase (trim gradeResult)) "yes" in
             [ ragAccepted_ isRelevant;
               rejectionReason_
                 (if isRelevant then "" else "Documents not relevant to query");
               executionSteps_ [entry_of env grade_documents state h] ]
         | Throw _ =>
             [ ragAccepted_ false;
               rejectionReason_ "Error evaluating document relevance";
               executionSteps_ [entry_of env grade_documents state h] ]
         end),
   EvCompletion (grade_request env state) grade_options :: EvNow :: h).
Proof.
  intros E.
  assert (Hl : (List.length (retrievedDocs state) =? 0)%nat = false)
    by (destruct (retrievedDocs state); [contradiction | reflexivity]).
  run_stage. rewrite Hl, generateCompletion_run.
  fold (grade_request env state). fold grade_options.
  destruct (reply_of env _ _ _); reflexivity.
Qed.

Lemma stage_generate state h :
  stage env generate state h =
  (Ok (apply_update state
         match reply_of env (generate_request state) generate_options (EvNow :: h) with
         | Ok answer =>
             [ finalAnswer_ answer;
               executionSteps_ [entry_of env generate state h];
               messages_ (messages state ++ [AIMessage answer]) ]
         | Throw _ =>
             [ finalAnswer_ fallback_answer;
               executionSteps_ [entry_of env generate state h];
               messages_ (messages state ++ [AIMessage "Error generating response"]) ]
         end),
   EvCompletion (generate_request state) generate_options :: EvNow :: h).
Proof.
  run_stage. rewrite generateCompletion_run.
  fold (generate_request state). fold generate_options.
  destruct (reply_of env _ _ _); reflexivity.
Qed.

End Stages.

(** ** The graph *)

Section Graph.

Variable env : Env.

Lemma follow_successor n state h :
  follow (edge_from n) state h = (Ok (successor n state), h).
Proof.
  destruct n; cbn [edge_from follow successor]; try reflexivity.
  - unfold _decideToRetrieve. destruct (truthy (needsRAG state)); reflexivity.
  - unfold _gradeDocuments.
    destruct (List.length (retrievedDocs state) =? 0)%nat; [reflexivity|].
    destruct (truthy (ragAccepted state)); reflexivity.
Qed.

Lemma successor_rank n state n' : successor n state = To n' -> rank n' < rank n.
Proof.
  destruct n; cbn [successor]; try destruct (truthy _); intros H;
    try discriminate H; injection H as <-; cbn; lia.
Qed.

Lemma retrievedDocs_dec (state : AgenticRAGState) :
  {retrievedDocs state = []} + {retrievedDocs state <> []}.
Proof. destruct (retrievedDocs state); [left | right]; congruence. Qed.

(** No stage throws. *)
Lemma stage_total n state h : exists state' h', stage env n state h = (Ok state', h').
Proof.
  destruct n.
  - rewrite stage_agent. eauto.
  - rewrite stage_retrieve. eauto.
  - destruct (retrievedDocs_dec state) as [E|E].
    + rewrite stage_grade_empty by exact E. eauto.
    + rewrite stage_grade_docs by exact E. eauto.
  - rewrite stage_generate. eauto.
Qed.

(** Every stage appends its one execution step and leaves the query alone. *)
Lemma stage_appends n state h state' h' :
  stage env n state h = (Ok state', h') ->
  executionSteps state' = (executionSteps state ++ [entry_of env n state h])%list /\
  userQuery state' = userQuery state.
Proof.
  destruct n.
  - rewrite stage_agent. intros H. injection H as <- _.
    destruct (reply_of env _ _ _); split; reflexivity.
  - rewrite stage_retrieve. intros H. injection H as <- _. split; reflexivity.
  - destruct (retrievedDocs_dec state) as [E|E].
    + rewrite stage_grade_empty by exact E. intros H. injection H as <- _.
      split; reflexivity.
    + rewrite stage_grade_docs by exact E. intros H. injection H as <- _.
      destruct (reply_of env _ _ _); split; reflexivity.
  - rewrite stage_generate. intros H. injection H as <- _.
    destruct (reply_of env _ _ _); split; reflexivity.
Qed.

Lemma run_graph_S limit n state h :
  run_graph env (S limit) n state h =
  match stage env n state h with
  | (Ok state', h') =>
      match successor n state' with
      | END =>
          match limit with
          | O => (Throw recursion_error, h')
          | S _ => (Ok state', h')
          end
      | To n' => run_graph env limit n' state' h'
      end
  | (Throw msg, h') => (Throw msg, h')
  end.
Proof.
  cbn [run_graph]. unfold bind at 1.
  destruct (stage env n state h) as [[state'|msg] h']; [|reflexivity].
  unfold bind. rewrite follow_successor.
  destruct (successor n state'); [reflexivity|].
  destruct limit; reflexivity.
Qed.

(** Once the limit exceeds the number of stages that can still run, the run
    no longer depends on it. *)
Lemma run_graph_enough limit limit' n state h :
  rank n + 1 < limit -> rank n + 1 < limit' ->
  run_graph env limit n state h = run_graph env limit' n state h.
Proof.
  revert limit' n state h.
  induction limit as [|limit IH]; intros limit' n state h H H'; [lia|].
  destruct limit' as [|limit']; [lia|].
  rewrite !run_graph_S.
  destruct (stage env n state h) as [[state'|msg] h']; [|reflexivity].
  destruct (successor n state') as [n'|] eqn:E.
  - apply successor_rank in E. apply IH; lia.
  - destruct limit; [lia|]. destruct limit'; [lia|]. reflexivity.
Qed.

Lemma run_graph_total limit n state h :
  rank n + 1 < limit ->
  exists final h', run_graph env limit n state h = (Ok final, h').
Proof.
  revert n state h.
  induction limit as [|limit IH]; intros n state h H; [lia|].
  rewrite run_graph_S.
  destruct (stage_total n state h) as (state' & h' & ->).
  destruct (successor n state') as [n'|] eqn:E.
  - apply successor_rank in E. apply IH; lia.
  - destruct limit; [lia|]. eauto.
Qed.

(** Under any limit the graph run ends, with a state or with the recursion
    error. *)
Lemma run_graph_ends limit n state h :
  (exists final h', run_graph env limit n state h = (Ok final, h')) \/
  (exists h', run_graph env limit n state h = (Throw recursion_error, h')).
Proof.
  revert n state h.
  induction limit as [|limit IH]; intros n state h; [right; eexists; reflexivity|].
  rewrite run_graph_S.
  destruct (stage_total n state h) as (state' & h' & ->).
  destruct (successor n state') as [n'|]; [apply IH|].
  destruct limit; [right | left]; eauto.
Qed.

Lemma transitions_cons k c c' c'' :
  transition env c c' -> transitions env k c' c'' -> transitions env (S k) c c''.
Proof.
  intros H T. induction T as [c'|k c' d d' T IH Hd].
  - eapply transitions_S; [apply transitions_O | exact H].
  - eapply transitions_S; [apply IH; exact H | exact Hd].
Qed.

(** A transition leads to the successor and lowers the rank. *)
Lemma transition_inv n state h n' state' h' :
  transition env (n, state, h) (n', state', h') ->
  stage env n state h = (Ok state', h') /\ successor n state' = To n'.
Proof.
  intros H. inversion H as [? ? ? ? h1 ? ? Hs Hf]; subst.
  rewrite follow_successor in Hf. injection Hf as Hn <-. auto.
Qed.

Lemma transitions_rank k n state h n' state' h' :
  transitions env k (n, state, h) (n', state', h') -> k + rank n' <= rank n.
Proof.
  remember (n, state, h) as c eqn:Ec. remember (n', state', h') as c' eqn:Ec'.
  intros T. revert n' state' h' Ec'.
  induction T as [c|k c d d' T IH Hd]; intros n' state' h' Ec'.
  - subst. injection Ec' as -> _ _. lia.
  - subst. destruct d as [[m sm] hm].
    specialize (IH eq_refl m sm hm eq_refl).
    apply transition_inv in Hd. destruct Hd as [_ Hd].
    apply successor_rank in Hd. lia.
Qed.

(** A run that returns went through the stages up to [generate], which
    produced the returned state. *)
Lemma run_graph_sound limit n state h final h' :
  run_graph env limit n state h = (Ok final, h') ->
  exists sg hg,
    enters env (n, state, h) generate sg hg /\
    stage env generate sg hg = (Ok final, h').
Proof.
  revert n state h.
  induction limit as [|limit IH]; intros n state h H; [discriminate H|].
  rewrite run_graph_S in H.
  destruct (stage env n state h) as [[state'|msg] h1] eqn:Es; [|discriminate H].
  destruct (successor n state') as [n'|] eqn:E.
  - destruct (IH _ _ _ H) as (sg & hg & [k T] & Hg).
    exists sg, hg. split; [|exact Hg].
    exists (S k). eapply transitions_cons; [|exact T].
    econstructor; [exact Es|]. now rewrite follow_successor, E.
  - destruct limit; [discriminate H|]. injection H as <- <-.
    destruct n; cbn [successor] in E; try destruct (truthy _); try discriminate E.
    exists state, h. split; [exists 0; constructor | exact Es].
Qed.

End Graph.

Section Invariants.

Variable env : Env.

Ltac reduce_state :=
  cbn [apply_update fold_left reduce messages sessionId userQuery needsRAG
       searchQuery retrievedDocs ragAccepted rejectionReason finalAnswer
       executionSteps retryCount maxRetries successor truthy] in *.

Ltac names :=
  unfold step_names in *; reduce_state;
  rewrite ?map_app; cbn [map step entry_of stage_name app];
  repeat match goal with H : map step _ = _ |- _ => rewrite H end;
  cbn [app].

Lemma on_entry_transition query n state h n' state' h' :
  on_entry query n state ->
  transition env (n, state, h) (n', state', h') ->
  on_entry query n' state'.
Proof.
  intros [Hq Inv] T. apply transition_inv in T. destruct T as [Hs Hn].
  destruct n.
  - destruct Inv as (H1 & H2 & H3 & H4 & H5 & H6).
    rewrite stage_agent in Hs. injection Hs as <- _.
    destruct (reply_of env _ _ _) as [decision|e].
    + cbv zeta in *.
      destruct (includes (toUpperCase (trim decision)) "RETRIEVE");
        reduce_state; injection Hn as <-; (split; [exact Hq|]).
      * repeat split; auto. names. reflexivity.
      * left. repeat split; auto. names. reflexivity.
    + reduce_state. injection Hn as <-. split; [exact Hq|].
      left. repeat split; auto. names. reflexivity.
  - destruct Inv as (H1 & H2 & H3 & H4 & H5 & H6).
    rewrite stage_retrieve in Hs. injection Hs as <- _.
    reduce_state. injection Hn as <-. split; [exact Hq|].
    repeat split; auto. names. reflexivity.
  - destruct Inv as (H1 & H2 & H4 & H5 & H6).
    destruct (retrievedDocs_dec state) as [E|E].
    + rewrite stage_grade_empty in Hs by exact E. injection Hs as <- _.
      reduce_state. injection Hn as <-. split; [exact Hq|].
      right. repeat split; auto. names. reflexivity.
    + rewrite stage_grade_docs in Hs by exact E. injection Hs as <- _.
      destruct (reply_of env _ _ _) as [gradeResult|e].
      * cbv zeta in *.
        destruct (includes (toLowerCase (trim gradeResult)) "yes");
          reduce_state; injection Hn as <-; (split; [exact Hq|]);
          right; (repeat split; auto); try (names; reflexivity);
          right; split; auto.
      * reduce_state. injection Hn as <-. split; [exact Hq|].
        right. repeat split; auto; try (names; reflexivity).
        right. split; auto.
  - cbn [successor] in Hn. discriminate Hn.
Qed.

Lemma enters_on_entry query state0 h0 n state h :
  on_entry query agent state0 ->
  enters env (agent, state0, h0) n state h ->
  on_entry query n state.
Proof.
  intros H0 [k T].
  remember (agent, state0, h0) as c eqn:Ec. remember (n, state, h) as c' eqn:Ec'.
  revert n state h Ec'.
  induction T as [c|k c d d' T IH Hd]; intros n state h Ec'.
  - subst. injection Ec' as <- <- <-. exact H0.
  - subst. destruct d as [[m sm] hm].
    eapply on_entry_transition; [apply (IH eq_refl m sm hm eq_refl) | exact Hd].
Qed.

Lemma initialState_on_entry session query maxRetries_option :
  on_entry query agent (initialState session query maxRetries_option).
Proof. repeat split. Qed.

(** With a search client that honours [top], no stage ever sees more than
    five documents. *)
Lemma docs_bound_transition n state h n' state' h' :
  honours_top env ->
  List.length (retrievedDocs state) <= 5 ->
  transition env (n, state, h) (n', state', h') ->
  List.length (retrievedDocs state') <= 5.
Proof.
  intros Htop Hb T. apply transition_inv in T. destruct T as [Hs _].
  destruct n.
  - rewrite stage_agent in Hs. injection Hs as <- _.
    destruct (reply_of env _ _ _); exact Hb.
  - rewrite stage_retrieve in Hs. injection Hs as <- _.
    reduce_state.
    destruct (search_of env _ _ _) as [response|e] eqn:E; [|cbn; lia].
    apply search_of_Ok in E. destruct E as (o & Ho & E).
    apply Htop in E. rewrite Ho in E. rewrite length_map. exact E.
  - destruct (retrievedDocs_dec state) as [E|E].
    + rewrite stage_grade_empty in Hs by exact E. injection Hs as <- _. exact Hb.
    + rewrite stage_grade_docs in Hs by exact E. injection Hs as <- _.
      destruct (reply_of env _ _ _); exact Hb.
  - rewrite stage_generate in Hs. injection Hs as <- _.
    destruct (reply_of env _ _ _); exact Hb.
Qed.

Lemma enters_docs_bound c n state h :
  honours_top env ->
  List.length (retrievedDocs (snd (fst c))) <= 5 ->
  enters env c n state h ->
  List.length (retrievedDocs state) <= 5.
Proof.
  intros Htop H0 [k T].
  remember (n, state, h) as c' eqn:Ec'. revert n state h Ec'.
  induction T as [c|k c d d' T IH Hd]; intros n state h Ec'.
  - subst. exact H0.
  - subst. destruct d as [[m sm] hm].
    eapply docs_bound_transition; [exact Htop | | exact Hd].
    apply (IH H0 m sm hm eq_refl).
Qed.

End Invariants.

(** ** Whole runs *)

Section Runs.

Variable env : Env.

(** A run that has entered node [n] goes on as the graph run from [n]. *)
Lemma run_graph_from_entry k n0 state0 h0 n state h limit :
  transitions env k (n0, state0, h0) (n, state, h) ->
  rank n0 + 1 < limit ->
  run_graph env limit n0 state0 h0 = run_graph env (rank n + 2) n state h.
Proof.
  intros T Hl.
  remember (n0, state0, h0) as c eqn:Ec. remember (n, state, h) as c' eqn:Ec'.
  revert n state h Ec'.
  induction T as [c|k c d d' T IH Hd]; intros n state h Ec'.
  - subst. injection Ec' as <- <- <-. apply run_graph_enough; lia.
  - subst. destruct d as [[m sm] hm].
    rewrite (IH eq_refl m sm hm eq_refl).
    replace (rank m + 2) with (S (rank m + 1)) by lia. rewrite run_graph_S.
    apply transition_inv in Hd. destruct Hd as [-> Hn]. rewrite Hn.
    apply successor_rank in Hn. apply run_graph_enough; lia.
Qed.

(** [invoke] draws the default of the session channel, then runs the
    graph. *)
Lemma workflow_invoke_run state h :
  workflow_invoke env state h =
  run_graph env recursionLimit agent state (EvUuid :: h).
Proof. reflexivity. Qed.

Lemma workflow_invoke_from_entry state0 h0 n state h :
  enters env (agent, state0, EvUuid :: h0) n state h ->
  workflow_invoke env state0 h0 = run_graph env (rank n + 2) n state h.
Proof.
  intros [k T]. rewrite workflow_invoke_run.
  apply (run_graph_from_entry k); [exact T | unfold recursionLimit; cbn; lia].
Qed.

Lemma run_graph_generate state h :
  run_graph env 2 generate state h = stage env generate state h.
Proof.
  rewrite run_graph_S.
  destruct (stage env generate state h) as [[state'|msg] h']; reflexivity.
Qed.

(** The generation stage sets the answer, records its step and leaves the
    decisions alone. *)
Lemma stage_generate_keeps state h final h' :
  stage env generate state h = (Ok final, h') ->
  h' = EvCompletion (generate_request state) generate_options :: EvNow :: h /\
  userQuery final = userQuery state /\
  sessionId final = sessionId state /\
  needsRAG final = needsRAG state /\
  searchQuery final = searchQuery state /\
  retrievedDocs final = retrievedDocs state /\
  ragAccepted final = ragAccepted state /\
  rejectionReason final = rejectionReason state /\
  step_names final = (step_names state ++ ["generate"])%list /\
  finalAnswer final =
    match reply_of env (generate_request state) generate_options (EvNow :: h) with
    | Ok answer => answer
    | Throw _ => fallback_answer
    end.
Proof.
  rewrite stage_generate. intros H. injection H as <- <-.
  unfold step_names.
  destruct (reply_of env _ _ _); cbn; rewrite map_app; repeat split; reflexivity.
Qed.

(** The state a run returns is the state with which it entered [generate],
    completed by the generation stage. *)
Lemma final_state session query maxRetries_option h0 final h' :
  workflow_invoke env (initialState session query maxRetries_option) h0 = (Ok final, h') ->
  exists sg hg,
    enters env (agent, initialState session query maxRetries_option, EvUuid :: h0)
      generate sg hg /\
    on_entry query generate sg /\
    stage env generate sg hg = (Ok final, h').
Proof.
  intros H. rewrite workflow_invoke_run in H. apply run_graph_sound in H. destruct H as (sg & hg & He & Hs).
  exists sg, hg. split; [exact He|]. split; [|exact Hs].
  eapply enters_on_entry; [apply initialState_on_entry | exact He].
Qed.

Lemma workflow_invoke_total state h :
  exists final h', workflow_invoke env state h = (Ok final, h').
Proof.
  rewrite workflow_invoke_run. apply run_graph_total.
  unfold recursionLimit. cbn. lia.
Qed.

(** [execute] of the workflow agent returns the response built from the
    final state of the run. *)
Lemma execute_workflow_run query maxRetries_option h :
  exists final h',
    workflow_invoke env
      (initialState (uuid_seq env (uuid_count (EvNow :: h))) query maxRetries_option)
      (EvUuid :: EvNow :: h) = (Ok final, h') /\
    execute env WORKFLOW query maxRetries_option h =
    (Ok (workflow_response WORKFLOW query final
           (Date_now env h' - Date_now env h)
           (toISOString env (Date_now env (EvNow :: h')))),
     EvNow :: EvNow :: h').
Proof.
  destruct (workflow_invoke_total
              (initialState (uuid_seq env (uuid_count (EvNow :: h)))
                 query maxRetries_option)
              (EvUuid :: EvNow :: h)) as (final & h' & H).
  exists final, h'. split; [exact H|].
  unfold execute, execute_workflow, uuidv4, new_Date_toISOString, now,
    bind, try_catch, perform, ret.
  cbn beta iota. rewrite H. reflexivity.
Qed.

End Runs.

Section Staged.

Variable env : Env.

(** The compiled graph runs Analyze, then either Generate alone or Retrieve,
    Grade and Generate. *)
Lemma workflow_invoke_staged state h :
  workflow_invoke env state h = staged_run env state h.
Proof.
  rewrite workflow_invoke_run. unfold recursionLimit, staged_run, bind, uuidv4, perform.
  rewrite run_graph_S.
  destruct (stage env agent state (EvUuid :: h)) as [[s1|msg] h1]; [|reflexivity].
  cbn [successor]. destruct (truthy (needsRAG s1)).
  - rewrite run_graph_S.
    destruct (stage env retrieve s1 h1) as [[s2|msg] h2]; [|reflexivity].
    cbn [successor]. rewrite run_graph_S.
    destruct (stage env grade_documents s2 h2) as [[s3|msg] h3]; [|reflexivity].
    cbn [successor]. rewrite (run_graph_enough env 7 2) by (cbn; lia).
    apply run_graph_generate.
  - rewrite (run_graph_enough env 9 2) by (cbn; lia).
    apply run_graph_generate.
Qed.

End Staged.

Lemma advance_transitions env k c c' :
  advance env k c = Some c' -> transitions env k c c'.
Proof.
  revert c'. induction k as [|k IH]; intros c' H; cbn [advance] in H.
  - injection H as <-. constructor.
  - destruct (advance env k c) as [[[n state] h]|]; [|discriminate H].
    destruct (stage env n state h) as [[state'|msg] h'] eqn:Es; [|discriminate H].
    destruct (follow (edge_from n) state' h') as [[[n'|]|msg] h''] eqn:Ef;
      try discriminate H.
    injection H as <-.
    eapply transitions_S; [apply IH; reflexivity|].
    econstructor; eassumption.
Qed.

(** ** The response of the workflow agent, field by field *)

Section Response.

Variables (type : AgentType) (query : string) (final : AgenticRAGState)
          (executionTimeMs : Z) (stamp : string).

Let response := workflow_response type query final executionTimeMs stamp.

Lemma response_answer : path response ["answer"] = Some (JStr (finalAnswer final)).
Proof. reflexivity. Qed.

Lemma response_sessionId : path response ["sessionId"] = Some (JStr (sessionId final)).
Proof. reflexivity. Qed.

Lemma response_needsRAG :
  path response ["explainability"; "decisionPoints"; "needsRAG"] =
  Some (js_of_tri (needsRAG final)).
Proof. reflexivity. Qed.

Lemma response_ragAccepted :
  path response ["explainability"; "decisionPoints"; "ragAccepted"] =
  Some (js_of_tri (ragAccepted final)).
Proof. reflexivity. Qed.

Lemma response_rejectionReason :
  path response ["explainability"; "rejectionReason"] =
  Some (JStr (rejectionReason final)).
Proof. reflexivity. Qed.

Lemma response_retrievalDetails_null :
  truthy (needsRAG final) = false ->
  path response ["explainability"; "retrievalDetails"] = Some JNull.
Proof.
  intros H. unfold response, workflow_response.
  cbn -[truthy]. now rewrite H.
Qed.

End Response.

(** ** Prompts *)

Lemma contains_trans s p r : contains s p -> contains p r -> contains s r.
Proof.
  intros (a & b & ->) (c & d & ->). exists (a ++ c), (d ++ b).
  now rewrite !append_assoc.
Qed.

Lemma contains_mid a p b : contains (a ++ p ++ b) p.
Proof. exists a, b. reflexivity. Qed.

Lemma gradePrompt_contains_query env query docs :
  contains (gradePrompt env query docs) query.
Proof.
  unfold gradePrompt. apply contains_app_l, contains_app_l.
  apply contains_app_r, contains_refl.
Qed.

Lemma gradeExcerpt_contains env doc i :
  contains (gradeExcerpt env doc i) (substring0 500 (rd_content doc) ++ "...").
Proof.
  unfold gradeExcerpt. do 3 apply contains_app_l.
  exists "", (nl ++ "Score: " ++ Number_toString env (score doc) ++ nl).
  cbn [String.append]. rewrite append_assoc. reflexivity.
Qed.

Lemma gradePrompt_contains_excerpt env query docs doc :
  In doc docs ->
  contains (gradePrompt env query docs) (substring0 500 (rd_content doc) ++ "...").
Proof.
  intros Hin. destruct (in_mapi_from (gradeExcerpt env) docs 0 doc Hin) as [j Hj].
  eapply contains_trans; [|apply (gradeExcerpt_contains env doc j)].
  unfold gradePrompt. do 5 apply contains_app_l. apply contains_app_r.
  now apply contains_join.
Qed.

Lemma contextPrompt_contains_query query docs :
  contains (contextPrompt query docs) query.
Proof.
  unfold contextPrompt. apply contains_app_l, contains_app_r, contains_refl.
Qed.

Lemma contextPrompt_contains_doc query docs doc :
  In doc docs -> contains (contextPrompt query docs) (rd_content doc).
Proof.
  intros Hin. destruct (in_mapi_from contextSource docs 0 doc Hin) as [j Hj].
  eapply contains_trans with (p := contextSource doc j).
  - unfold contextPrompt. do 3 apply contains_app_l. apply contains_app_r.
    now apply contains_join.
  - unfold contextSource. do 3 apply contains_app_l.
    apply contains_app_r, contains_refl.
Qed.

(** The two generation prompts differ from their tenth character on. *)
Lemma contextPrompt_not_general query docs query' note :
  contextPrompt query docs <> generalPrompt query' note.
Proof.
  intros H. apply (f_equal (substring0 10)) in H. discriminate H.
Qed.

Lemma generationPrompt_accepted state :
  ragAccepted state = Some true -> retrievedDocs state <> [] ->
  generationPrompt state = contextPrompt (userQuery state) (retrievedDocs state).
Proof.
  intros Ha Hd. unfold generationPrompt. rewrite Ha.
  destruct (retrievedDocs state); [contradiction | reflexivity].
Qed.

Lemma generationPrompt_rejected state :
  ragAccepted state <> Some true ->
  generationPrompt state =
  generalPrompt (userQuery state)
    match rejectionReason state with
    | String _ _ => rejectionNote (rejectionReason state)
    | EmptyString => ""
    end.
Proof.
  intros Ha. unfold generationPrompt.
  destruct (ragAccepted state) as [[|]|]; try reflexivity. congruence.
Qed.

Lemma generalPrompt_contains_query query note :
  contains (generalPrompt query note) query.
Proof.
  unfold generalPrompt. apply contains_app_l, contains_app_r, contains_refl.
Qed.

Lemma generalPrompt_contains_note query note :
  contains (generalPrompt query note) note.
Proof.
  unfold generalPrompt. do 3 apply contains_app_l.
  apply contains_app_r, contains_refl.
Qed.

Lemma generalPrompt_general query note :
  contains (generalPrompt query note)
    "Answer the following question using your general knowledge.".
Proof.
  unfold generalPrompt. apply contains_app_r.
  apply includes_iff. vm_compute. reflexivity.
Qed.

Lemma contextPrompt_context query docs :
  contains (contextPrompt query docs)
    "Use the following pieces of retrieved context to answer the question.".
Proof.
  unfold contextPrompt. apply contains_app_r.
  apply includes_iff. vm_compute. reflexivity.
Qed.

(** ** Session identifiers *)

Lemma uuid_count_app (k h : History) :
  uuid_count (k ++ h)%list = uuid_count k + uuid_count h.
Proof. unfold uuid_count. now rewrite filter_app, length_app. Qed.

Lemma stage_keeps_session env n state h state' h' :
  stage env n state h = (Ok state', h') ->
  uuid_count h' = uuid_count h /\ sessionId state' = sessionId state.
Proof.
  destruct n.
  - rewrite stage_agent. intros H. injection H as <- <-.
    destruct (reply_of env _ _ _); split; reflexivity.
  - rewrite stage_retrieve. intros H. injection H as <- <-. split; reflexivity.
  - destruct (retrievedDocs_dec state) as [E|E].
    + rewrite stage_grade_empty by exact E. intros H. injection H as <- <-.
      split; reflexivity.
    + rewrite stage_grade_docs by exact E. intros H. injection H as <- <-.
      destruct (reply_of env _ _ _); split; reflexivity.
  - rewrite stage_generate. intros H. injection H as <- <-.
    destruct (reply_of env _ _ _); split; reflexivity.
Qed.

Lemma run_graph_keeps_session env limit n state h final h' :
  run_graph env limit n state h = (Ok final, h') ->
  uuid_count h' = uuid_count h /\ sessionId final = sessionId state.
Proof.
  revert n state h. induction limit as [|limit IH]; intros n state h H;
    [discriminate H|].
  rewrite run_graph_S in H.
  destruct (stage env n state h) as [[state'|msg] h1] eqn:Es; [|discriminate H].
  apply stage_keeps_session in Es. destruct Es as [Eu Ei].
  destruct (successor n state') as [n'|].
  - apply IH in H. destruct H as [Hu Hi]. split; congruence.
  - destruct limit; [discriminate H|]. injection H as <- <-. split; assumption.
Qed.

(** What [execute] of the workflow agent returns, and the identifier it
    draws. *)
Lemma execute_workflow_inv env query maxRetries_option h result h' :
  execute env WORKFLOW query maxRetries_option h = (Ok result, h') ->
  exists final elapsed stamp,
    result = workflow_response WORKFLOW query final elapsed stamp /\
    sessionId final = uuid_seq env (uuid_count h) /\
    uuid_count h' = S (S (uuid_count h)).
Proof.
  destruct (execute_workflow_run env query maxRetries_option h)
    as (final & h1 & Hrun & Hexec).
  rewrite Hexec. intros H. injection H as <- <-.
  rewrite workflow_invoke_run in Hrun.
  apply run_graph_keeps_session in Hrun. destruct Hrun as [Hu Hi].
  eexists. eexists. eexists. split; [reflexivity|].
  split; [exact Hi|]. cbn in *. exact Hu.
Qed.

(** What [execute] of the React agent returns, and the identifier it draws. *)
Lemma execute_react_inv env query maxRetries_option h result h' :
  execute env REACT query maxRetries_option h = (Ok result, h') ->
  exists answer stamp1 stamp2 stamp3 elapsed stamp,
    result = react_response query answer (uuid_seq env (uuid_count h))
               stamp1 stamp2 stamp3 elapsed stamp /\
    uuid_count h' = S (uuid_count h).
Proof.
  unfold execute, execute_react, uuidv4, new_Date_toISOString, now,
    bind, try_catch, perform, ret, throw.
  cbn beta iota.
  destruct (reactAgent_invoke env _ _) as [response|error]; [|discriminate].
  destruct (last (map Some response) None) as [finalMessage|]; [|discriminate].
  intros H. injection H as <- <-.
  do 6 eexists. split; reflexivity.
Qed.

(** ** The concrete services *)

Lemma demo_honours_top chat found : honours_top (Demo.services chat found).
Proof.
  intros h query options found' H. cbn in H. unfold Demo.finding in H.
  injection H as <-. apply firstn_le_length.
Qed.

Lemma tally_injective i j : Demo.tally i = Demo.tally j -> i = j.
Proof.
  revert j. induction i as [|i IH]; intros [|j] H; cbn in H;
    try reflexivity; try discriminate H.
  injection H as H. f_equal. now apply IH.
Qed.

(** ** The tree of effects *)

Lemma exec_bind {A B : Type} (c : Steps.Run A) (f : A -> Steps.Run B) h :
  Steps.exec (Steps.bind c f) h =
  bind (Steps.exec c) (fun a => Steps.exec (f a)) h.
Proof.
  revert h. induction c as [[a|msg]|e k IH]; intros h; unfold bind in *; cbn.
  - reflexivity.
  - reflexivity.
  - apply IH.
Qed.

Lemma exec_try_catch {A : Type} (c : Steps.Run A) handler h :
  Steps.exec (Steps.try_catch c handler) h =
  try_catch (Steps.exec c) (fun msg => Steps.exec (handler msg)) h.
Proof.
  revert h. induction c as [[a|msg]|e k IH]; intros h; unfold try_catch in *; cbn.
  - reflexivity.
  - reflexivity.
  - apply IH.
Qed.

Ltac unfold_code :=
  unfold Steps.execute, Steps.execute_workflow, Steps.execute_react,
    Steps.workflow_invoke, Steps.stage, Steps.node_action, Steps.follow,
    Steps._agentNode, Steps._retrieveNode, Steps._gradeDocumentsNode,
    Steps._generateNode, Steps._addStep, Steps.searchDocuments,
    Steps.generateCompletion, Steps.uuidv4, Steps.new_Date_toISOString,
    Steps.now, Steps.perform, Steps.ret, Steps.throw,
    execute, execute_workflow, execute_react,
    workflow_invoke, stage, node_action, follow,
    _agentNode, _retrieveNode, _gradeDocumentsNode,
    _generateNode, _addStep, searchDocuments,
    generateCompletion, uuidv4, new_Date_toISOString,
    now, perform, ret, throw, bind, try_catch.

Ltac by_cases :=
  repeat (cbn [Steps.exec Steps.bind Steps.try_catch];
          match goal with
          | |- context [match ?x with _ => _ end] => destruct x
          end);
  cbn [Steps.exec Steps.bind Steps.try_catch].

Lemma exec_stage env n state h :
  Steps.exec (Steps.stage env n state) h = stage env n state h.
Proof.
  destruct n; unfold_code;
    by_cases; reflexivity.
Qed.

Lemma exec_follow e state h :
  Steps.exec (Steps.follow e state) h = follow e state h.
Proof. unfold_code. by_cases; reflexivity. Qed.

Lemma exec_run_graph env limit n state h :
  Steps.exec (Steps.run_graph env limit n state) h = run_graph env limit n state h.
Proof.
  revert n state h. induction limit as [|limit IH]; intros n state h;
    [reflexivity|].
  rewrite run_graph_S. cbn [Steps.run_graph].
  rewrite exec_bind. unfold bind. rewrite exec_stage.
  destruct (stage env n state h) as [[state'|msg] h1]; [|reflexivity].
  rewrite exec_bind. unfold bind. rewrite exec_follow, follow_successor.
  destruct (successor n state') as [n'|].
  - apply IH.
  - destruct limit; reflexivity.
Qed.

(** The tree of [execute], run alone, is [execute]. *)
Lemma exec_execute env type query maxRetries_option h :
  Steps.exec (Steps.execute env type query maxRetries_option) h =
  execute env type query maxRetries_option h.
Proof.
  destruct type.
  - unfold Steps.execute, Steps.execute_workflow, Steps.workflow_invoke,
      Steps.uuidv4, Steps.new_Date_toISOString, Steps.now, Steps.perform,
      Steps.ret, Steps.throw,
      execute, execute_workflow, workflow_invoke, uuidv4,
      new_Date_toISOString, now, perform, ret, throw.
    cbn [Steps.exec Steps.bind Steps.try_catch].
    rewrite exec_try_catch. unfold try_catch, bind. cbn beta iota.
    rewrite exec_bind. unfold bind. rewrite exec_run_graph.
    destruct (run_graph env recursionLimit agent _ _) as [[final|msg] h1];
      reflexivity.
  - unfold_code. by_cases; reflexivity.
Qed.

(** ** What holds on every schedule *)

Lemma always_mono {A : Type} (c : Steps.Run A) d (Q Q' : Outcome A -> list nat -> Prop) :
  (forall o d', Q o d' -> Q' o d') ->
  Steps.always c d Q -> Steps.always c d Q'.
Proof.
  intros HQ. revert d. induction c as [o|e k IH]; intros d H; cbn in *.
  - apply HQ, H.
  - intros h. apply IH, H.
Qed.

Lemma always_bind {A B : Type} (c : Steps.Run A) (f : A -> Steps.Run B) d Q :
  Steps.always c d
    (fun o d' =>
       match o with
       | Ok a => Steps.always (f a) d' Q
       | Throw msg => Q (Throw msg) d'
       end) ->
  Steps.always (Steps.bind c f) d Q.
Proof.
  revert d. induction c as [[a|msg]|e k IH]; intros d H; cbn in *.
  - exact H.
  - exact H.
  - intros h. apply IH, H.
Qed.

Lemma always_try_catch {A : Type} (c : Steps.Run A) handler d Q :
  Steps.always c d
    (fun o d' =>
       match o with
       | Ok a => Q (Ok a) d'
       | Throw msg => Steps.always (handler msg) d' Q
       end) ->
  Steps.always (Steps.try_catch c handler) d Q.
Proof.
  revert d. induction c as [[a|msg]|e k IH]; intros d H; cbn in *.
  - exact H.
  - exact H.
  - intros h. apply IH, H.
Qed.

Ltac on_every_schedule :=
  repeat (cbn [Steps.always Steps.bind Steps.try_catch is_uuid];
          match goal with
          | |- forall _ : History, _ => intros ?
          | |- context [match ?x with _ => _ end] => destruct x
          end);
  cbn [Steps.always Steps.bind Steps.try_catch is_uuid].

(** A stage draws no identifier and leaves the session identifier alone, on
    every schedule. *)
Lemma stage_always env n state d :
  Steps.always (Steps.stage env n state) d
    (fun o d' => d' = d /\ forall state', o = Ok state' -> sessionId state' = sessionId state).
Proof.
  destruct n; unfold_code; on_every_schedule;
    (split; [reflexivity|]); intros state' H; try discriminate H;
    injection H as <-; reflexivity.
Qed.

Lemma follow_done e state :
  exists o, Steps.follow e state = Steps.Done o /\
            forall h, follow e state h = (o, h).
Proof.
  unfold Steps.follow, follow, Steps.ret, Steps.throw, ret, throw.
  destruct e as [t|router path_map]; [eexists; split; reflexivity|].
  destruct (path_lookup _ _); eexists; split; reflexivity.
Qed.

Lemma run_graph_always env limit n state d :
  Steps.always (Steps.run_graph env limit n state) d
    (fun o d' => d' = d /\ forall final, o = Ok final -> sessionId final = sessionId state).
Proof.
  revert n state. induction limit as [|limit IH]; intros n state;
    cbn [Steps.run_graph].
  - cbn. split; [reflexivity|discriminate].
  - apply always_bind.
    eapply always_mono; [|apply stage_always].
    intros [state'|msg] d' [-> Hs]; [|split; [reflexivity|discriminate]].
    specialize (Hs state' eq_refl).
    apply always_bind.
    assert (Hf : Steps.follow (edge_from n) state' = Steps.Done (Ok (successor n state'))).
    { destruct (follow_done (edge_from n) state') as (o & -> & Ho).
      specialize (Ho []). rewrite follow_successor in Ho. congruence. }
    rewrite Hf. cbn [Steps.always].
    destruct (successor n state') as [n'|].
    + eapply always_mono; [|apply IH].
      intros o d' [-> H]. split; [reflexivity|].
      intros final E. rewrite (H final E). exact Hs.
    + destruct limit; cbn; (split; [reflexivity|]); intros final E;
        try discriminate E. injection E as <-. exact Hs.
Qed.

(** On every schedule, a result of the workflow strategy is the response
    object of a final state whose session identifier this run drew. *)
Lemma execute_workflow_always env query maxRetries_option :
  Steps.always (Steps.execute env WORKFLOW query maxRetries_option) []
    (fun o d' =>
       forall result, o = Ok result ->
       exists final elapsed stamp i,
         result = workflow_response WORKFLOW query final elapsed stamp /\
         sessionId final = uuid_seq env i /\
         In i d').
Proof.
  unfold Steps.execute, Steps.now, Steps.perform.
  cbn [Steps.always Steps.bind is_uuid]. intros h0.
  apply always_try_catch.
  unfold Steps.execute_workflow, Steps.workflow_invoke, Steps.uuidv4,
    Steps.new_Date_toISOString, Steps.now, Steps.perform, Steps.ret.
  cbn [Steps.always Steps.bind is_uuid]. intros h1 h2.
  apply always_bind.
  eapply always_mono; [|apply run_graph_always].
  intros [final|msg] d' [-> Hs].
  - specialize (Hs final eq_refl). cbn in Hs.
    cbn [Steps.always Steps.bind is_uuid]. intros h3 h4 result E.
    injection E as <-.
    exists final. eexists. eexists. exists (uuid_count h1).
    split; [reflexivity|]. split; [exact Hs|].
    right. left. reflexivity.
  - cbn. intros result E. discriminate E.
Qed.

(** On every schedule, a result of the React strategy is the response
    object with a session identifier this run drew. *)
Lemma execute_react_always env query maxRetries_option :
  Steps.always (Steps.execute env REACT query maxRetries_option) []
    (fun o d' =>
       forall result, o = Ok result ->
       exists answer stamp1 stamp2 stamp3 elapsed stamp i,
         result = react_response query answer (uuid_seq env i)
                    stamp1 stamp2 stamp3 elapsed stamp /\
         In i d').
Proof.
  unfold_code. on_every_schedule; intros result E; try discriminate E.
  injection E as <-.
  do 6 eexists. eexists. split; [reflexivity|]. left. reflexivity.
Qed.

(** ** Two runs that take turns *)

Lemma uuid_count_cons e h :
  uuid_count (e :: h) = if is_uuid e then S (uuid_count h) else uuid_count h.
Proof. unfold uuid_count. cbn. destruct (is_uuid e); reflexivity. Qed.

(** The identifiers two interleaved runs draw are drawn at different
    positions of the sequence of [uuidv4], all of them positions reached
    during the two runs. *)
Lemma interleaved_always {A B : Type} (a : Steps.Run A) (b : Steps.Run B)
    h oa ob h' :
  Steps.interleaved a b h oa ob h' ->
  forall lo da db Qa Qb,
    Steps.always a da Qa ->
    Steps.always b db Qb ->
    lo <= uuid_count h ->
    (forall i, In i da -> lo <= i < uuid_count h) ->
    (forall i, In i db -> lo <= i < uuid_count h) ->
    (forall i, In i da -> In i db -> False) ->
    exists da' db',
      Qa oa da' /\ Qb ob db' /\
      (forall i, In i da' -> lo <= i < uuid_count h') /\
      (forall i, In i db' -> lo <= i < uuid_count h') /\
      (forall i, In i da' -> In i db' -> False).
Proof.
  induction 1 as [oa ob h | e k b h oa ob h' _ IH | a e k h oa ob h' _ IH];
    intros lo da db Qa Qb Ha Hb Hlo Hda Hdb Hd.
  - exists da, db. split; [exact Ha|]. split; [exact Hb|].
    split; [exact Hda|]. split; [exact Hdb|exact Hd].
  - cbn [Steps.always] in Ha. specialize (Ha h).
    apply (IH lo _ db Qa Qb Ha Hb); rewrite ?uuid_count_cons.
    + destruct (is_uuid e); lia.
    + intros i Hi. destruct (is_uuid e).
      * destruct Hi as [<-|Hi]; [lia|]. specialize (Hda i Hi). lia.
      * apply Hda, Hi.
    + intros i Hi. specialize (Hdb i Hi). destruct (is_uuid e); lia.
    + intros i Hi Hi'. destruct (is_uuid e); [|exact (Hd i Hi Hi')].
      destruct Hi as [<-|Hi]; [|exact (Hd i Hi Hi')].
      specialize (Hdb _ Hi'). lia.
  - cbn [Steps.always] in Hb. specialize (Hb h).
    apply (IH lo da _ Qa Qb Ha Hb); rewrite ?uuid_count_cons.
    + destruct (is_uuid e); lia.
    + intros i Hi. specialize (Hda i Hi). destruct (is_uuid e); lia.
    + intros i Hi. destruct (is_uuid e).
      * destruct Hi as [<-|Hi]; [lia|]. specialize (Hdb i Hi). lia.
      * apply Hdb, Hi.
    + intros i Hi Hi'. destruct (is_uuid e); [|exact (Hd i Hi Hi')].
      destruct Hi' as [<-|Hi']; [|exact (Hd i Hi Hi')].
      specialize (Hda _ Hi). lia.
Qed.

(** A run after the other is one way of taking turns. *)
Lemma interleaved_left_first {A B : Type} (a : Steps.Run A) (b : Steps.Run B)
    h oa h1 ob h2 :
  Steps.exec a h = (oa, h1) ->
  Steps.exec b h1 = (ob, h2) ->
  Steps.interleaved a b h oa ob h2.
Proof.
  revert h. induction a as [o|e k IH]; intros h Ea Eb; cbn in Ea.
  - injection Ea as <- <-.
    revert h Eb. induction b as [o'|e k IH]; intros h Eb; cbn in Eb.
    + injection Eb as <- <-. constructor.
    + apply Steps.right_step. apply IH, Eb.
  - apply Steps.left_step. apply (IH h (e :: h) Ea Eb).
Qed.

Lemma interleaved_right_first {A B : Type} (a : Steps.Run A) (b : Steps.Run B)
    h oa h1 ob h2 :
  Steps.exec b h = (ob, h1) ->
  Steps.exec a h1 = (oa, h2) ->
  Steps.interleaved a b h oa ob h2.
Proof.
  revert h. induction b as [o|e k IH]; intros h Eb Ea; cbn in Eb.
  - injection Eb as <- <-.
    revert h Ea. induction a as [o'|e k IH]; intros h Ea; cbn in Ea.
    + injection Ea as <- <-. constructor.
    + apply Steps.left_step. apply IH, Ea.
  - apply Steps.right_step. apply (IH h (e :: h) Eb Ea).
Qed.

(** The two strategies run one after the other, in either order, take
    turns in the sense of [Steps.interleaved]. *)
Lemma workflow_then_react env query maxRetries_option maxRetries_option'
    h o1 h1 o2 h2 :
  execute env WORKFLOW query maxRetries_option h = (o1, h1) ->
  execute env REACT query maxRetries_option' h1 = (o2, h2) ->
  Steps.interleaved
    (Steps.execute env WORKFLOW query maxRetries_option)
    (Steps.execute env REACT query maxRetries_option') h o1 o2 h2.
Proof.
  intros E1 E2. apply (interleaved_left_first _ _ h o1 h1 o2 h2).
  - rewrite exec_execute. exact E1.
  - rewrite exec_execute. exact E2.
Qed.

Lemma react_then_workflow env query maxRetries_option maxRetries_option'
    h o1 h1 o2 h2 :
  execute env REACT query maxRetries_option' h = (o2, h1) ->
  execute env WORKFLOW query maxRetries_option h1 = (o1, h2) ->
  Steps.interleaved
    (Steps.execute env WORKFLOW query maxRetries_option)
    (Steps.execute env REACT query maxRetries_option') h o1 o2 h2.
Proof.
  intros E2 E1. apply (interleaved_right_first _ _ h o1 h1 o2 h2).
  - rewrite exec_execute. exact E2.
  - rewrite exec_execute. exact E1.
Qed.

(** Taking turns is following some schedule. *)
Lemma scheduled_interleaved {A B : Type} turns (a : Steps.Run A) (b : Steps.Run B)
    h oa ob h' :
  Steps.scheduled turns a b h = Some (oa, ob, h') ->
  Steps.interleaved a b h oa ob h'.
Proof.
  revert a b h. induction turns as [|[|] turns IH]; intros a b h H; cbn in H.
  - destruct a as [oa'|]; [|discriminate H].
    destruct b as [ob'|]; [|discriminate H].
    injection H as <- <- <-. constructor.
  - destruct a as [|e k]; [discriminate H|].
    apply Steps.left_step, IH, H.
  - destruct b as [|e k]; [discriminate H|].
    apply Steps.right_step, IH, H.
Qed.

Lemma interleaved_scheduled {A B : Type} (a : Steps.Run A) (b : Steps.Run B)
    h oa ob h' :
  Steps.interleaved a b h oa ob h' ->
  exists turns, Steps.scheduled turns a b h = Some (oa, ob, h').
Proof.
  induction 1 as [oa ob h | e k b h oa ob h' _ [turns IH]
                 | a e k h oa ob h' _ [turns IH]].
  - exists []. reflexivity.
  - exists (true :: turns). exact IH.
  - exists (false :: turns). exact IH.
Qed.

(** * The properties of the design document *)

(** C1, as the code has it.  In every run of the workflow that reaches the
    grading stage with zero retrieved documents, the grading stage sets
    [ragAccepted] to [false] and [rejectionReason] to the text
    [No documents retrieved] (with a capital N), and its only effect is the
    time stamp of its execution step: the completion service is not asked.
    The run then returns a final state with the same verdict, whatever the
    completion service would have answered. *)
Theorem no_documents_rejected env session query maxRetries_option h0 state h :
  enters env (agent, initialState session query maxRetries_option, EvUuid :: h0)
    grade_documents state h ->
  retrievedDocs state = [] ->
  exists graded final,
    stage env grade_documents state h = (Ok graded, EvNow :: h) /\
    ragAccepted graded = Some false /\
    rejectionReason graded = "No documents retrieved" /\
    workflow_invoke env (initialState session query maxRetries_option) h0 =
      (Ok final,
       EvCompletion (generate_request graded) generate_options
         :: EvNow :: EvNow :: h) /\
    retrievedDocs final = [] /\
    ragAccepted final = Some false /\
    rejectionReason final = "No documents retrieved".
Proof.
  intros He E.
  rewrite (workflow_invoke_from_entry env _ _ _ _ _ He). cbn [rank Nat.add].
  rewrite run_graph_S, (stage_grade_empty env state h E).
  cbn [successor]. rewrite run_graph_generate.
  destruct (stage_total env generate
              (apply_update state
                 [ragAccepted_ false; rejectionReason_ "No documents retrieved";
                  executionSteps_ [entry_of env grade_documents state h]])
              (EvNow :: h)) as (final & h' & Hg).
  rewrite Hg.
  apply stage_generate_keeps in Hg.
  destruct Hg as (-> & _ & _ & _ & _ & Hd & Ha & Hr & _).
  eexists. exists final. repeat split; auto.
  rewrite Hd. exact E.
Qed.

(** The run of [Demo.empty_index] reaches the grading stage with no
    document. *)
Lemma no_documents_rejected_witness :
  let c := Demo.after Demo.empty_index 2 in
  Demo.node_of c = grade_documents /\
  retrievedDocs (Demo.state_of c) = [] /\
  exists final h',
    workflow_invoke Demo.empty_index Demo.start [] = (Ok final, h') /\
    ragAccepted final = Some false /\
    rejectionReason final = "No documents retrieved".
Proof.
  split; [reflexivity|]. split; [reflexivity|].
  assert (He : enters Demo.empty_index (agent, Demo.start, [EvUuid]) grade_documents
                 (Demo.state_of (Demo.after Demo.empty_index 2))
                 (Demo.history_of (Demo.after Demo.empty_index 2))).
  { exists 2. apply advance_transitions. vm_compute. reflexivity. }
  destruct (no_documents_rejected Demo.empty_index "session" Demo.query None []
              _ _ He eq_refl)
    as (graded & final & _ & _ & _ & Hrun & _ & Ha & Hr).
  exists final. eexists. split; [exact Hrun|]. split; assumption.
Defined.

(** C1 as claimed fails: a run that retrieves zero documents ends with a
    rejection reason that is not the lower-case text. *)
Lemma rejection_reason_is_capitalised :
  exists state h final h',
    enters Demo.empty_index (agent, Demo.start, [EvUuid]) grade_documents state h /\
    retrievedDocs state = [] /\
    workflow_invoke Demo.empty_index Demo.start [] = (Ok final, h') /\
    rejectionReason final <> "no documents retrieved".
Proof.
  exists (Demo.state_of (Demo.after Demo.empty_index 2)),
         (Demo.history_of (Demo.after Demo.empty_index 2)).
  eexists. eexists. split; [|split; [reflexivity|split]].
  - exists 2. apply advance_transitions. vm_compute. reflexivity.
  - vm_compute. reflexivity.
  - cbn. discriminate.
Qed.

(** C2.  Provided [uuidv4] never repeats an identifier: when the workflow
    strategy and the React strategy are run on the same query at the same
    time, their effects interleaved in any order, and both return, the two
    results are objects with the same keys [sessionId], [query], [answer],
    [explainability], [metadata]; their [metadata] objects have the same
    keys, among them [executionTimeMs], [timestamp] and the strategy name
    [agentType]; the strategy names differ, and so do the session
    identifiers, each being an identifier that [uuidv4] handed out during
    the two runs, at a position of its own.  The two runs made one after
    the other, in either order, are two of these orders, see
    [workflow_then_react] and [react_then_workflow]. *)
Theorem strategies_share_shape env query maxRetries_option maxRetries_option'
    h r1 r2 h' :
  unique_ids env ->
  Steps.interleaved
    (Steps.execute env WORKFLOW query maxRetries_option)
    (Steps.execute env REACT query maxRetries_option')
    h (Ok r1) (Ok r2) h' ->
  keys r1 = ["sessionId"; "query"; "answer"; "explainability"; "metadata"] /\
  keys r2 = keys r1 /\
  path r1 ["query"] = Some (JStr query) /\
  path r2 ["query"] = Some (JStr query) /\
  (exists m1 m2,
     get "metadata" r1 = Some m1 /\ get "metadata" r2 = Some m2 /\
     keys m1 = ["executionTimeMs"; "timestamp"; "workflowVersion"; "agentType"] /\
     keys m2 = keys m1) /\
  path r1 ["metadata"; "agentType"] = Some (JStr "workflow") /\
  path r2 ["metadata"; "agentType"] = Some (JStr "createReactAgent") /\
  path r1 ["metadata"; "agentType"] <> path r2 ["metadata"; "agentType"] /\
  (exists id1 id2 i j,
     path r1 ["sessionId"] = Some (JStr id1) /\
     path r2 ["sessionId"] = Some (JStr id2) /\
     id1 = uuid_seq env i /\
     id2 = uuid_seq env j /\
     uuid_count h <= i < uuid_count h' /\
     uuid_count h <= j < uuid_count h' /\
     i <> j /\
     id1 <> id2).
Proof.
  intros Huniq H.
  destruct (interleaved_always _ _ _ _ _ _ H (uuid_count h) [] [] _ _
              (execute_workflow_always env query maxRetries_option)
              (execute_react_always env query maxRetries_option'))
    as (d1 & d2 & H1 & H2 & Hd1 & Hd2 & Hd);
    [lia | intros i [] | intros i [] | intros i [] |].
  destruct (H1 r1 eq_refl) as (final & e1 & st1 & i & -> & Hid & Hi).
  destruct (H2 r2 eq_refl) as (answer & s1 & s2 & s3 & e2 & st2 & j & -> & Hj).
  repeat (split; [reflexivity|]).
  split; [eexists; eexists; repeat split|].
  repeat (split; [reflexivity|]).
  split; [discriminate|].
  exists (sessionId final), (uuid_seq env j), i, j.
  split; [reflexivity|]. split; [reflexivity|].
  split; [exact Hid|]. split; [reflexivity|].
  split; [exact (Hd1 i Hi)|]. split; [exact (Hd2 j Hj)|].
  assert (Hne : i <> j) by (intros ->; exact (Hd j Hi Hj)).
  split; [exact Hne|].
  rewrite Hid. intros Heq. apply Hne, Huniq, Heq.
Qed.

Lemma strategies_share_shape_witness :
  unique_ids Demo.accepting /\
  Steps.interleaved
    (Steps.execute Demo.accepting WORKFLOW Demo.query None)
    (Steps.execute Demo.accepting REACT Demo.query None)
    [] (Ok Demo.workflow_result) (Ok Demo.react_result) Demo.compared_history /\
  keys Demo.react_result = keys Demo.workflow_result /\
  path Demo.workflow_result ["metadata"; "agentType"] <>
    path Demo.react_result ["metadata"; "agentType"] /\
  path Demo.workflow_result ["sessionId"] <> path Demo.react_result ["sessionId"].
Proof.
  assert (Hu : unique_ids Demo.accepting) by exact tally_injective.
  assert (Hi : Steps.interleaved
                 (Steps.execute Demo.accepting WORKFLOW Demo.query None)
                 (Steps.execute Demo.accepting REACT Demo.query None)
                 [] (Ok Demo.workflow_result) (Ok Demo.react_result)
                 Demo.compared_history).
  { apply (scheduled_interleaved Demo.turns). vm_compute. reflexivity. }
  split; [exact Hu|]. split; [exact Hi|].
  destruct (strategies_share_shape Demo.accepting Demo.query None None
              [] Demo.workflow_result Demo.react_result Demo.compared_history
              Hu Hi)
    as (_ & Hk & _ & _ & _ & _ & _ & Hn & id1 & id2 & i & j
        & Hi1 & Hi2 & _ & _ & _ & _ & _ & Hne).
  split; [exact Hk|]. split; [exact Hn|].
  rewrite Hi1, Hi2. congruence.
Defined.

(** C3.  The workflow never throws, whatever the completion and the search
    service do: [execute] returns a result.  A failed analysis call leaves
    [needsRAG = false] and the run goes to Generate; a failed search leaves
    the document list empty; a failed generation call leaves the fixed
    apology as the answer.  When the completion service fails on every call,
    the result carries that apology and [needsRAG = false]. *)
Theorem workflow_never_throws env query maxRetries_option h :
  (exists result h', execute env WORKFLOW query maxRetries_option h = (Ok result, h')) /\
  (forall state hs error,
     reply_of env (analysis_request state) analysis_options (EvNow :: hs) = Throw error ->
     exists analysed h1,
       stage env agent state hs = (Ok analysed, h1) /\
       needsRAG analysed = Some false /\
       follow (edge_from agent) analysed h1 = (Ok (To generate), h1)) /\
  (forall state hs error,
     search_of env (searchQuery state) retrieve_options (EvNow :: hs) = Throw error ->
     exists retrieved h1,
       stage env retrieve state hs = (Ok retrieved, h1) /\
       retrievedDocs retrieved = []) /\
  (forall state hs error,
     reply_of env (generate_request state) generate_options (EvNow :: hs) = Throw error ->
     exists final h1,
       stage env generate state hs = (Ok final, h1) /\
       finalAnswer final = fallback_answer) /\
  (completion_always_fails env ->
     exists result h',
       execute env WORKFLOW query maxRetries_option h = (Ok result, h') /\
       path result ["answer"] = Some (JStr fallback_answer) /\
       path result ["explainability"; "decisionPoints"; "needsRAG"] =
         Some (JBool false)).
Proof.
  split; [|split; [|split; [|split]]].
  - destruct (execute_workflow_run env query maxRetries_option h)
      as (final & h' & _ & Hexec).
    rewrite Hexec. eauto.
  - intros state hs error E. rewrite stage_agent, E.
    eexists. eexists. split; [reflexivity|]. split; reflexivity.
  - intros state hs error E. rewrite stage_retrieve, E.
    eexists. eexists. split; reflexivity.
  - intros state hs error E. rewrite stage_generate, E.
    eexists. eexists. split; reflexivity.
  - intros Hfail.
    destruct (execute_workflow_run env query maxRetries_option h)
      as (final & h' & Hrun & Hexec).
    rewrite Hexec. eexists. eexists. split; [reflexivity|].
    rewrite response_answer, response_needsRAG.
    rewrite workflow_invoke_staged in Hrun.
    unfold staged_run, bind, uuidv4, perform in Hrun.
    rewrite stage_agent in Hrun.
    destruct (reply_of_failing env (analysis_request
                (initialState (uuid_seq env (uuid_count (EvNow :: h)))
                   query maxRetries_option))
                analysis_options (EvNow :: EvUuid :: EvUuid :: EvNow :: h) Hfail)
      as [e1 E1].
    rewrite E1 in Hrun. cbn [apply_update fold_left reduce needsRAG truthy] in Hrun.
    apply stage_generate_keeps in Hrun.
    destruct Hrun as (_ & _ & _ & Hn & _ & _ & _ & _ & _ & Hans).
    match type of Hans with
    | context [reply_of env ?r ?o ?hh] =>
        destruct (reply_of_failing env r o hh Hfail) as [e2 E2]; rewrite E2 in Hans
    end.
    rewrite Hans, Hn. split; reflexivity.
Qed.

(** With the completion service down, the run returns the apology. *)
Lemma workflow_never_throws_witness :
  completion_always_fails Demo.down /\
  exists result h',
    execute Demo.down WORKFLOW Demo.query None [] = (Ok result, h') /\
    path result ["answer"] = Some (JStr fallback_answer) /\
    path result ["explainability"; "decisionPoints"; "needsRAG"] = Some (JBool false).
Proof.
  assert (Hfail : completion_always_fails Demo.down).
  { intros h request options. eexists. reflexivity. }
  split; [exact Hfail|].
  destruct (workflow_never_throws Demo.down Demo.query None [])
    as (_ & _ & _ & _ & Hdown).
  exact (Hdown Hfail).
Defined.

(** C4.  Every run of the workflow returns, and in its final state
    [ragAccepted = true] implies that documents were retrieved, while
    [needsRAG = false] implies that no document was retrieved and that
    [ragAccepted] is still [null]; the decision summary of the result shows
    these two fields of the final state. *)
Theorem final_state_invariant env query maxRetries_option h :
  exists final h' result,
    workflow_invoke env
      (initialState (uuid_seq env (uuid_count (EvNow :: h))) query maxRetries_option)
      (EvUuid :: EvNow :: h) = (Ok final, h') /\
    fst (execute env WORKFLOW query maxRetries_option h) = Ok result /\
    (ragAccepted final = Some true -> retrievedDocs final <> []) /\
    (needsRAG final = Some false ->
       retrievedDocs final = [] /\ ragAccepted final = None /\
       path result ["explainability"; "decisionPoints"; "ragAccepted"] = Some JNull /\
       path result ["explainability"; "retrievalDetails"] = Some JNull) /\
    (needsRAG final = Some true \/ needsRAG final = Some false) /\
    path result ["explainability"; "decisionPoints"; "needsRAG"] =
      Some (js_of_tri (needsRAG final)) /\
    path result ["explainability"; "decisionPoints"; "ragAccepted"] =
      Some (js_of_tri (ragAccepted final)).
Proof.
  destruct (execute_workflow_run env query maxRetries_option h)
    as (final & h' & Hrun & Hexec).
  exists final, h'. eexists. split; [exact Hrun|].
  rewrite Hexec. split; [reflexivity|].
  rewrite response_needsRAG, response_ragAccepted.
  apply final_state in Hrun. destruct Hrun as (sg & hg & _ & [_ Inv] & Hg).
  apply stage_generate_keeps in Hg.
  destruct Hg as (_ & _ & _ & Hn & _ & Hd & Ha & _).
  rewrite <- Hn, <- Hd, <- Ha in Inv.
  destruct Inv as [(In & _ & Id & Ia & _) | (In & _ & _ & Inv)].
  - split; [rewrite Ia; discriminate|]. split.
    + intros _. rewrite response_retrievalDetails_null by (now rewrite In).
      rewrite Ia. repeat split; auto.
    + repeat split; auto.
  - split; [|split; [rewrite In; discriminate | repeat split; auto]].
    destruct Inv as [(Id & Ia & _) | (Id & _)]; [|intros _; exact Id].
    rewrite Ia. discriminate.
Qed.

(** The invariant on the run in which the model answers [GENERATE]. *)
Lemma final_state_invariant_witness :
  exists final h' result,
    workflow_invoke Demo.no_retrieval
      (initialState (uuid_seq Demo.no_retrieval (uuid_count [EvNow])) Demo.query None)
      [EvUuid; EvNow] = (Ok final, h') /\
    fst (execute Demo.no_retrieval WORKFLOW Demo.query None []) = Ok result /\
    needsRAG final = Some false /\
    retrievedDocs final = [] /\ ragAccepted final = None /\
    path result ["explainability"; "decisionPoints"; "ragAccepted"] = Some JNull.
Proof.
  destruct (final_state_invariant Demo.no_retrieval Demo.query None [])
    as (final & h' & result & Hrun & Hres & _ & Hno & _).
  exists final, h', result.
  assert (Hn : needsRAG final = Some false).
  { vm_compute in Hrun. injection Hrun as <- _. reflexivity. }
  destruct (Hno Hn) as (Hd & Ha & Hp & _).
  repeat split; assumption.
Defined.

(** C5.  Every stage returns and appends exactly one execution step, named
    after the stage, whether or not its service call failed.  A run is
    Analyze followed by Generate alone when retrieval is not triggered, so
    that Retrieve and Grade do not run at all, and is Analyze, Retrieve,
    Grade, Generate when it is; its final [executionSteps] then has exactly
    two, respectively four, entries. *)
Theorem execution_steps_count env session query maxRetries_option h0 :
  let init := initialState session query maxRetries_option in
  (forall n state h,
     exists state' h' entry,
       stage env n state h = (Ok state', h') /\
       executionSteps state' = (executionSteps state ++ [entry])%list /\
       step entry = stage_name n) /\
  workflow_invoke env init h0 = staged_run env init h0 /\
  exists final h',
    workflow_invoke env init h0 = (Ok final, h') /\
    ((needsRAG final = Some true /\
      step_names final =
        ["agent_analysis"; "retrieval"; "grade_documents"; "generate"] /\
      List.length (executionSteps final) = 4)
     \/
     (needsRAG final = Some false /\
      step_names final = ["agent_analysis"; "generate"] /\
      List.length (executionSteps final) = 2)).
Proof.
  intros init. split; [|split].
  - intros n state h.
    destruct (stage_total env n state h) as (state' & h' & Hs).
    exists state', h', (entry_of env n state h). split; [exact Hs|].
    apply stage_appends in Hs. destruct Hs as [Hs _]. split; [exact Hs|reflexivity].
  - apply workflow_invoke_staged.
  - destruct (workflow_invoke_total env init h0) as (final & h' & Hrun).
    exists final, h'. split; [exact Hrun|].
    apply final_state in Hrun. destruct Hrun as (sg & hg & _ & [_ Inv] & Hg).
    apply stage_generate_keeps in Hg.
    destruct Hg as (_ & _ & _ & Hn & _ & _ & _ & _ & Hsteps & _).
    assert (Hlen : List.length (executionSteps final) = List.length (step_names final))
      by (unfold step_names; now rewrite length_map).
    rewrite Hlen, Hsteps, Hn.
    destruct Inv as [(In & _ & _ & _ & _ & Is) | (In & _ & Is & _)];
      rewrite Is; [right | left]; repeat split; assumption.
Qed.

Lemma execution_steps_count_witness :
  exists final h',
    workflow_invoke Demo.accepting Demo.start [] = (Ok final, h') /\
    step_names final = ["agent_analysis"; "retrieval"; "grade_documents"; "generate"].
Proof.
  destruct (execution_steps_count Demo.accepting "session" Demo.query None [])
    as (_ & _ & final & h' & Hrun & Hcases).
  exists final, h'. split; [exact Hrun|].
  destruct Hcases as [(_ & Hs & _) | (Hn & _)]; [exact Hs|].
  exfalso. vm_compute in Hrun. injection Hrun as <- _. discriminate Hn.
Defined.

(** C6, as the code has it.  The analysis stage, run on the initial state,
    always returns.  The workflow goes on to Retrieve exactly when the
    completion call returned a text of which a stretch is turned into
    RETRIEVE by [toUpperCase], and to Generate otherwise (any other text,
    or a failed call).  A text that contains RETRIEVE under
    case-insensitive matching is such a text.  [searchQuery] is the user
    query when retrieval is triggered and the empty string when it is
    not. *)
Theorem analysis_decides_by_RETRIEVE env session query maxRetries_option h0 :
  let init := initialState session query maxRetries_option in
  let h1 := EvCompletion (analysis_request init) analysis_options :: EvNow :: h0 in
  let reply := reply_of env (analysis_request init) analysis_options (EvNow :: h0) in
  let triggered :=
    exists text, reply = Ok text /\ contains_upper_cased text "RETRIEVE" in
  exists analysed,
    stage env agent init h0 = (Ok analysed, h1) /\
    (transition env (agent, init, h0) (retrieve, analysed, h1) <-> triggered) /\
    (transition env (agent, init, h0) (generate, analysed, h1) <-> ~ triggered) /\
    (triggered -> needsRAG analysed = Some true /\ searchQuery analysed = query) /\
    (~ triggered -> needsRAG analysed = Some false /\ searchQuery analysed = "") /\
    (forall text,
       reply = Ok text -> contains_ignoring_case text "RETRIEVE" -> triggered).
Proof.
  intros init h1 reply triggered.
  pose proof (stage_agent env init h0) as Hs. fold reply h1 in Hs.
  assert (Hstep : forall analysed n,
            stage env agent init h0 = (Ok analysed, h1) ->
            (transition env (agent, init, h0) (n, analysed, h1) <->
             successor agent analysed = To n)).
  { intros analysed n Ha. split.
    - intros T. apply transition_inv in T. apply T.
    - intros Hn. econstructor; [exact Ha|]. now rewrite follow_successor, Hn. }
  assert (Hany : forall text,
            reply = Ok text -> contains_ignoring_case text "RETRIEVE" -> triggered).
  { intros text Ht Hc. exists text. split; [exact Ht|].
    now apply includes_RETRIEVE, includes_RETRIEVE_of. }
  destruct reply as [text|error] eqn:Er.
  - cbv zeta in Hs.
    destruct (includes (toUpperCase (trim text)) "RETRIEVE") eqn:Ei.
    + assert (Ht : triggered).
      { exists text. split; [reflexivity|]. now apply includes_RETRIEVE. }
      eexists. split; [exact Hs|].
      rewrite !(Hstep _ _ Hs). cbn.
      repeat split; auto; try discriminate; intros; tauto.
    + assert (Ht : ~ triggered).
      { intros (text' & Ht' & Hc). injection Ht' as <-.
        apply includes_RETRIEVE in Hc. congruence. }
      eexists. split; [exact Hs|].
      rewrite !(Hstep _ _ Hs). cbn.
      repeat split; auto; try discriminate; intros; tauto.
  - assert (Ht : ~ triggered).
    { intros (text' & Ht' & _). discriminate Ht'. }
    eexists. split; [exact Hs|].
    rewrite !(Hstep _ _ Hs). cbn.
    repeat split; auto; try discriminate; intros; tauto.
Qed.

Lemma analysis_decides_by_RETRIEVE_witness :
  exists analysed h1,
    transition Demo.accepting (agent, Demo.start, [EvUuid]) (retrieve, analysed, h1) /\
    needsRAG analysed = Some true /\ searchQuery analysed = Demo.query.
Proof.
  destruct (analysis_decides_by_RETRIEVE Demo.accepting "session" Demo.query None
              [EvUuid])
    as (analysed & _ & Hr & _ & Hq & _ & Hany).
  assert (Ht : exists text,
             reply_of Demo.accepting (analysis_request Demo.start) analysis_options
               [EvNow; EvUuid] = Ok text /\
             contains_upper_cased text "RETRIEVE").
  { apply (Hany "yes, RETRIEVE"); [reflexivity|].
    exists "yes, ", "RETRIEVE", "". split; reflexivity. }
  exists analysed. eexists. split; [apply Hr; exact Ht | apply Hq; exact Ht].
Defined.

(** C6 as claimed fails: the reply [retrieve] spelt with a dotless i does
    not contain RETRIEVE under case-insensitive matching, and the workflow
    goes on to Retrieve all the same, since [toUpperCase] turns the dotless
    i into I. *)
Lemma dotless_i_triggers_retrieval :
  reply_of Demo.dotless (analysis_request Demo.start) analysis_options
    [EvNow; EvUuid] = Ok Demo.dotless_retrieve /\
  ~ contains_ignoring_case Demo.dotless_retrieve "RETRIEVE" /\
  toUpperCase Demo.dotless_retrieve = "RETRIEVE" /\
  exists analysed h1,
    transition Demo.dotless (agent, Demo.start, [EvUuid]) (retrieve, analysed, h1) /\
    needsRAG analysed = Some true.
Proof.
  split; [reflexivity|]. split; [exact dotless_is_not_RETRIEVE|].
  split; [reflexivity|].
  destruct (Demo.after Demo.dotless 1) as [[n analysed] h1] eqn:E.
  exists analysed, h1.
  assert (T : transitions Demo.dotless 1 (agent, Demo.start, [EvUuid])
                (n, analysed, h1)).
  { apply advance_transitions. rewrite <- E. vm_compute. reflexivity. }
  assert (En : n = retrieve /\ needsRAG analysed = Some true).
  { vm_compute in E. injection E as <- <- _. split; reflexivity. }
  destruct En as [-> Hn]. split; [|exact Hn].
  inversion T as [|k c c' c'' T0 T1]; subst.
  inversion T0; subst. exact T1.
Qed.

(** C7.  Provided the search client returns no more than the [top] results
    it is asked for: whenever a run reaches the grading stage with a
    non-empty document list, that stage asks the completion service once,
    with a prompt that contains the query and, for each of the at most five
    documents, the first 500 characters of its content followed by an
    ellipsis; [ragAccepted] becomes [true] exactly when the call returned a
    text that contains "yes" under case-insensitive matching, and [false]
    otherwise. *)
Theorem grading_asks_and_accepts_on_yes
    env session query maxRetries_option h0 state h :
  honours_top env ->
  enters env (agent, initialState session query maxRetries_option, h0)
    grade_documents state h ->
  retrievedDocs state <> [] ->
  let docs := retrievedDocs state in
  let prompt := gradePrompt env query docs in
  let request := [ {| role := "user"; content := prompt |} ] in
  let reply := reply_of env request grade_options (EvNow :: h) in
  exists graded,
    stage env grade_documents state h =
      (Ok graded, EvCompletion request grade_options :: EvNow :: h) /\
    contains prompt query /\
    List.length docs <= 5 /\
    (forall doc, In doc docs ->
       contains prompt (substring0 500 (rd_content doc) ++ "...") /\
       String.length (substring0 500 (rd_content doc)) <= 500) /\
    (ragAccepted graded = Some true <->
       exists text, reply = Ok text /\ contains_ignoring_case text "yes") /\
    (ragAccepted graded = Some true \/ ragAccepted graded = Some false).
Proof.
  intros Htop He Hd docs prompt request reply.
  assert (Hq : userQuery state = query).
  { apply (enters_on_entry env query) in He; [apply He | apply initialState_on_entry]. }
  pose proof (stage_grade_docs env state h Hd) as Hs.
  unfold grade_request in Hs. rewrite Hq in Hs. fold docs prompt request reply in Hs.
  assert (Hlen : List.length docs <= 5).
  { apply (enters_docs_bound env _ _ _ _ Htop) in He; [exact He | cbn; lia]. }
  assert (Hex : forall doc, In doc docs ->
            contains prompt (substring0 500 (rd_content doc) ++ "...") /\
            String.length (substring0 500 (rd_content doc)) <= 500).
  { intros doc Hin. split.
    - now apply gradePrompt_contains_excerpt.
    - apply length_substring0. }
  destruct reply as [text|error] eqn:Er.
  - cbv zeta in Hs.
    destruct (includes (toLowerCase (trim text)) "yes") eqn:Ei;
      (eexists; split; [exact Hs|]);
      (split; [apply gradePrompt_contains_query|]);
      (split; [exact Hlen|]); (split; [exact Hex|]); cbn.
    + split; [|now left]. split; [|reflexivity].
      intros _. exists text. split; [reflexivity|]. now apply includes_yes.
    + split; [|now right]. split; [discriminate|].
      intros (text' & Ht & Hc). injection Ht as <-.
      apply includes_yes in Hc. congruence.
  - eexists. split; [exact Hs|].
    split; [apply gradePrompt_contains_query|].
    split; [exact Hlen|]. split; [exact Hex|]. cbn.
    split; [|now right]. split; [discriminate|].
    intros (text' & Ht & _). discriminate Ht.
Qed.

Lemma grading_asks_and_accepts_on_yes_witness :
  let c := Demo.after Demo.accepting 2 in
  Demo.node_of c = grade_documents /\
  retrievedDocs (Demo.state_of c) <> [] /\
  exists graded h',
    stage Demo.accepting grade_documents (Demo.state_of c) (Demo.history_of c) =
      (Ok graded, h') /\
    ragAccepted graded = Some true.
Proof.
  split; [reflexivity|].
  assert (Hd : retrievedDocs (Demo.state_of (Demo.after Demo.accepting 2)) <> [])
    by (vm_compute; discriminate).
  split; [exact Hd|].
  assert (He : enters Demo.accepting (agent, Demo.start, [EvUuid]) grade_documents
                 (Demo.state_of (Demo.after Demo.accepting 2))
                 (Demo.history_of (Demo.after Demo.accepting 2))).
  { exists 2. apply advance_transitions. vm_compute. reflexivity. }
  destruct (grading_asks_and_accepts_on_yes Demo.accepting "session" Demo.query None
              [EvUuid] _ _ (demo_honours_top _ _) He Hd)
    as (graded & Hs & _ & _ & _ & Hyes & _).
  exists graded. eexists. split; [exact Hs|].
  apply Hyes. exists "yes, RETRIEVE". split; [reflexivity|].
  exists "", "yes", ", RETRIEVE". split; reflexivity.
Defined.

(** C8.  Whenever a run reaches the generation stage, that stage asks the
    completion service once, at temperature 0.7.  The prompt is the
    answer-synthesis prompt, which tells the model to use the retrieved
    context and contains the query and the full content of every retrieved
    document, exactly when [ragAccepted] is [true].  Otherwise it is the
    general-knowledge prompt: it tells the model to answer from its general
    knowledge, contains the query and the note, and stays the same whatever
    documents the state holds; the note is empty when there is no rejection
    reason and otherwise says that documents were retrieved but, followed
    by the reason in lower case. *)
Theorem generation_prompt_follows_acceptance
    env session query maxRetries_option h0 state h :
  enters env (agent, initialState session query maxRetries_option, h0)
    generate state h ->
  let prompt := generationPrompt state in
  let request := [ {| role := "user"; content := prompt |} ] in
  let note :=
    match rejectionReason state with
    | String _ _ => rejectionNote (rejectionReason state)
    | EmptyString => ""
    end in
  exists final,
    stage env generate state h =
      (Ok final, EvCompletion request generate_options :: EvNow :: h) /\
    temperature generate_options = (7 # 10)%Q /\
    (ragAccepted state = Some true <->
       prompt = contextPrompt query (retrievedDocs state)) /\
    (ragAccepted state = Some true ->
       contains prompt
         "Use the following pieces of retrieved context to answer the question." /\
       contains prompt query /\
       forall doc, In doc (retrievedDocs state) -> contains prompt (rd_content doc)) /\
    (ragAccepted state <> Some true ->
       prompt = generalPrompt query note /\
       contains prompt "Answer the following question using your general knowledge." /\
       contains prompt query /\
       contains prompt note /\
       (forall docs,
          generationPrompt (apply_update state [retrievedDocs_ docs]) = prompt) /\
       ((rejectionReason state = "" /\ note = "")
        \/
        (rejectionReason state = "No documents retrieved" /\
         note = "Note: External documents were retrieved but no documents retrieved. Proceeding with general knowledge.")
        \/
        (rejectionReason state = "Documents not relevant to query" /\
         note = "Note: External documents were retrieved but documents not relevant to query. Proceeding with general knowledge.")
        \/
        (rejectionReason state = "Error evaluating document relevance" /\
         note = "Note: External documents were retrieved but error evaluating document relevance. Proceeding with general knowledge."))).
Proof.
  intros He prompt request note.
  apply (enters_on_entry env query) in He; [|apply initialState_on_entry].
  destruct He as [Hq Inv].
  assert (Hdocs : ragAccepted state = Some true -> retrievedDocs state <> []).
  { destruct Inv as [(_ & _ & _ & Ia & _) | (_ & _ & _ & [(_ & Ia & _) | (Id & _)])];
      try (rewrite Ia; discriminate). intros _. exact Id. }
  assert (Hacc : ragAccepted state = Some true ->
                 prompt = contextPrompt query (retrievedDocs state)).
  { intros Ha. unfold prompt. rewrite generationPrompt_accepted; auto.
    now rewrite Hq. }
  assert (Hrej : ragAccepted state <> Some true -> prompt = generalPrompt query note).
  { intros Ha. unfold prompt. rewrite generationPrompt_rejected by exact Ha.
    now rewrite Hq. }
  assert (Hnote : ragAccepted state <> Some true ->
            (rejectionReason state = "" /\ note = "")
            \/
            (rejectionReason state = "No documents retrieved" /\
             note = "Note: External documents were retrieved but no documents retrieved. Proceeding with general knowledge.")
            \/
            (rejectionReason state = "Documents not relevant to query" /\
             note = "Note: External documents were retrieved but documents not relevant to query. Proceeding with general knowledge.")
            \/
            (rejectionReason state = "Error evaluating document relevance" /\
             note = "Note: External documents were retrieved but error evaluating document relevance. Proceeding with general knowledge.")).
  { intros Ha. unfold note.
    destruct Inv as [(_ & _ & _ & _ & Ir & _)
                    | (_ & _ & _ & [(_ & _ & Ir)
                                   | (_ & [(Ia & _) | (_ & [Ir | Ir])])])];
      try contradiction; rewrite Ir.
    - left. split; reflexivity.
    - right; left. split; reflexivity.
    - right; right; left. split; reflexivity.
    - right; right; right. split; reflexivity. }
  eexists. split; [apply stage_generate|]. split; [reflexivity|].
  split; [|split].
  - split; [exact Hacc|]. intros Hp.
    destruct (ragAccepted state) as [[|]|] eqn:Ea; try reflexivity; exfalso;
      (rewrite Hrej in Hp by discriminate);
      symmetry in Hp; exact (contextPrompt_not_general _ _ _ _ Hp).
  - intros Ha. rewrite (Hacc Ha). split; [|split].
    + apply contextPrompt_context.
    + apply contextPrompt_contains_query.
    + intros doc Hin. now apply contextPrompt_contains_doc.
  - intros Ha. rewrite (Hrej Ha).
    split; [reflexivity|]. split; [apply generalPrompt_general|].
    split; [apply generalPrompt_contains_query|].
    split; [apply generalPrompt_contains_note|].
    split; [|exact (Hnote Ha)].
    intros docs. rewrite <- (Hrej Ha). unfold prompt.
    rewrite !generationPrompt_rejected by exact Ha. reflexivity.
Qed.

Lemma generation_prompt_follows_acceptance_witness :
  let c := Demo.after Demo.accepting 3 in
  Demo.node_of c = generate /\
  ragAccepted (Demo.state_of c) = Some true /\
  generationPrompt (Demo.state_of c) =
    contextPrompt Demo.query (retrievedDocs (Demo.state_of c)).
Proof.
  split; [reflexivity|]. split; [reflexivity|].
  assert (He : enters Demo.accepting (agent, Demo.start, [EvUuid]) generate
                 (Demo.state_of (Demo.after Demo.accepting 3))
                 (Demo.history_of (Demo.after Demo.accepting 3))).
  { exists 3. apply advance_transitions. vm_compute. reflexivity. }
  destruct (generation_prompt_follows_acceptance Demo.accepting "session" Demo.query
              None [EvUuid] _ _ He) as (final & _ & _ & Hiff & _).
  apply Hiff. reflexivity.
Defined.

(** C9.  Every run of the graph terminates.  From any state it returns a
    final state; no run makes more than three transitions between stages
    (four stages in all); under any limit the graph run ends, with a final
    state or with the recursion error, and under any limit of at least five
    it returns what it returns under the limit given to [compile], so that
    the limit of 10 is never reached.  A limit of one is reached by every
    run. *)
Theorem run_is_bounded env state h :
  (exists final h', workflow_invoke env state h = (Ok final, h')) /\
  (forall k c,
     transitions env k (agent, state, EvUuid :: h) c ->
     k <= 3 /\ k + 2 <= recursionLimit) /\
  (forall limit,
     (exists final h',
        run_graph env limit agent state (EvUuid :: h) = (Ok final, h')) \/
     (exists h',
        run_graph env limit agent state (EvUuid :: h) = (Throw recursion_error, h'))) /\
  (forall limit, 5 <= limit ->
     run_graph env limit agent state (EvUuid :: h) = workflow_invoke env state h) /\
  (forall limit, limit <= 1 ->
     exists h',
       run_graph env limit agent state (EvUuid :: h) = (Throw recursion_error, h')).
Proof.
  split; [apply workflow_invoke_total|]. split; [|split; [|split]].
  - intros k [[n s] hn] T. apply transitions_rank in T.
    cbn [rank] in T. unfold recursionLimit. lia.
  - intros limit. apply run_graph_ends.
  - intros limit Hl. rewrite workflow_invoke_run. unfold recursionLimit.
    apply run_graph_enough; cbn; lia.
  - intros [|[|limit]] Hl; [eexists; reflexivity | | lia].
    rewrite run_graph_S.
    destruct (stage_total env agent state (EvUuid :: h)) as (state' & h' & ->).
    cbn [successor]. destruct (truthy (needsRAG state')); eexists; reflexivity.
Qed.

Lemma run_is_bounded_witness :
  run_graph Demo.accepting 5 agent Demo.start [EvUuid] =
  workflow_invoke Demo.accepting Demo.start [] /\
  (exists h',
     run_graph Demo.accepting 4 agent Demo.start [EvUuid] =
     (Throw recursion_error, h')) /\
  (forall c,
     transitions Demo.accepting 3 (agent, Demo.start, [EvUuid]) c ->
     3 + 2 <= recursionLimit).
Proof.
  destruct (run_is_bounded Demo.accepting Demo.start []) as (_ & Hk & _ & Hl & _).
  split; [apply Hl; lia|]. split.
  - eexists. vm_compute. reflexivity.
  - intros c T. apply (Hk 3 c T).
Defined.

(** C10.  Every run of the React strategy that completes returns the same
    explainability constants, whatever the model and its tools did:
    [decisionPoints] is [{needsRAG: true, ragAccepted: true, retryCount: 0}],
    [rejectionReason] is [null], [executionSteps] has exactly the three
    entries [tool_search_documents], [tool_evaluate_documents], [generate],
    and [retrievalDetails.documentsFound] is the string [Variable]. *)
Theorem react_explainability_is_constant env query maxRetries_option h result h' :
  execute env REACT query maxRetries_option h = (Ok result, h') ->
  path result ["explainability"; "decisionPoints"] =
    Some (JObj [("needsRAG", JBool true); ("ragAccepted", JBool true);
                ("retryCount", JNum 0)]) /\
  path result ["explainability"; "rejectionReason"] = Some JNull /\
  path result ["explainability"; "retrievalDetails"; "documentsFound"] =
    Some (JStr "Variable") /\
  exists steps,
    path result ["explainability"; "executionSteps"] = Some (JArr steps) /\
    map (get "step") steps =
      [Some (JStr "tool_search_documents");
       Some (JStr "tool_evaluate_documents");
       Some (JStr "generate")].
Proof.
  intros H. apply execute_react_inv in H.
  destruct H as (answer & s1 & s2 & s3 & elapsed & stamp & -> & _).
  repeat split. eexists. split; reflexivity.
Qed.

Lemma react_explainability_is_constant_witness :
  exists result h',
    execute Demo.no_retrieval REACT Demo.query None [] = (Ok result, h') /\
    path result ["explainability"; "retrievalDetails"; "documentsFound"] =
      Some (JStr "Variable") /\
    path result ["explainability"; "rejectionReason"] = Some JNull.
Proof.
  eexists. eexists.
  assert (H : execute Demo.no_retrieval REACT Demo.query None [] =
              (fst (execute Demo.no_retrieval REACT Demo.query None []),
               snd (execute Demo.no_retrieval REACT Demo.query None [])))
    by apply surjective_pairing.
  split; [vm_compute; reflexivity|].
  pose proof (react_explainability_is_constant Demo.no_retrieval Demo.query None []
                _ _ eq_refl) as (_ & Hr & Hd & _).
  split; [exact Hd | exact Hr].
Defined.

(** * Further properties of the agent module and of the service layer *)

(** ** The React branch of [execute] *)

Lemma last_map_Some {A : Type} (l : list A) :
  last (map Some l) None = match rev l with x :: _ => Some x | [] => None end.
Proof.
  induction l as [|x l IH] using rev_ind; [reflexivity|].
  rewrite map_app, rev_unit. cbn [map]. now rewrite last_last.
Qed.

(** X1.  [execute] of the React agent returns exactly when the loop returns a
    non-empty message list; its answer is then the content of the last
    message and its query the one it was given.  When the loop throws, or
    returns no message, [execute] throws an error whose message starts with
    [Agent execution failed: ], having drawn no identifier and read the
    clock once. *)
Theorem react_execute_outcome env query maxRetries_option h :
  let request := [ {| role := "user"; content := query |} ] in
  match reactAgent_invoke env (EvNow :: h) request with
  | Ok response =>
      match rev response with
      | final :: _ =>
          exists result h',
            execute env REACT query maxRetries_option h = (Ok result, h') /\
            path result ["answer"] = Some (JStr (message_content final)) /\
            path result ["query"] = Some (JStr query)
      | [] =>
          exists detail,
            execute env REACT query maxRetries_option h =
            (Throw ("Agent execution failed: " ++ detail),
             EvReactInvoke request :: EvNow :: h)
      end
  | Throw error =>
      execute env REACT query maxRetries_option h =
      (Throw ("Agent execution failed: " ++ error),
       EvReactInvoke request :: EvNow :: h)
  end.
Proof.
  intros request.
  unfold execute, execute_react, uuidv4, new_Date_toISOString, now,
    bind, try_catch, perform, ret, throw.
  cbn beta iota zeta. fold request.
  destruct (reactAgent_invoke env (EvNow :: h) request) as [response|error];
    [|reflexivity].
  rewrite last_map_Some.
  destruct (rev response) as [|final rest].
  - eexists. reflexivity.
  - eexists. eexists. split; [reflexivity|]. split; reflexivity.
Qed.

(** ** What the workflow response says about the search *)

Section MoreStages.

Variable env : Env.

(** The grading stage leaves everything but its verdict and its step
    alone. *)
Lemma stage_grade_keeps state h graded h' :
  stage env grade_documents state h = (Ok graded, h') ->
  userQuery graded = userQuery state /\
  needsRAG graded = needsRAG state /\
  searchQuery graded = searchQuery state /\
  retrievedDocs graded = retrievedDocs state /\
  messages graded = messages state /\
  retryCount graded = retryCount state.
Proof.
  destruct (retrievedDocs_dec state) as [E|E].
  - rewrite stage_grade_empty by exact E. intros H. injection H as <- _.
    repeat split; reflexivity.
  - rewrite stage_grade_docs by exact E. intros H. injection H as <- _.
    destruct (reply_of env _ _ _); repeat split; reflexivity.
Qed.

(** The run from the entry of the grading stage: grading, then generation. *)
Lemma run_from_grade state h :
  exists graded h1 final h2,
    stage env grade_documents state h = (Ok graded, h1) /\
    stage env generate graded h1 = (Ok final, h2) /\
    run_graph env 3 grade_documents state h = (Ok final, h2).
Proof.
  destruct (stage_total env grade_documents state h) as (graded & h1 & Hg).
  destruct (stage_total env generate graded h1) as (final & h2 & Hf).
  exists graded, h1, final, h2. split; [exact Hg|]. split; [exact Hf|].
  rewrite run_graph_S, Hg. cbn [successor]. now rewrite run_graph_generate.
Qed.

End MoreStages.

(** X2.  When a run reaches the retrieval stage, the response built from its
    final state reports the search as it went: [searchQuery] is the user
    query, [documentsFound] is the number of results the search returned
    (zero when it failed), and [topDocuments] holds the scores of the first
    three results, in the order of the search, and never more than three. *)
Theorem response_reports_search
    env session query maxRetries_option h0 state h :
  enters env (agent, initialState session query maxRetries_option, EvUuid :: h0)
    retrieve state h ->
  let found :=
    match search_of env query retrieve_options (EvNow :: h) with
    | Ok searchResults => results searchResults
    | Throw _ => []
    end in
  exists final h',
    workflow_invoke env (initialState session query maxRetries_option) h0 =
      (Ok final, h') /\
    forall type executionTimeMs stamp,
      let response := workflow_response type query final executionTimeMs stamp in
      path response ["explainability"; "retrievalDetails"; "searchQuery"] =
        Some (JStr query) /\
      path response ["explainability"; "retrievalDetails"; "documentsFound"] =
        Some (js_of_nat (List.length found)) /\
      path response ["explainability"; "retrievalDetails"; "topDocuments"] =
        Some (JArr (map (fun result => JObj [("score", JNum (result_score result))])
                        (firstn 3 found))) /\
      List.length (firstn 3 found) <= 3.
Proof.
  intros He found.
  pose proof (enters_on_entry env query _ _ _ _ _
                (initialState_on_entry session query maxRetries_option) He)
    as (Hq & Hn & Hs & _).
  rewrite (workflow_invoke_from_entry env _ _ _ _ _ He). cbn [rank Nat.add].
  rewrite run_graph_S, stage_retrieve. cbn [successor].
  rewrite Hs. fold found.
  match goal with
  | |- context [run_graph env 3 grade_documents ?s ?hh] =>
      destruct (run_from_grade env s hh) as (graded & h1 & final & h2 & Hg & Hf & ->);
      apply stage_grade_keeps in Hg; apply stage_generate_keeps in Hf;
      cbn [apply_update fold_left reduce userQuery needsRAG searchQuery
           retrievedDocs messages retryCount] in Hg
  end.
  destruct Hg as (_ & Gn & Gs & Gd & _).
  destruct Hf as (_ & _ & _ & Fn & Fs & Fd & _).
  exists final, h2. split; [reflexivity|].
  intros type executionTimeMs stamp.
  assert (En : needsRAG final = Some true) by congruence.
  assert (Es : searchQuery final = query) by congruence.
  assert (Ed : retrievedDocs final =
               map (fun result =>
                      {| rd_content := content_or_json env (document result);
                         score := result_score result;
                         metadata := document result |}) found).
  { rewrite Fd, Gd. unfold found.
    destruct (search_of env query retrieve_options (EvNow :: h)); reflexivity. }
  unfold workflow_response. cbn -[truthy js_of_nat firstn].
  rewrite En. cbn -[js_of_nat firstn]. rewrite Es, Ed.
  rewrite length_map. unfold slice0. rewrite firstn_map, map_map. cbn [score].
  repeat split. apply firstn_le_length.
Qed.

(** The run of [Demo.accepting] reaches the retrieval stage, and its
    response reports the one document the index holds. *)
Lemma response_reports_search_witness :
  let c := Demo.after Demo.accepting 1 in
  Demo.node_of c = retrieve /\
  exists final h',
    workflow_invoke Demo.accepting Demo.start [] = (Ok final, h') /\
    path (workflow_response WORKFLOW Demo.query final 0 "stamp")
      ["explainability"; "retrievalDetails"; "documentsFound"] =
    Some (js_of_nat 1).
Proof.
  split; [reflexivity|].
  assert (He : enters Demo.accepting (agent, Demo.start, [EvUuid]) retrieve
                 (Demo.state_of (Demo.after Demo.accepting 1))
                 (Demo.history_of (Demo.after Demo.accepting 1))).
  { exists 1. apply advance_transitions. vm_compute. reflexivity. }
  destruct (response_reports_search Demo.accepting "session" Demo.query None []
              _ _ He)
    as (final & h' & Hrun & Hresponse).
  exists final, h'. split; [exact Hrun|].
  destruct (Hresponse WORKFLOW 0%Z "stamp") as (_ & Hfound & _).
  rewrite Hfound. vm_compute. reflexivity.
Defined.

(** ** The retry fields are carried and never read *)

Section Retries.

Variable env : Env.

Lemma node_action_with_maxRetries m n state :
  node_action env n (with_maxRetries m state) = node_action env n state.
Proof. destruct state, n; reflexivity. Qed.

Lemma reduce_with_maxRetries m state f :
  reduce (with_maxRetries m state) f = with_maxRetries m (reduce state f).
Proof. destruct f; reflexivity. Qed.

Lemma apply_update_with_maxRetries m state update :
  apply_update (with_maxRetries m state) update =
  with_maxRetries m (apply_update state update).
Proof.
  unfold apply_update. revert state.
  induction update as [|f update IH]; intros state; cbn [fold_left]; [reflexivity|].
  now rewrite reduce_with_maxRetries, IH.
Qed.

Lemma stage_with_maxRetries m n state h :
  stage env n (with_maxRetries m state) h =
  match stage env n state h with
  | (Ok state', h') => (Ok (with_maxRetries m state'), h')
  | (Throw msg, h') => (Throw msg, h')
  end.
Proof.
  unfold stage, bind, ret. rewrite node_action_with_maxRetries.
  destruct (node_action env n state h) as [[update|msg] h']; [|reflexivity].
  now rewrite apply_update_with_maxRetries.
Qed.

Lemma run_graph_with_maxRetries m limit n state h :
  run_graph env limit n (with_maxRetries m state) h =
  match run_graph env limit n state h with
  | (Ok final, h') => (Ok (with_maxRetries m final), h')
  | (Throw msg, h') => (Throw msg, h')
  end.
Proof.
  revert n state h. induction limit as [|limit IH]; intros n state h; [reflexivity|].
  rewrite !run_graph_S, stage_with_maxRetries.
  destruct (stage env n state h) as [[state'|msg] h']; [|reflexivity].
  assert (Hs : successor n (with_maxRetries m state') = successor n state')
    by (destruct n; reflexivity).
  rewrite Hs. destruct (successor n state') as [n'|]; [apply IH|].
  destruct limit; reflexivity.
Qed.

Lemma stage_keeps_retries n state h state' h' :
  stage env n state h = (Ok state', h') ->
  retryCount state' = retryCount state /\ maxRetries state' = maxRetries state.
Proof.
  destruct n.
  - rewrite stage_agent. intros H. injection H as <- _.
    destruct (reply_of env _ _ _); split; reflexivity.
  - rewrite stage_retrieve. intros H. injection H as <- _. split; reflexivity.
  - destruct (retrievedDocs_dec state) as [E|E].
    + rewrite stage_grade_empty by exact E. intros H. injection H as <- _.
      split; reflexivity.
    + rewrite stage_grade_docs by exact E. intros H. injection H as <- _.
      destruct (reply_of env _ _ _); split; reflexivity.
  - rewrite stage_generate. intros H. injection H as <- _.
    destruct (reply_of env _ _ _); split; reflexivity.
Qed.

Lemma run_graph_keeps_retries limit n state h final h' :
  run_graph env limit n state h = (Ok final, h') ->
  retryCount final = retryCount state /\ maxRetries final = maxRetries state.
Proof.
  revert n state h. induction limit as [|limit IH]; intros n state h H;
    [discriminate H|].
  rewrite run_graph_S in H.
  destruct (stage env n state h) as [[state'|msg] h1] eqn:Es; [|discriminate H].
  apply stage_keeps_retries in Es. destruct Es as [Er Em].
  destruct (successor n state') as [n'|].
  - apply IH in H. destruct H as [Hr Hm]. split; congruence.
  - destruct limit; [discriminate H|]. injection H as <- _. split; assumption.
Qed.

End Retries.

(** X3.  The option [maxRetries] has no effect: [execute] of the workflow
    agent returns the same result, with the same effects, whatever value the
    caller passes (or none), and the result always reports [retryCount] 0:
    the workflow never retries. *)
Theorem maxRetries_has_no_effect env query maxRetries_option maxRetries_option' h :
  exists result h',
    execute env WORKFLOW query maxRetries_option h = (Ok result, h') /\
    execute env WORKFLOW query maxRetries_option' h = (Ok result, h') /\
    path result ["explainability"; "decisionPoints"; "retryCount"] = Some (JNum 0).
Proof.
  assert (Hnone : forall mr,
            exists final h',
              workflow_invoke env
                (initialState (uuid_seq env (uuid_count (EvNow :: h))) query None)
                (EvUuid :: EvNow :: h) = (Ok final, h') /\
              retryCount final = 0%Z /\
              execute env WORKFLOW query mr h =
              (Ok (workflow_response WORKFLOW query final
                     (Date_now env h' - Date_now env h)
                     (toISOString env (Date_now env (EvNow :: h')))),
               EvNow :: EvNow :: h')).
  { intros mr.
    destruct (workflow_invoke_total env
                (initialState (uuid_seq env (uuid_count (EvNow :: h))) query None)
                (EvUuid :: EvNow :: h)) as (final & h' & Hrun).
    exists final, h'. split; [exact Hrun|].
    rewrite workflow_invoke_run in Hrun.
    pose proof (run_graph_keeps_retries env _ _ _ _ _ _ Hrun) as [Hr _].
    split; [exact Hr|].
    destruct (execute_workflow_run env query mr h) as (final' & h'' & Hrun' & ->).
    assert (Hi : initialState (uuid_seq env (uuid_count (EvNow :: h))) query mr =
                 with_maxRetries
                   match mr with Some n => n | None => (-1)%Z end
                   (initialState (uuid_seq env (uuid_count (EvNow :: h))) query None))
      by reflexivity.
    rewrite workflow_invoke_run in Hrun'.
    rewrite Hi, run_graph_with_maxRetries, Hrun in Hrun'.
    injection Hrun' as <- <-. reflexivity. }
  destruct (Hnone maxRetries_option) as (final & h' & Hrun & Hr & H1).
  destruct (Hnone maxRetries_option') as (final' & h'' & Hrun' & _ & H2).
  rewrite Hrun in Hrun'. injection Hrun' as <- <-.
  eexists. eexists. split; [exact H1|]. split; [exact H2|].
  cbn. now rewrite Hr.
Qed.

(** ** The effects and the message history of a run *)

Ltac reduce_run :=
  cbn [apply_update fold_left reduce messages sessionId userQuery needsRAG
       searchQuery retrievedDocs ragAccepted rejectionReason finalAnswer
       executionSteps retryCount maxRetries truthy initialState app].

Ltac grade_step :=
  match goal with
  | |- context [stage ?env grade_documents ?s ?h] =>
      first
        [ rewrite (stage_grade_empty env s h eq_refl)
        | rewrite (stage_grade_docs env s h
                     ltac:(cbn [retrievedDocs map]; discriminate)) ]
  end.

(** Runs a workflow symbolically up to the call of the generation stage,
    with one case per answer of the services before it. *)
Ltac symbolic_start env :=
  rewrite workflow_invoke_staged; unfold staged_run, bind, uuidv4, perform;
  cbn beta iota;
  rewrite stage_agent;
  destruct (reply_of env _ _ _) as [?decision|?error];
    [ cbv zeta;
      destruct (includes (toUpperCase (trim _)) "RETRIEVE") | ];
    reduce_run;
    try (rewrite stage_retrieve;
         destruct (search_of env _ _ _) as [?searchResults|?error];
           [ destruct (results _) as [|?result ?rest] | ];
           reduce_run; cbn [map];
         grade_step;
         try (destruct (reply_of env (grade_request _ _) _ _) as [?gradeResult|?error];
                [ cbv zeta;
                  destruct (includes (toLowerCase (trim _)) "yes") | ]);
         reduce_run);
    rewrite stage_generate.

(** The same to the end of the run. *)
Ltac symbolic_run env :=
  symbolic_start env;
  destruct (reply_of env (generate_request _) _ _) as [?answer|?error];
  reduce_run.

(** X4.  What a run of the workflow costs.  It draws one identifier, the
    default of the session channel, which it does not use: the final state
    carries the session identifier it was given.  It calls no React loop.
    It searches at most once: exactly when the analysis triggered
    retrieval, and then for the user query itself, asking for the top 5
    results of a semantic search.  It asks the completion service three
    times when documents were retrieved (analysis, grading, generation)
    and twice otherwise. *)
Theorem run_effects env session query maxRetries_option h0 :
  exists final h' added,
    workflow_invoke env (initialState session query maxRetries_option) h0 =
      (Ok final, h') /\
    h' = (added ++ h0)%list /\
    filter is_uuid added = [EvUuid] /\
    last added EvNow = EvUuid /\
    sessionId final = session /\
    filter is_search added =
      (if truthy (needsRAG final)
       then [EvSearch query {| top := 5; queryType := "semantic" |}]
       else []) /\
    List.length (filter is_completion added) =
      match retrievedDocs final with [] => 2 | _ :: _ => 3 end /\
    Forall (fun e => match e with
                     | EvNow | EvUuid | EvSearch _ _ | EvCompletion _ _ => True
                     | EvReactInvoke _ => False
                     end) added.
Proof.
  symbolic_run env;
    (eexists; eexists; eexists; split; [reflexivity|];
     split;
       [ repeat match goal with
                | |- (?e :: ?l) = (?added ++ h0)%list =>
                    let rest := fresh "rest" in
                    evar (rest : list Event);
                    unify added (e :: rest); subst rest;
                    cbn [app]; apply f_equal
                end;
         symmetry; apply (app_nil_l h0)
       | repeat (split; [reflexivity|]); repeat constructor ]).
Qed.

(** X5.  The message history a run ends with.  The analysis node returns the
    user message; the generation node returns the whole history so far again
    with its AI message, and the reducer of [messages] concatenates: every
    run ends with the user message twice, followed by one AI message.  The
    last call of a run is the completion call of the generation node: when
    it returns a text, that text is the final answer and the AI message;
    when it fails, the final answer is the apology and the AI message is
    [Error generating response]. *)
Theorem final_messages env session query maxRetries_option h0 :
  exists final request hg,
    workflow_invoke env (initialState session query maxRetries_option) h0 =
      (Ok final, EvCompletion request generate_options :: EvNow :: hg) /\
    match reply_of env request generate_options (EvNow :: hg) with
    | Ok answer =>
        finalAnswer final = answer /\
        messages final =
          [HumanMessage query; HumanMessage query; AIMessage answer]
    | Throw _ =>
        finalAnswer final = fallback_answer /\
        messages final =
          [HumanMessage query; HumanMessage query;
           AIMessage "Error generating response"]
    end.
Proof.
  symbolic_start env;
    (eexists; eexists; eexists; split; [reflexivity|];
     destruct (reply_of env (generate_request _) _ _) as [?answer|?error];
     split; reflexivity).
Qed.

(** X6.  The answer of a workflow result is never empty.  The completion
    service layer returns the text of the model, or [No response generated]
    when the model returned none or an empty one, and the generation node
    answers with the apology when the call fails: whatever the services do,
    [answer] is a non-empty string. *)
Theorem answer_is_never_empty env query maxRetries_option h :
  (forall request options hs text,
     reply_of env request options hs = Ok text -> text <> "") /\
  exists result h' answer,
    execute env WORKFLOW query maxRetries_option h = (Ok result, h') /\
    path result ["answer"] = Some (JStr answer) /\
    answer <> "".
Proof.
  assert (Hreply : forall request options hs text,
            reply_of env request options hs = Ok text -> text <> "").
  { intros request options hs text.
    unfold reply_of, generateCompletion, try_catch, bind, perform, ret, throw.
    destruct (chat_completions_create env hs request options) as [[[|c s]|]|e];
      cbn; intros H; try discriminate H; injection H as <-; discriminate. }
  split; [exact Hreply|].
  destruct (execute_workflow_run env query maxRetries_option h)
    as (final & h' & Hrun & Hexec).
  rewrite Hexec. eexists. eexists. exists (finalAnswer final).
  split; [reflexivity|]. split; [reflexivity|].
  apply final_state in Hrun. destruct Hrun as (sg & hg & _ & _ & Hg).
  apply stage_generate_keeps in Hg.
  destruct Hg as (_ & _ & _ & _ & _ & _ & _ & _ & _ & ->).
  destruct (reply_of env _ _ _) as [answer|error] eqn:E.
  - exact (Hreply _ _ _ _ E).
  - discriminate.
Qed.

(** ** The tools of the React agent *)

Lemma searchDigest_contains toFixed2 doc i :
  contains (searchDigest toFixed2 doc i) (substring0 1200 (rd_content doc) ++ "...").
Proof.
  unfold searchDigest. do 6 apply contains_app_l. apply contains_refl.
Qed.

(** X7.  The search tool never throws, and its one effect is a search for the
    text it was given, asking for the top 5 results of a semantic search.
    When the search fails the tool returns a text that starts with
    [Error searching documents: ] and carries the error of the service.
    Otherwise the text starts with the number of documents found and
    contains, for every document, the first 1200 characters of its content
    followed by an ellipsis. *)
Theorem search_tool_reports env toFixed2 input h :
  let query := search_input input in
  let options := {| top := 5; queryType := "semantic" |} in
  exists text,
    search_documents env toFixed2 input h = (Ok text, EvSearch query options :: h) /\
    match search_of env query options h with
    | Throw error => text = "Error searching documents: " ++ error
    | Ok searchResults =>
        let found := results searchResults in
        (exists rest,
           text = "Found " ++ string_of_nat (List.length found)
                  ++ " relevant documents:" ++ rest) /\
        forall result, In result found ->
          contains text
            (substring0 1200 (content_or_json env (document result)) ++ "...")
    end.
Proof.
  intros query options.
  unfold search_documents, bind, try_catch, ret. fold query options.
  rewrite searchDocuments_run.
  destruct (search_of env query options h) as [searchResults|error].
  - eexists. split; [reflexivity|]. cbv zeta. split.
    + eexists. rewrite length_map. reflexivity.
    + intros result Hin.
      set (convert := fun result0 : SearchResult =>
             {| rd_content := content_or_json env (document result0);
                score := result_score result0;
                metadata := document result0 |}).
      assert (Hdoc : In (convert result) (map convert (results searchResults)))
        by now apply in_map.
      destruct (in_mapi_from (searchDigest toFixed2) _ 0 _ Hdoc) as [j Hj].
      eapply contains_trans; [|apply (searchDigest_contains toFixed2 (convert result) j)].
      do 5 apply contains_app_l. apply contains_app_r.
      now apply contains_join.
  - eexists. split; reflexivity.
Qed.

(** X8.  The evaluation tool never throws, and its one effect is a completion
    call at temperature 0.1 with at most 5 tokens, whose prompt is built from
    the text the tool was given and from nothing else: the tool does not see
    the documents.  It returns the verdict that the documents are relevant
    exactly when the reply contains "yes" under case-insensitive matching,
    the verdict that they are not for every other reply, and a text that
    starts with [Error evaluating documents: ] when the call fails. *)
Theorem evaluate_tool_verdict env stringify_input input h :
  let request :=
    [ {| role := "user";
         content := evaluationPrompt (evaluate_input stringify_input input) |} ] in
  let options := {| temperature := 1 # 10; maxTokens := 5 |} in
  exists text,
    evaluate_documents env stringify_input input h =
      (Ok text, EvCompletion request options :: h) /\
    match reply_of env request options h with
    | Ok reply =>
        (contains_ignoring_case reply "yes" /\ text = verdict_relevant) \/
        (~ contains_ignoring_case reply "yes" /\ text = verdict_not_relevant)
    | Throw error => text = "Error evaluating documents: " ++ error
    end.
Proof.
  intros request options.
  unfold evaluate_documents, bind, try_catch, ret. fold request options.
  rewrite generateCompletion_run.
  destruct (reply_of env request options h) as [reply|error].
  - eexists. split; [reflexivity|]. cbv zeta.
    destruct (includes (toLowerCase (trim reply)) "yes") eqn:E.
    + left. split; [now apply includes_yes | reflexivity].
    + right. split; [|reflexivity].
      intros Hc. apply includes_yes in Hc. congruence.
  - eexists. split; reflexivity.
Qed.

(** ** The health check *)

(** X9.  The health check never throws and always probes both services, the
    completion service first: a failed completion probe does not spare the
    search probe.  [openai] and [search] say whether the respective client
    answered, and [overall] is their conjunction. *)
Theorem healthCheck_reports env h :
  let hello := [ {| role := "user"; content := "Hello" |} ] in
  let hello_options := {| temperature := 7 # 10; maxTokens := 5 |} in
  let test_options := {| top := 1; queryType := "semantic" |} in
  let h1 := EvCompletion hello hello_options :: h in
  exists health,
    healthCheck env h = (Ok health, EvSearch "test" test_options :: h1) /\
    (openai health = true <->
       exists content, chat_completions_create env h hello hello_options = Ok content) /\
    (search health = true <->
       exists found,
         searchClient_search env h1 "test"
           {| client_top := 1; client_queryType := "semantic";
              semanticConfiguration := Some "default" |} = Ok found) /\
    overall health = openai health && search health.
Proof.
  intros hello hello_options test_options h1.
  unfold healthCheck, bind, try_catch, ret.
  fold hello hello_options test_options.
  rewrite generateCompletion_run. fold h1.
  assert (Ho : (exists text, reply_of env hello hello_options h = Ok text) <->
               exists content, chat_completions_create env h hello hello_options = Ok content).
  { unfold reply_of, generateCompletion, try_catch, bind, perform, ret, throw.
    destruct (chat_completions_create env h hello hello_options) as [[[|c s]|]|e];
      cbn; split; intros [x Hx]; try discriminate Hx; eauto. }
  assert (Hs : (exists r, search_of env "test" test_options h1 = Ok r) <->
               exists found,
                 searchClient_search env h1 "test"
                   {| client_top := 1; client_queryType := "semantic";
                      semanticConfiguration := Some "default" |} = Ok found).
  { unfold search_of, searchDocuments, try_catch, bind, perform, ret, throw.
    cbn [top queryType test_options]; rewrite string_eqb_refl.
    destruct (searchClient_search env h1 "test" _) as [found|e];
      cbn; split; intros [x Hx]; try discriminate Hx; eauto. }
  destruct (reply_of env hello hello_options h) as [text|e1];
    rewrite searchDocuments_run;
    destruct (search_of env "test" test_options h1) as [r|e2];
    (eexists; split; [reflexivity|]); cbn [openai search overall andb];
    (split; [|split; [|reflexivity]]);
    first [ rewrite <- Ho | rewrite <- Hs ];
    split; intros H; try reflexivity; try discriminate H; eauto;
    destruct H as [x Hx]; discriminate Hx.
Qed.

(** X10.  The rejection reason of a result tells which way the run went.
    It is empty exactly when retrieval was not triggered or the documents
    were accepted.  After a triggered retrieval it is [No documents
    retrieved] exactly when nothing was retrieved (the search failed or
    found nothing), and otherwise [Documents not relevant to query] or
    [Error evaluating document relevance]; no other combination of
    [needsRAG], [ragAccepted] and the reason ends a run. *)
Theorem rejection_reason_explains env session query maxRetries_option h0 :
  exists final h',
    workflow_invoke env (initialState session query maxRetries_option) h0 =
      (Ok final, h') /\
    (forall type executionTimeMs stamp,
       path (workflow_response type query final executionTimeMs stamp)
         ["explainability"; "rejectionReason"] =
       Some (JStr (rejectionReason final))) /\
    match needsRAG final, ragAccepted final with
    | Some false, None =>
        rejectionReason final = "" /\ retrievedDocs final = []
    | Some true, Some true =>
        rejectionReason final = "" /\ retrievedDocs final <> []
    | Some true, Some false =>
        (retrievedDocs final = [] /\
         rejectionReason final = "No documents retrieved") \/
        (retrievedDocs final <> [] /\
         (rejectionReason final = "Documents not relevant to query" \/
          rejectionReason final = "Error evaluating document relevance"))
    | _, _ => False
    end.
Proof.
  symbolic_run env;
    (eexists; eexists; split; [reflexivity|];
     split; [intros; reflexivity|];
     cbn [needsRAG ragAccepted rejectionReason retrievedDocs];
     first [ split; [reflexivity | first [reflexivity | discriminate]]
           | left; split; reflexivity
           | right; split; [discriminate | left; reflexivity]
           | right; split; [discriminate | right; reflexivity] ]).
Qed.

(** X11.  The details of the recorded steps agree with the final state.
    The first step records the user query and the last one the verdict and
    the number of documents the run ends with; when retrieval ran, its step
    records the user query as the search query with retry count 0, and the
    grading step records the same number of documents as the last one. *)
Theorem step_details_agree env session query maxRetries_option h0 :
  exists final h',
    workflow_invoke env (initialState session query maxRetries_option) h0 =
      (Ok final, h') /\
    let docCount := js_of_nat (List.length (retrievedDocs final)) in
    let first := [("userQuery", JStr query)] in
    let last :=
      [("ragAccepted", js_of_tri (ragAccepted final)); ("docCount", docCount)] in
    map details (executionSteps final) =
      if truthy (needsRAG final) then
        [ first;
          [("searchQuery", JStr query); ("retryCount", JNum (inject_Z 0))];
          [("docCount", docCount)];
          last ]
      else [first; last].
Proof.
  symbolic_run env;
    (eexists; eexists; split; [reflexivity|]; reflexivity).
Qed.

(** * Properties of the routes *)

Section RouteFacts.

Import Routes.

Lemma lookup_assign_same k v fields x :
  lookup k fields = Some x -> lookup k (assign k v fields) = Some v.
Proof.
  induction fields as [|[k' v'] rest IH]; cbn [lookup assign]; [discriminate|].
  destruct (String.eqb k k') eqn:E; cbn [lookup]; rewrite E; auto.
Qed.

Lemma lookup_assign_other k k' v fields :
  String.eqb k k' = false -> lookup k (assign k' v fields) = lookup k fields.
Proof.
  intros Hne. induction fields as [|[k'' v''] rest IH]; cbn [lookup assign].
  - now rewrite Hne.
  - destruct (String.eqb k' k'') eqn:E; cbn [lookup].
    + apply string_eqb_eq in E. subst k''. now rewrite Hne.
    + now rewrite IH.
Qed.

Lemma get_set_same k v o x : get k o = Some x -> get k (set k v o) = Some v.
Proof.
  destruct o; cbn [get set]; try discriminate. apply lookup_assign_same.
Qed.

Lemma get_set_other k k' v o :
  String.eqb k k' = false -> get k (set k' v o) = get k o.
Proof.
  destruct o; cbn [get set]; try reflexivity. apply lookup_assign_other.
Qed.

Lemma trim_blank query : (String.length (trim query) =? 0)%nat = true <-> trim query = "".
Proof.
  destruct (trim query); cbn; split; intros H; try reflexivity; discriminate H.
Qed.

Variable env : Env.
Variable environment : string.
Variable stack_of : string -> string.
Variable as_integer : JsVal -> Z.

(** The validation middleware accepts exactly the bodies with a usable
    query, and hands them on with the query trimmed. *)
Lemma validateQuery_run requestBody h :
  (exists query,
     has_query requestBody query /\
     validateQuery env requestBody h =
       (Ok (inr (set "query" (JStr (trim query)) requestBody)), h)) \/
  ((forall query, ~ has_query requestBody query) /\
   exists response,
     validateQuery env requestBody h = (Ok (inl response), EvNow :: h) /\
     status response = 400).
Proof.
  unfold validateQuery, has_query.
  destruct (get "query" requestBody) as [[| | |query| |]|];
    try (right; split;
         [ intros query [H _]; discriminate H
         | eexists; split; reflexivity ]).
  destruct (String.length (trim query) =? 0)%nat eqn:E.
  - right. split.
    + intros query' [H Hne]. injection H as <-. apply trim_blank in E. contradiction.
    + eexists. split; reflexivity.
  - left. exists query. split; [|reflexivity]. split; [reflexivity|].
    intros Ht. apply trim_blank in Ht. congruence.
Qed.

Lemma handleError_run message h :
  exists response,
    handleError env environment stack_of message h = (Ok response, EvNow :: h) /\
    status response = 500.
Proof. eexists. split; reflexivity. Qed.

End RouteFacts.

(** X12.  The workflow query route always answers, with one of three
    statuses.  It answers 400 exactly when the body has no usable query (a
    string that is not blank).  With a usable query it answers 500 exactly
    when the body carries [options: null], which [execute] dereferences;
    otherwise it answers 200 with the result of [execute] on the trimmed
    query: no failure of the completion or search service makes this route
    fail. *)
Theorem workflow_route_status env environment stack_of as_integer requestBody h :
  exists response h',
    Routes.post_query env environment stack_of as_integer WORKFLOW requestBody h =
      (Ok response, h') /\
    (((forall query, ~ Routes.has_query requestBody query) /\
      Routes.status response = 400)
     \/
     (exists query,
        Routes.has_query requestBody query /\
        get "options" requestBody = Some JNull /\
        Routes.status response = 500)
     \/
     (exists query maxRetries_option hr,
        Routes.has_query requestBody query /\
        get "options" requestBody <> Some JNull /\
        Routes.status response = 200 /\
        execute env WORKFLOW (trim query) maxRetries_option (EvNow :: h) =
          (Ok (Routes.payload response), hr))).
Proof.
  unfold Routes.post_query, bind.
  destruct (validateQuery_run env requestBody h)
    as [(query & Hq & ->) | (Hno & response & -> & Hs)].
  - pose proof Hq as [Hget _].
    unfold Routes.handleQuery, bind, try_catch, now, perform.
    rewrite (get_set_same _ _ _ _ Hget), (get_set_other "options" "query") by reflexivity.
    unfold Routes.agent_execute.
    destruct (get "options" requestBody) as [options|] eqn:Eo.
    + destruct options;
        try (match goal with
             | |- context [execute env WORKFLOW ?q ?mr ?hh] =>
                 destruct (execute_workflow_run env q mr hh) as (final & h' & _ & Hexec);
                 rewrite Hexec
             end;
             eexists; eexists; split; [reflexivity|];
             right; right; exists query; eexists; eexists;
             split; [exact Hq|]; split; [discriminate|];
             split; [reflexivity | exact Hexec]).
      unfold bind, throw, now, uuidv4, perform.
      destruct (handleError_run env environment stack_of
                  ("Agent execution failed: "
                   ++ "Cannot read properties of null (reading 'maxRetries')")
                  (EvUuid :: EvNow :: EvNow :: h)) as (response & Hr & Hs).
      rewrite Hr. eexists. eexists. split; [reflexivity|].
      right; left. exists query. repeat split; auto. apply Hq.
    + destruct (execute_workflow_run env (trim query) None (EvNow :: h))
        as (final & h' & _ & Hexec).
      rewrite Hexec.
      eexists; eexists; split; [reflexivity|].
      right; right; exists query; eexists; eexists.
      split; [exact Hq|]. split; [discriminate|].
      split; [reflexivity | exact Hexec].
  - eexists. eexists. split; [reflexivity|]. left. split; assumption.
Qed.

(** X13.  The React query route always answers.  It answers 400 exactly
    when the body has no usable query.  With a usable query it hands the
    trimmed query to the loop and ignores [options]: it answers 200 with the
    content of the last message when the loop returns messages, and 500
    with the message of [execute] when the loop throws or returns none. *)
Theorem react_route_status env environment stack_of as_integer requestBody h :
  exists response h',
    Routes.post_query env environment stack_of as_integer REACT requestBody h =
      (Ok response, h') /\
    (((forall query, ~ Routes.has_query requestBody query) /\
      Routes.status response = 400)
     \/
     (exists query,
        Routes.has_query requestBody query /\
        let request := [ {| role := "user"; content := trim query |} ] in
        match reactAgent_invoke env (EvNow :: EvNow :: h) request with
        | Ok messages =>
            match rev messages with
            | final :: _ =>
                Routes.status response = 200 /\
                path (Routes.payload response) ["answer"] =
                  Some (JStr (message_content final)) /\
                path (Routes.payload response) ["query"] = Some (JStr (trim query))
            | [] =>
                Routes.status response = 500 /\
                exists detail,
                  get "message" (Routes.payload response) =
                    Some (JStr ("Agent execution failed: " ++ detail))
            end
        | Throw error =>
            Routes.status response = 500 /\
            get "message" (Routes.payload response) =
              Some (JStr ("Agent execution failed: " ++ error))
        end)).
Proof.
  unfold Routes.post_query, bind.
  destruct (validateQuery_run env requestBody h)
    as [(query & Hq & ->) | (Hno & response & -> & Hs)].
  - pose proof Hq as [Hget _].
    unfold Routes.handleQuery, bind, try_catch, now, perform.
    rewrite (get_set_same _ _ _ _ Hget).
    assert (Hexec : forall options,
              Routes.agent_execute env as_integer REACT (trim query) options =
              execute env REACT (trim query)
                match options with
                | Some o => option_map as_integer (get "maxRetries" o)
                | None => None
                end).
    { intros [o|]; reflexivity. }
    rewrite Hexec. clear Hexec.
    unfold execute, execute_react, uuidv4, new_Date_toISOString, now,
      bind, try_catch, perform, ret, throw.
    cbn beta iota zeta.
    set (request := [ {| role := "user"; content := trim query |} ]).
    destruct (reactAgent_invoke env (EvNow :: EvNow :: h) request)
      as [messages|error] eqn:Einvoke.
    + rewrite last_map_Some.
      destruct (rev messages) as [|final rest] eqn:Erev.
      * eexists. eexists. split; [reflexivity|]. right. exists query.
        split; [exact Hq|]. cbn zeta. fold request. rewrite Einvoke, Erev.
        unfold Routes.handleError, new_Date_toISOString, now, bind, perform, ret.
        cbn [Routes.status Routes.payload].
        split; [reflexivity|]. eexists.
        destruct (String.eqb environment "development"); reflexivity.
      * eexists. eexists. split; [reflexivity|]. right. exists query.
        split; [exact Hq|]. cbn zeta. fold request. rewrite Einvoke, Erev.
        repeat split; reflexivity.
    + eexists. eexists. split; [reflexivity|]. right. exists query.
      split; [exact Hq|]. cbn zeta. fold request. rewrite Einvoke.
      unfold Routes.handleError, new_Date_toISOString, now, bind, perform, ret.
      cbn [Routes.status Routes.payload].
      split; [reflexivity|].
      destruct (String.eqb environment "development"); reflexivity.
  - eexists. eexists. split; [reflexivity|]. left. split; assumption.
Qed.

(** The health check always returns, having probed both services. *)
Lemma healthCheck_total env h :
  exists health,
    healthCheck env h =
      (Ok health,
       EvSearch "test" {| top := 1; queryType := "semantic" |}
       :: EvCompletion [ {| role := "user"; content := "Hello" |} ]
            {| temperature := 7 # 10; maxTokens := 5 |}
       :: h).
Proof.
  unfold healthCheck, bind, try_catch, ret.
  rewrite generateCompletion_run.
  destruct (reply_of env _ _ h); rewrite searchDocuments_run;
    destruct (search_of env _ _ _); eexists; reflexivity.
Qed.

(** X14.  The health route never answers 500: its [catch] is dead code.  It
    answers 200 with status [healthy] when the health check finds both
    services, and 503 with status [unhealthy] otherwise, and it passes the
    three flags of the health check on under [services]. *)
Theorem health_route_status env environment stack_of uptime h :
  exists health h1 response h',
    healthCheck env h = (Ok health, h1) /\
    Routes.get_health env environment stack_of uptime h = (Ok response, h') /\
    Routes.status response = (if overall health then 200 else 503) /\
    get "status" (Routes.payload response) =
      Some (JStr (if overall health then "healthy" else "unhealthy")) /\
    path (Routes.payload response) ["services"; "openai"] = Some (JBool (openai health)) /\
    path (Routes.payload response) ["services"; "search"] = Some (JBool (search health)) /\
    Routes.status response <> 500.
Proof.
  destruct (healthCheck_total env h) as (health & Hh).
  unfold Routes.get_health, bind, try_catch, new_Date_toISOString, now, perform, ret.
  rewrite Hh.
  eexists. eexists. eexists. eexists.
  split; [reflexivity|]. split; [reflexivity|].
  cbn [Routes.status Routes.payload].
  repeat split; try reflexivity.
  destruct (overall health); discriminate.
Qed.

(** * Properties of the configuration *)

Section ConfigFacts.

Import ConfigManager.

Lemma missing_false key value :
  missing (key, value) = false <-> exists v, value = Some v /\ ConfigManager.usable v.
Proof.
  unfold missing, usable. cbn [snd]. destruct value as [[|c s]|]; cbn [not_set orb].
  - split; [discriminate|]. intros (v & [= <-] & Hne & _). congruence.
  - rewrite orb_false_r. rewrite orb_false_iff. split.
    + intros [H1 H2]. exists (String c s). repeat split; auto. discriminate.
    + intros (v & [= <-] & _ & H1 & H2). auto.
  - split; [discriminate|]. intros (v & Hv & _). discriminate.
Qed.

Lemma missingFields_nil config :
  missingFields config = [] <->
  forall field, In field (requiredFields config) -> missing field = false.
Proof.
  unfold missingFields. split.
  - intros Hnil field Hin. destruct (missing field) eqn:E; [|reflexivity].
    assert (Hf : In field (filter missing (requiredFields config)))
      by (apply filter_In; auto).
    rewrite Hnil in Hf. destruct Hf.
  - intros Hall. induction (requiredFields config) as [|f l IH]; [reflexivity|].
    cbn [filter]. rewrite (Hall f (or_introl eq_refl)). apply IH.
    intros field Hin. apply Hall. now right.
Qed.

End ConfigFacts.

(** X15.  The constructor always leaves a [.env] file behind, also when the
    validation then fails.  It never touches an existing [.env] nor any
    other file; a missing [.env] becomes a copy of [env.example] when that
    exists and the built-in template otherwise; running it again changes
    nothing. *)
Theorem ensureEnvFile_creates_once process_env parseInt_or files :
  let files' := fst (ConfigManager._initializeConfig process_env parseInt_or files) in
  ConfigManager.existsSync ".env" files' = true /\
  (forall path, path <> ".env" -> files' path = files path) /\
  (ConfigManager.existsSync ".env" files = true -> files' ".env" = files ".env") /\
  (ConfigManager.existsSync ".env" files = false ->
   files' ".env" =
     match files "env.example" with
     | Some template => Some template
     | None => Some ConfigManager.minimalEnv
     end) /\
  (forall path,
     fst (ConfigManager._initializeConfig process_env parseInt_or files') path =
     files' path).
Proof.
  cbn [ConfigManager._initializeConfig fst].
  unfold ConfigManager._ensureEnvFile, ConfigManager._createMinimalEnvFile,
    ConfigManager.copyFileSync, ConfigManager.writeFileSync, ConfigManager.existsSync.
  destruct (files ".env") as [content|] eqn:Eenv; cbn [negb].
  - rewrite Eenv. cbn [negb]. repeat split; auto. discriminate.
  - destruct (files "env.example") as [template|] eqn:Eex; cbn [negb].
    + cbn [String.eqb Ascii.eqb Bool.eqb]. rewrite Eex. cbn [negb].
      repeat split; auto.
      * intros path Hne. apply string_eqb_neq in Hne. now rewrite Hne.
      * discriminate.
    + cbn [String.eqb Ascii.eqb Bool.eqb negb].
      repeat split; auto.
      * intros path Hne. apply string_eqb_neq in Hne. now rewrite Hne.
      * discriminate.
Qed.

(** X16.  The configuration is accepted exactly when the two endpoints and
    the two keys are set to usable values (not empty, holding neither
    [your-] nor [placeholder]), both endpoints start with [https://], and
    the index name, when it is set at all, holds neither [your-] nor
    [placeholder]: an unset index name falls back to [knowledge-base] and
    passes. *)
Theorem configuration_accepted_iff process_env parseInt_or files :
  snd (ConfigManager._initializeConfig process_env parseInt_or files) =
    Ok (ConfigManager.build process_env parseInt_or)
  <->
  ((exists endpoint,
      process_env "AZURE_OPENAI_ENDPOINT" = Some endpoint /\
      ConfigManager.usable endpoint /\
      String.prefix "https://" endpoint = true) /\
   (exists key, process_env "AZURE_OPENAI_API_KEY" = Some key /\ ConfigManager.usable key) /\
   (exists endpoint,
      process_env "AZURE_SEARCH_ENDPOINT" = Some endpoint /\
      ConfigManager.usable endpoint /\
      String.prefix "https://" endpoint = true) /\
   (exists key, process_env "AZURE_SEARCH_API_KEY" = Some key /\ ConfigManager.usable key) /\
   (forall name,
      process_env "AZURE_SEARCH_INDEX_NAME" = Some name ->
      includes name "your-" = false /\ includes name "placeholder" = false)).
Proof.
  cbn [ConfigManager._initializeConfig snd].
  set (config := ConfigManager.build process_env parseInt_or).
  unfold ConfigManager._validateConfig.
  destruct (ConfigManager.missingFields config) as [|f fs] eqn:Emiss.
  - cbn [List.length Nat.ltb Nat.leb].
    pose proof (proj1 (missingFields_nil config) Emiss) as Hall.
    assert (H1 := Hall _ (or_introl eq_refl)).
    assert (H2 := Hall _ (or_intror (or_introl eq_refl))).
    assert (H3 := Hall _ (or_intror (or_intror (or_introl eq_refl)))).
    assert (H4 := Hall _ (or_intror (or_intror (or_intror (or_introl eq_refl))))).
    assert (H5 := Hall _ (or_intror (or_intror (or_intror (or_intror (or_introl eq_refl)))))).
    apply missing_false in H1, H2, H3, H4, H5.
    cbn in H1, H2, H3, H4, H5.
    destruct H1 as (e1 & He1 & Hu1), H2 as (k1 & Hk1 & Hv1),
      H3 as (e2 & He2 & Hu2), H4 as (k2 & Hk2 & Hv2), H5 as (n & Hn & Hun).
    cbn [config ConfigManager.build ConfigManager.openai ConfigManager.search
         ConfigManager.openai_endpoint ConfigManager.search_endpoint].
    rewrite He1, He2. cbn [ConfigManager.startsWith_https].
    assert (Hindex : forall name,
              process_env "AZURE_SEARCH_INDEX_NAME" = Some name ->
              includes name "your-" = false /\ includes name "placeholder" = false).
    { intros name Hname. injection Hn as Hn. rewrite Hname in Hn.
      destruct name as [|c s]; cbn [ConfigManager.or_else] in Hn.
      - split; reflexivity.
      - subst n. destruct Hun as (_ & Ha & Hb). auto. }
    destruct (String.prefix "https://" e1) eqn:P1;
      [destruct (String.prefix "https://" e2) eqn:P2|].
    + split; [|reflexivity]. intros _.
      split; [exists e1; auto|]. split; [exists k1; auto|].
      split; [exists e2; auto|]. split; [exists k2; auto|]. exact Hindex.
    + split; [discriminate|].
      intros (_ & _ & (e & He & _ & Hp) & _). congruence.
    + split; [discriminate|].
      intros ((e & He & _ & Hp) & _). congruence.
  - cbn [List.length Nat.ltb Nat.leb]. split; [discriminate|].
    intros ((e1 & He1 & Hu1 & _) & (k1 & Hk1 & Hv1) & (e2 & He2 & Hu2 & _)
            & (k2 & Hk2 & Hv2) & Hindex).
    exfalso.
    assert (Hf : In f (ConfigManager.missingFields config))
      by (rewrite Emiss; now left).
    unfold ConfigManager.missingFields in Hf. apply filter_In in Hf.
    destruct Hf as [Hin Hm].
    assert (Hgood : ConfigManager.missing f = false).
    { cbn in Hin.
      destruct Hin as [<-|[<-|[<-|[<-|[<-|[]]]]]]; apply missing_false.
      - exists e1; auto.
      - exists k1; auto.
      - exists e2; auto.
      - exists k2; auto.
      - eexists. split; [reflexivity|].
        destruct (process_env "AZURE_SEARCH_INDEX_NAME") as [[|c s]|] eqn:En;
          cbn [ConfigManager.or_else].
        + repeat split; discriminate.
        + destruct (Hindex _ eq_refl). repeat split; auto. discriminate.
        + repeat split; discriminate. }
    congruence.
Qed.

Lemma fst_unique {A B : Type} (l : list (A * B)) k v v' :
  NoDup (map fst l) -> In (k, v) l -> In (k, v') l -> v = v'.
Proof.
  induction l as [|[k0 v0] l IH]; cbn [map fst]; intros Hnd H1 H2; [destruct H1|].
  inversion Hnd as [|? ? Hnotin Hnd']; subst.
  destruct H1 as [E1|H1], H2 as [E2|H2].
  - congruence.
  - injection E1 as -> ->. exfalso. apply Hnotin. apply in_map_iff.
    exists (k, v'). auto.
  - injection E2 as -> ->. exfalso. apply Hnotin. apply in_map_iff.
    exists (k, v). auto.
  - now apply IH.
Qed.

Lemma requiredFields_keys config :
  NoDup (map fst (ConfigManager.requiredFields config)).
Proof.
  cbn. repeat constructor; cbn; intuition discriminate.
Qed.

(** X17.  What a rejected configuration is told.  When a required value is
    missing or unusable the error lists exactly the variables whose value
    is, in the order in which the required fields are written.  The
    complaint about a URL that is not HTTPS is only made when none is
    missing: the one about the OpenAI endpoint whenever that endpoint is
    not HTTPS, the one about the search endpoint only when the OpenAI
    endpoint is HTTPS.  No other error leaves the validation. *)
Theorem configuration_rejection_names_fields config :
  let names := map fst (ConfigManager.missingFields config) in
  let https endpoint := String.prefix "https://" endpoint in
  names =
    filter (fun key => existsb (String.eqb key) names)
      ["AZURE_OPENAI_ENDPOINT"; "AZURE_OPENAI_API_KEY"; "AZURE_SEARCH_ENDPOINT";
       "AZURE_SEARCH_API_KEY"; "AZURE_SEARCH_INDEX_NAME"] /\
  match ConfigManager._validateConfig config with
  | Ok _ => names = []
  | Throw error =>
      (names <> [] /\
       error =
         "Configuration validation failed. "
         ++ "Missing or invalid environment variables: "
         ++ join ", " names ++ nl ++ nl
         ++ "Please edit your .env file with valid Azure credentials." /\
       forall key value,
         In (key, value) (ConfigManager.requiredFields config) ->
         (In key names <-> ~ exists v, value = Some v /\ ConfigManager.usable v))
      \/
      (names = [] /\
       exists endpoint,
         ConfigManager.openai_endpoint (ConfigManager.openai config) = Some endpoint /\
         https endpoint = false /\
         error = "AZURE_OPENAI_ENDPOINT must be a valid HTTPS URL")
      \/
      (names = [] /\
       exists endpoint endpoint',
         ConfigManager.openai_endpoint (ConfigManager.openai config) = Some endpoint /\
         https endpoint = true /\
         ConfigManager.search_endpoint (ConfigManager.search config) = Some endpoint' /\
         https endpoint' = false /\
         error = "AZURE_SEARCH_ENDPOINT must be a valid HTTPS URL")
  end.
Proof.
  intros names https. split.
  { subst names. unfold ConfigManager.missingFields, ConfigManager.requiredFields.
    cbn [filter].
    repeat match goal with
           | |- context [ConfigManager.missing ?f] =>
               destruct (ConfigManager.missing f)
           end; reflexivity. }
  unfold ConfigManager._validateConfig.
  destruct (ConfigManager.missingFields config) as [|f fs] eqn:Emiss.
  - cbn [List.length Nat.ltb Nat.leb].
    pose proof (proj1 (missingFields_nil config) Emiss) as Hall.
    assert (H1 := Hall _ (or_introl eq_refl)).
    assert (H3 := Hall _ (or_intror (or_intror (or_introl eq_refl)))).
    apply missing_false in H1, H3.
    destruct H1 as (e1 & He1 & _), H3 as (e2 & He2 & _).
    rewrite He1, He2. cbn [ConfigManager.startsWith_https].
    subst names https. cbn [map].
    destruct (String.prefix "https://" e1) eqn:P1;
      [destruct (String.prefix "https://" e2) eqn:P2|].
    + reflexivity.
    + right; right. split; [reflexivity|]. exists e1, e2. auto.
    + right; left. split; [reflexivity|]. exists e1. auto.
  - cbn [List.length Nat.ltb Nat.leb]. left.
    split; [subst names; discriminate|].
    split; [reflexivity|]. subst names. rewrite <- Emiss.
    intros key value Hin. rewrite <- missing_false with (key := key).
    unfold ConfigManager.missingFields. split.
    + intros Hk. apply in_map_iff in Hk. destruct Hk as ([k' v'] & Hk & Hf).
      cbn [fst] in Hk. subst k'. apply filter_In in Hf. destruct Hf as [Hin' Hm].
      rewrite (fst_unique _ _ _ _ (requiredFields_keys config) Hin Hin').
      congruence.
    + intros Hm. apply in_map_iff. exists (key, value). split; [reflexivity|].
      apply filter_In. split; [exact Hin|].
      destruct (ConfigManager.missing (key, value)); congruence.
Qed.

(** * Properties of the utilities *)

Section UtilsFacts.

Import Utils.

Lemma length_trimStart s : String.length (trimStart s) <= String.length s.
Proof.
  destruct (trimStart_decomp s) as [l Hl].
  rewrite Hl at 2. rewrite length_append. lia.
Qed.

Lemma length_trim s : String.length (trim s) <= String.length s.
Proof.
  destruct (trim_decomp s) as (l & r & Hs).
  rewrite Hs at 2. rewrite !length_append. lia.
Qed.

Lemma trimStart_head s c t : trimStart s = String c t -> is_ws c = false.
Proof.
  induction s as [|d s IH]; cbn [trimStart]; [discriminate|].
  destruct (is_ws d) eqn:E; [exact IH|]. intros [= <- <-]. exact E.
Qed.

Lemma trimEnd_idem s : trimEnd (trimEnd s) = trimEnd s.
Proof.
  induction s as [|c s IH]; [reflexivity|]. cbn [trimEnd].
  destruct (trimEnd s) as [|d t] eqn:E.
  - destruct (is_ws c) eqn:Ec; [reflexivity|]. cbn [trimEnd]. now rewrite Ec.
  - cbn [trimEnd]. cbn [trimEnd] in IH. rewrite IH. reflexivity.
Qed.

Lemma trimEnd_keeps_head c s :
  is_ws c = false -> exists t, trimEnd (String c s) = String c t.
Proof.
  intros Hc. cbn [trimEnd]. destruct (trimEnd s); [rewrite Hc|]; eauto.
Qed.

Lemma trim_idem s : trim (trim s) = trim s.
Proof.
  unfold trim. destruct (trimStart s) as [|c r] eqn:E; [reflexivity|].
  destruct (trimEnd_keeps_head c r (trimStart_head _ _ _ E)) as [t Ht].
  rewrite Ht. cbn [trimStart]. rewrite (trimStart_head _ _ _ E).
  rewrite <- Ht. apply trimEnd_idem.
Qed.

Lemma length_substring0_exact n s :
  n <= String.length s -> String.length (substring0 n s) = n.
Proof.
  revert s. induction n as [|n IH]; intros [|c s]; cbn; intros H; try lia.
  rewrite IH; lia.
Qed.

Lemma substring0_app_exact a b : substring0 (String.length a) (a ++ b) = a.
Proof.
  induction a as [|c a IH]; cbn.
  - destruct b; reflexivity.
  - now rewrite IH.
Qed.

Lemma remove_angles_chars s c :
  In c (String.units (remove_angles s)) ->
  is_angle c = false /\ In c (String.units s).
Proof.
  induction s as [|d s IH]; cbn [remove_angles String.units]; [intros []|].
  destruct (is_angle d) eqn:E.
  - intros H. destruct (IH H). split; [assumption | now right].
  - cbn [String.units]. intros [<-|H].
    + split; [assumption | now left].
    + destruct (IH H). split; [assumption | now right].
Qed.

Lemma normalize_from_chars inside s c :
  In c (String.units (normalize_from inside s)) ->
  c = 32%N \/ (is_ws c = false /\ In c (String.units s)).
Proof.
  revert inside. induction s as [|d s IH]; intros inside;
    cbn [normalize_from String.units]; [intros []|].
  destruct (is_ws d) eqn:E.
  - destruct inside; cbn [String.units].
    + intros H. destruct (IH _ H) as [->|[H1 H2]]; auto.
      right. split; [assumption | now right].
    + intros [<-|H]; [now left|].
      destruct (IH _ H) as [->|[H1 H2]]; auto.
      right. split; [assumption | now right].
  - cbn [String.units]. intros [<-|H].
    + right. split; [assumption | now left].
    + destruct (IH _ H) as [->|[H1 H2]]; auto.
      right. split; [assumption | now right].
Qed.

Lemma length_remove_angles s : String.length (remove_angles s) <= String.length s.
Proof.
  induction s as [|c s IH]; cbn [remove_angles String.length]; [lia|].
  destruct (is_angle c); cbn [String.length]; lia.
Qed.

Lemma length_normalize_from inside s :
  String.length (normalize_from inside s) <= String.length s.
Proof.
  revert inside. induction s as [|c s IH]; intros inside;
    cbn [normalize_from String.length]; [lia|].
  destruct (is_ws c); [destruct inside|]; cbn [String.length];
    pose proof (IH true); pose proof (IH false); lia.
Qed.

Lemma in_chars_app a b c :
  In c (String.units (a ++ b)) <->
  In c (String.units a) \/ In c (String.units b).
Proof.
  induction a as [|d a IH]; cbn [String.append String.units In].
  - tauto.
  - rewrite IH. tauto.
Qed.

Lemma levels_Some name n :
  levels name = Some n ->
  In name ["error"; "warn"; "info"; "debug"] /\ n <= 3.
Proof.
  unfold levels.
  destruct (String.eqb name "error") eqn:E0;
    [apply string_eqb_eq in E0; intros [= <-]; subst; cbn; split; [tauto | lia]|].
  destruct (String.eqb name "warn") eqn:E1;
    [apply string_eqb_eq in E1; intros [= <-]; subst; cbn; split; [tauto | lia]|].
  destruct (String.eqb name "info") eqn:E2;
    [apply string_eqb_eq in E2; intros [= <-]; subst; cbn; split; [tauto | lia]|].
  destruct (String.eqb name "debug") eqn:E3;
    [apply string_eqb_eq in E3; intros [= <-]; subst; cbn; split; [tauto | lia]|].
  discriminate.
Qed.

Lemma levels_known name :
  In name ["error"; "warn"; "info"; "debug"] -> exists n, levels name = Some n.
Proof.
  cbn. intros [<-|[<-|[<-|[<-|[]]]]]; eexists; reflexivity.
Qed.

End UtilsFacts.

(** X18.  The logger filters by severity, and a configured level it does
    not know silences it altogether.  With one of the four level names
    configured (or none, which means [info]) errors are always written and
    whatever is written at one level is written at every more severe one;
    with any other text as the level nothing is written, errors included. *)
Theorem logger_levels logLevel :
  let known := ["error"; "warn"; "info"; "debug"] in
  (In (Utils.level logLevel) known ->
   Utils._shouldLog logLevel "error" = true /\
   forall name name' n n',
     Utils.levels name = Some n -> Utils.levels name' = Some n' -> n' <= n ->
     Utils._shouldLog logLevel name = true ->
     Utils._shouldLog logLevel name' = true) /\
  (~ In (Utils.level logLevel) known ->
   forall name, Utils._shouldLog logLevel name = false) /\
  (forall name, ~ In name known -> Utils._shouldLog logLevel name = false) /\
  (logLevel = "" ->
   Utils._shouldLog logLevel "info" = true /\
   Utils._shouldLog logLevel "debug" = false).
Proof.
  intros known. unfold Utils._shouldLog. repeat split.
  - destruct (levels_known _ H) as [n Hn]. rewrite Hn. reflexivity.
  - intros name name' n n' Hname Hname' Hle. rewrite Hname, Hname'.
    destruct (Utils.levels (Utils.level logLevel)); [|discriminate].
    intros Hlog. apply Nat.leb_le in Hlog. apply Nat.leb_le. lia.
  - intros Hunknown name.
    destruct (Utils.levels (Utils.level logLevel)) as [n|] eqn:E.
    + apply levels_Some in E. tauto.
    + destruct (Utils.levels name); reflexivity.
  - intros name Hunknown.
    destruct (Utils.levels name) as [n|] eqn:E; [|reflexivity].
    apply levels_Some in E. tauto.
  - subst logLevel. reflexivity.
  - subst logLevel. reflexivity.
Qed.

(** X19.  [truncateText] never returns more than [maxLength] characters
    plus the three of the ellipsis, where a negative [maxLength] counts as
    zero.  It returns the text itself when that is empty or short enough,
    and otherwise its first [maxLength] characters followed by [...], which
    may be longer than the text was; with a negative [maxLength] every text
    but the empty one becomes [...].  Truncating twice is truncating
    once. *)
Theorem truncateText_bound text maxLength :
  let short := Utils.truncateText text maxLength in
  String.length short <= Z.to_nat (Z.max maxLength 0) + 3 /\
  ((Z.of_nat (String.length text) <= maxLength)%Z -> short = text) /\
  (text = "" -> short = "") /\
  (text <> "" -> (maxLength < Z.of_nat (String.length text))%Z ->
   short = substring0 (Z.to_nat maxLength) text ++ "..." /\
   String.length short = Z.to_nat (Z.max maxLength 0) + 3) /\
  (text <> "" -> (maxLength < 0)%Z -> short = "...") /\
  Utils.truncateText short maxLength = short.
Proof.
  intros short. subst short. unfold Utils.truncateText.
  replace (Z.to_nat (Z.max maxLength 0)) with (Z.to_nat maxLength) by lia.
  destruct (String.eqb text "") eqn:Eempty.
  - apply string_eqb_eq in Eempty. subst text. cbn [orb String.length String.eqb].
    repeat split; try lia; auto; congruence.
  - cbn [orb].
    assert (Hne : text <> "") by (now apply string_eqb_neq).
    destruct (Z.of_nat (String.length text) <=? maxLength)%Z eqn:Ele.
    + apply Z.leb_le in Ele. rewrite Eempty. cbn [orb].
      apply Z.leb_le in Ele as Ele'. rewrite Ele'.
      repeat split; try lia; auto; congruence.
    + apply Z.leb_gt in Ele.
      assert (Hn : Z.to_nat maxLength <= String.length text) by lia.
      assert (Hlen : String.length (substring0 (Z.to_nat maxLength) text ++ "...")
                     = Z.to_nat maxLength + 3).
      { rewrite length_append, length_substring0_exact by exact Hn. reflexivity. }
      repeat split; try lia; auto; try congruence.
      * intros _ Hneg. replace (Z.to_nat maxLength) with 0 by lia.
        destruct text; reflexivity.
      * assert (Hne' : String.eqb (substring0 (Z.to_nat maxLength) text ++ "...") ""
                       = false).
        { apply string_eqb_neq. intros H. rewrite H in Hlen. cbn in Hlen. lia. }
        rewrite Hne'. cbn [orb]. rewrite Hlen.
        assert (Hgt : (Z.of_nat (Z.to_nat maxLength + 3) <=? maxLength)%Z = false)
          by (apply Z.leb_gt; lia).
        rewrite Hgt.
        rewrite <- (length_substring0_exact _ _ Hn) at 1.
        now rewrite substring0_app_exact.
Qed.

(** X20.  What [sanitizeQuery] returns holds no angle bracket, its only
    white space is the space character, every other character of it comes
    from the query, and it is never longer than the query. *)
Theorem sanitizeQuery_clean query :
  let clean := Utils.sanitizeQuery query in
  (forall c,
     In c (String.units clean) ->
     c <> 60%N /\ c <> 62%N /\
     (is_ws c = true -> c = 32%N) /\
     (c = 32%N \/ In c (String.units query))) /\
  String.length clean <= String.length query.
Proof.
  intros clean. subst clean. unfold Utils.sanitizeQuery, Utils.normalize_whitespace.
  split.
  - intros c Hc. apply remove_angles_chars in Hc. destruct Hc as [Hangle Hc].
    unfold Utils.is_angle in Hangle. apply orb_false_iff in Hangle.
    destruct Hangle as [Hlt Hgt].
    apply N.eqb_neq in Hlt, Hgt.
    split; [assumption|]. split; [assumption|].
    apply normalize_from_chars in Hc.
    destruct Hc as [->|[Hws Hin]].
    + split; [reflexivity | now left].
    + split; [congruence|]. right.
      destruct (trim_decomp query) as (l & r & Hq). rewrite Hq.
      apply in_chars_app. right. apply in_chars_app. now left.
  - pose proof (length_remove_angles (Utils.normalize_from false (trim query))).
    pose proof (length_normalize_from false (trim query)).
    pose proof (length_trim query). lia.
Qed.

(** X21.  [validateQuery] of the utilities returns exactly for a string
    that is not blank and has at most 10000 characters, untrimmed; what it
    returns is the trimmed string, which is not empty and which it accepts
    again unchanged.  Every other value is refused with status 400. *)
Theorem validateQuery_accepts env query h :
  exists outcome h',
    Utils.validateQuery env query h = (Ok outcome, h') /\
    match outcome with
    | inr text =>
        h' = h /\
        (exists raw,
           query = Some (JStr raw) /\ text = trim raw /\ text <> "" /\
           (Z.of_nat (String.length raw) <= 10000)%Z) /\
        Utils.validateQuery env (Some (JStr text)) h = (Ok (inr text), h)
    | inl error =>
        h' = EvNow :: h /\
        Utils.statusCode error = 400%Z /\
        Utils.isOperational error = true /\
        ~ (exists raw,
             query = Some (JStr raw) /\ trim raw <> "" /\
             (Z.of_nat (String.length raw) <= 10000)%Z)
    end.
Proof.
  unfold Utils.validateQuery.
  assert (Hrefuse : forall message,
            exists outcome h',
              (error <- Utils.createError env message 400 ;;
               ret (inl error : Utils.AppError + string))%agent h = (Ok outcome, h') /\
              exists error,
                outcome = inl error /\ h' = EvNow :: h /\
                Utils.statusCode error = 400%Z /\ Utils.isOperational error = true).
  { intros message. eexists. eexists. split; [reflexivity|].
    eexists. repeat split. }
  destruct (Utils.falsy query) eqn:Efalsy.
  - destruct (Hrefuse "Query is required") as (o & h' & -> & e & -> & -> & Hs & Ho).
    eexists. eexists. split; [reflexivity|]. repeat split; auto.
    intros (raw & -> & Hne & _). cbn [Utils.falsy] in Efalsy.
    apply string_eqb_eq in Efalsy. subst raw. now apply Hne.
  - destruct query as [[| | |raw| |]|];
      try (destruct (Hrefuse "Query must be a string")
             as (o & h' & -> & e & -> & -> & Hs & Ho);
           eexists; eexists; (split; [reflexivity|]); repeat split; auto;
           intros (raw & [=] & _)).
    destruct (String.length (trim raw) =? 0)%nat eqn:Eblank.
    + destruct (Hrefuse "Query cannot be empty")
        as (o & h' & -> & e & -> & -> & Hs & Ho).
      eexists. eexists. split; [reflexivity|]. repeat split; auto.
      intros (raw' & [= <-] & Hne & _). apply Hne.
      apply Nat.eqb_eq in Eblank. destruct (trim raw); [reflexivity|discriminate].
    + destruct (10000 <? Z.of_nat (String.length raw))%Z eqn:Elong.
      * destruct (Hrefuse "Query too long (max 10000 characters)")
          as (o & h' & -> & e & -> & -> & Hs & Ho).
        eexists. eexists. split; [reflexivity|]. repeat split; auto.
        intros (raw' & [= <-] & _ & Hle). apply Z.ltb_lt in Elong. lia.
      * apply Z.ltb_ge in Elong.
        assert (Hne : trim raw <> "").
        { intros H. rewrite H in Eblank. discriminate. }
        eexists. eexists. split; [reflexivity|].
        split; [reflexivity|]. split.
        -- exists raw. auto.
        -- cbn [Utils.falsy].
           assert (Hf : String.eqb (trim raw) "" = false) by now apply string_eqb_neq.
           rewrite Hf, trim_idem, Eblank.
           assert (Hshort : (10000 <? Z.of_nat (String.length (trim raw)))%Z = false).
           { apply Z.ltb_ge. pose proof (length_trim raw). lia. }
           rewrite Hshort. reflexivity.
Qed.
